(** * fhir-to-brics: the row mapper, the value-set resolver, the extension
      expander and the template merger of [fhir_to_brics/utils.py], with the
      driver of [fhir_to_brics/main.py].

    The Python code is embedded shallowly.  Values decoded from JSON keep
    Python's dynamic typing ([json]); pandas cells are either missing or text
    ([cell]); every function that talks to the network, logs, prints or can
    raise lives in the monad [M], which threads the state of the remote
    servers, collects the observable events and propagates exceptions. *)

From Stdlib Require Import List String Ascii Bool ZArith DecimalString.
Import ListNotations.
Open Scope string_scope.
Open Scope list_scope.

Set Implicit Arguments.
Set Warnings "-register-all".

(** string concatenation, Python's [+] on [str] and the glue of f-strings *)
Infix "+++" := String.append (right associativity, at level 60).

(* ------------------------------------------------------------------ *)
(** ** Python string operations used by the code *)

Module PyStr.

(** [s.startswith(p)] *)
Definition startswith (s p : string) : bool := String.prefix p s.

(** [s.endswith(suf)] *)
Fixpoint endswith (s suf : string) : bool :=
  if String.eqb s suf then true
  else match s with
       | EmptyString => false
       | String _ t => endswith t suf
       end.

(** [sub in s] for two strings *)
Fixpoint contains (sub s : string) : bool :=
  if String.prefix sub s then true
  else match s with
       | EmptyString => false
       | String _ t => contains sub t
       end.

(** [s.rstrip(c)] for a one-character set [c]: every trailing [c] goes. *)
Fixpoint rstrip (c : ascii) (s : string) : string :=
  match s with
  | EmptyString => EmptyString
  | String a t =>
      match rstrip c t with
      | EmptyString => if Ascii.eqb a c then EmptyString else String a EmptyString
      | t' => String a t'
      end
  end.

(** [s.split(c)] for a one-character separator: never the empty list. *)
Fixpoint split (c : ascii) (s : string) : list string :=
  match s with
  | EmptyString => [EmptyString]
  | String a t =>
      if Ascii.eqb a c then EmptyString :: split c t
      else match split c t with
           | h :: r => String a h :: r
           | [] => [String a EmptyString]
           end
  end.

(** [sep.join(l)] on a list of strings *)
Definition join (sep : string) (l : list string) : string := String.concat sep l.

(** [c in s] for a character *)
Fixpoint has_char (c : ascii) (s : string) : bool :=
  match s with
  | EmptyString => false
  | String a t => Ascii.eqb a c || has_char c t
  end.

(** truthiness of a [str] *)
Definition truthy (s : string) : bool := negb (String.eqb s "").

End PyStr.

Definition pipe : ascii := "|"%char.
Definition colon : ascii := ":"%char.


(** [base64.b64encode] on the bytes of a string (RFC 4648, with padding). *)
Module Base64.

Definition alphabet : string :=
  "ABCDEFGHIJKLMNOPQRSTUVWXYZabcdefghijklmnopqrstuvwxyz0123456789+/".

Definition digit (n : N) : ascii :=
  match String.get (N.to_nat n) alphabet with
  | Some c => c
  | None => "="%char
  end.

Fixpoint groups (l : list ascii) : string :=
  match l with
  | [] => EmptyString
  | [a] =>
      let x := N_of_ascii a in
      String (digit (x / 4)) (String (digit ((x mod 4) * 16)) "==")
  | [a; b] =>
      let x := N_of_ascii a in
      let y := N_of_ascii b in
      String (digit (x / 4))
        (String (digit ((x mod 4) * 16 + y / 16))
           (String (digit ((y mod 16) * 4)) "="))
  | a :: b :: c :: rest =>
      let x := N_of_ascii a in
      let y := N_of_ascii b in
      let z := N_of_ascii c in
      String (digit (x / 4))
        (String (digit ((x mod 4) * 16 + y / 16))
           (String (digit ((y mod 16) * 4 + z / 64))
              (String (digit (z mod 64)) (groups rest))))
  end%N.

Definition b64encode (s : string) : string := groups (list_ascii_of_string s).

End Base64.

(* ------------------------------------------------------------------ *)
(** ** Values decoded by [json.loads], with Python's dynamic typing *)

(** A JSON number is kept as an integer: the code only ever observes whether a
    number is zero (truthiness), and a number never equals a string. *)
Inductive json : Type :=
| JNull
| JBool (b : bool)
| JNum (n : Z)
| JStr (s : string)
| JArr (l : list json)
| JObj (m : list (string * json)).

Inductive req_error : Type :=
| TransportError (msg : string)     (* raised by [requests.get] itself *)
| HTTPError (status : Z).           (* raised by [raise_for_status] *)

(** The exceptions that can cross a function boundary.  Only
    [RequestException] is a [requests.exceptions.RequestException];
    [JSONDecodeError] is the one of the [json] module, a [ValueError]. *)
Inductive exn : Type :=
| RequestException (e : req_error)
| JSONDecodeError
| TypeError
| KeyError (k : string)
| AttributeError
| ValueError (msg : string)
| RecursionError
| OSError (path : string).

Inductive outcome (A : Type) : Type :=
| Ok (a : A)
| Raise (e : exn).
Arguments Ok {A} a.
Arguments Raise {A} e.

Definition obind {A B} (o : outcome A) (f : A -> outcome B) : outcome B :=
  match o with
  | Ok a => f a
  | Raise e => Raise e
  end.

Module Py.

(** dict lookup on the association list of a JSON object *)
Fixpoint assoc {V} (k : string) (m : list (string * V)) : option V :=
  match m with
  | [] => None
  | (k', v) :: r => if String.eqb k k' then Some v else assoc k r
  end.

Definition is_str (k : string) (v : json) : bool :=
  match v with
  | JStr s => String.eqb s k
  | _ => false
  end.

(** [bool(v)] *)
Definition truthy (v : json) : bool :=
  match v with
  | JNull => false
  | JBool b => b
  | JNum n => negb (Z.eqb n 0)
  | JStr s => PyStr.truthy s
  | JArr l => match l with [] => false | _ => true end
  | JObj m => match m with [] => false | _ => true end
  end.

(** [k in v] for a string [k]: key test on a dict, membership on a list,
    substring on a string, [TypeError] on anything else. *)
Definition contains (k : string) (v : json) : outcome bool :=
  match v with
  | JObj m => Ok (match assoc k m with Some _ => true | None => false end)
  | JArr l => Ok (existsb (is_str k) l)
  | JStr s => Ok (PyStr.contains k s)
  | _ => Raise TypeError
  end.

(** [v[k]] for a string [k] *)
Definition getitem (v : json) (k : string) : outcome json :=
  match v with
  | JObj m => match assoc k m with Some x => Ok x | None => Raise (KeyError k) end
  | _ => Raise TypeError
  end.

(** [v.get(k, d)] *)
Definition get (v : json) (k : string) (d : json) : outcome json :=
  match v with
  | JObj m => Ok (match assoc k m with Some x => x | None => d end)
  | _ => Raise AttributeError
  end.

Fixpoint chars (s : string) : list json :=
  match s with
  | EmptyString => []
  | String a t => JStr (String a EmptyString) :: chars t
  end.

(** the items a [for] loop over [v] visits *)
Definition iter (v : json) : outcome (list json) :=
  match v with
  | JArr l => Ok l
  | JObj m => Ok (map (fun kv => JStr (fst kv)) m)
  | JStr s => Ok (chars s)
  | _ => Raise TypeError
  end.

(** [sep.join(l)]: every item must be a [str] *)
Fixpoint strings (l : list json) : outcome (list string) :=
  match l with
  | [] => Ok []
  | JStr s :: r => obind (strings r) (fun r' => Ok (s :: r'))
  | _ :: _ => Raise TypeError
  end.

Definition join (sep : string) (l : list json) : outcome string :=
  obind (strings l) (fun l' => Ok (PyStr.join sep l')).

(** truthiness of a value that is [None] or a [str] *)
Definition truthy_opt (o : option string) : bool :=
  match o with
  | Some s => PyStr.truthy s
  | None => false
  end.

End Py.

(* ------------------------------------------------------------------ *)
(** ** pandas tables *)

(** A cell of a text column read by [pd.read_csv]: missing ([NaN]) or a
    string. *)
Inductive cell : Type :=
| NaN
| Str (s : string).

(** [pd.notna] *)
Definition notna (c : cell) : bool :=
  match c with
  | NaN => false
  | Str _ => true
  end.

(** what an f-string renders for a cell *)
Definition render (c : cell) : string :=
  match c with
  | NaN => "nan"
  | Str s => s
  end.

(** A row with its labels ([pd.Series]) and, with the same shape, a Python
    dict whose values are cells; insertion order is kept. *)
Definition Series : Type := list (string * cell).

(** A table: the column labels and, per row, the cells in column order. *)
Record DataFrame : Type := mkDataFrame {
  columns : list string;
  records : list (list cell)
}.

Module Pd.

(** [row[label]] *)
Definition loc (row : Series) (label : string) : outcome cell :=
  match Py.assoc label row with
  | Some c => Ok c
  | None => Raise (KeyError label)
  end.

(** [d[k] = v] on a dict: an existing key keeps its place. *)
Fixpoint setitem (d : Series) (k : string) (v : cell) : Series :=
  match d with
  | [] => [(k, v)]
  | (k', v') :: r =>
      if String.eqb k k' then (k', v) :: r else (k', v') :: setitem r k v
  end.

(** [df.iterrows()] and [df.to_dict("records")]: the rows with their labels *)
Definition iterrows (df : DataFrame) : list Series :=
  map (fun r => combine (columns df) r) (records df).

(** [df[label]]: the column, cell by cell *)
Definition column (df : DataFrame) (label : string) : outcome (list cell) :=
  if existsb (String.eqb label) (columns df)
  then Ok (map (fun r => match Py.assoc label r with Some c => c | None => NaN end)
             (iterrows df))
  else Raise (KeyError label).

(** [col.str.startswith(p, na=False)] and [col.str.endswith(p, na=False)] *)
Definition startswith_na_false (p : string) (c : cell) : bool :=
  match c with
  | Str s => PyStr.startswith s p
  | NaN => false
  end.

Definition endswith_na_false (p : string) (c : cell) : bool :=
  match c with
  | Str s => PyStr.endswith s p
  | NaN => false
  end.

(** [col.str.endswith(p)] without [na]: a missing cell stays missing. *)
Definition endswith_mask (p : string) (c : cell) : option bool :=
  match c with
  | Str s => Some (PyStr.endswith s p)
  | NaN => None
  end.

Fixpoint select {A} (mask : list bool) (l : list A) : list A :=
  match mask, l with
  | b :: m, x :: r => if b then x :: select m r else select m r
  | _, _ => []
  end.

(** [df[mask]] with a boolean mask *)
Definition filter_mask (df : DataFrame) (mask : list bool) : DataFrame :=
  mkDataFrame (columns df) (select mask (records df)).

Fixpoint all_bool (mask : list (option bool)) : option (list bool) :=
  match mask with
  | [] => Some []
  | Some b :: r => option_map (cons b) (all_bool r)
  | None :: _ => None
  end.

(** [df[mask]] with a mask that may hold missing values: pandas refuses to
    index with it (Cannot mask with non-boolean array containing NA / NaN
    values). *)
Definition filter_object_mask (df : DataFrame) (mask : list (option bool))
  : outcome DataFrame :=
  match all_bool mask with
  | Some m => Ok (filter_mask df m)
  | None => Raise (ValueError "Cannot mask with non-boolean array containing NA / NaN values")
  end.

(** the labels of a list of dicts, in order of first appearance *)
Fixpoint add_labels (seen : list string) (d : Series) : list string :=
  match d with
  | [] => seen
  | (k, _) :: r =>
      add_labels (if existsb (String.eqb k) seen then seen else seen ++ [k]) r
  end.

Definition union_labels (ds : list Series) : list string :=
  fold_left add_labels ds [].

(** a dict laid out on given columns, [NaN] where it has no entry *)
Definition reindex (cols : list string) (d : Series) : list cell :=
  map (fun c => match Py.assoc c d with Some v => v | None => NaN end) cols.

(** [pd.DataFrame(list_of_dicts)] *)
Definition from_records (ds : list Series) : DataFrame :=
  let cols := union_labels ds in
  mkDataFrame cols (map (reindex cols) ds).

(** [df.empty] *)
Definition empty (df : DataFrame) : bool :=
  match records df, columns df with
  | [], _ => true
  | _, [] => true
  | _, _ => false
  end.

(** [pd.concat([a, b], ignore_index=True)]: columns are aligned by label,
    those of [a] first; rows keep their order, [a]'s before [b]'s. *)
Definition concat (a b : DataFrame) : DataFrame :=
  let cols := fold_left (fun seen k =>
                 if existsb (String.eqb k) seen then seen else seen ++ [k])
                (columns b) (columns a) in
  mkDataFrame cols (map (reindex cols) (iterrows a ++ iterrows b)).

End Pd.

(* ------------------------------------------------------------------ *)
(** ** The outside world, the observable events and the monad *)

Definition headers : Type := list (string * string).

(** What [requests.get(url, headers=..., timeout=10)] comes back with: an
    exception of the [requests] library, or a response. *)
Inductive http_result : Type :=
| RequestFailed (msg : string)
| Response (status : Z) (text : string).

(** A value substituted into a log or print message. *)
Inductive pyarg : Type :=
| AStr (s : string)
| AJson (j : json)
| ACell (c : cell)
| AErr (e : req_error).

Inductive level : Type := INFO | ERROR.

(** A message is kept as its template and the values substituted into it. *)
Inductive event : Type :=
| EvLog (lvl : level) (template : string) (args : list pyarg)
| EvPrint (template : string) (args : list pyarg)
| EvHttpGet (url : json) (hd : option headers)
| EvReadCsv (path : string)
| EvWriteCsv (path : string) (df : DataFrame).

(** The collaborators of the program: the remote servers (with a state of
    their own, so that answers may change from one call to the next), the
    JSON decoder and the files read by [pd.read_csv]. *)
Class World : Type := mkWorld {
  server : Type;
  http_get : server -> json -> option headers -> http_result * server;
  json_loads : string -> option json;
  read_csv_file : string -> option DataFrame
}.

Section Monad.
Context {Wd : World}.

(** A computation: from the state of the servers to an outcome, the new
    state and the events emitted, oldest first. *)
Definition M (A : Type) : Type := server -> outcome A * server * list event.

Definition ret {A} (a : A) : M A := fun s => (Ok a, s, []).

Definition raise {A} (e : exn) : M A := fun s => (Raise e, s, []).

Definition bind {A B} (m : M A) (f : A -> M B) : M B :=
  fun s =>
    match m s with
    | (Ok a, s1, t1) =>
        match f a s1 with
        | (o, s2, t2) => (o, s2, t1 ++ t2)
        end
    | (Raise e, s1, t1) => (Raise e, s1, t1)
    end.

Definition lift {A} (o : outcome A) : M A :=
  match o with
  | Ok a => ret a
  | Raise e => raise e
  end.

Definition emit (e : event) : M unit := fun s => (Ok tt, s, [e]).

(** [try: m  except requests.exceptions.RequestException as e: h e] *)
Definition try_except_request {A} (m : M A) (h : req_error -> M A) : M A :=
  fun s =>
    match m s with
    | (Raise (RequestException e), s1, t1) =>
        match h e s1 with
        | (o, s2, t2) => (o, s2, t1 ++ t2)
        end
    | r => r
    end.

End Monad.

Notation "x <- m ;; k" := (bind m (fun x => k))
  (at level 61, m at next level, right associativity).
Notation "m ;; k" := (bind m (fun _ => k))
  (at level 61, right associativity).

Section Loops.
Context {Wd : World}.

(** a [for] loop that updates an accumulator *)
Fixpoint for_each {A S} (l : list A) (acc : S) (body : S -> A -> M S) : M S :=
  match l with
  | [] => ret acc
  | x :: r => acc' <- body acc x ;; for_each r acc' body
  end.

Definition logging_info (template : string) (args : list pyarg) : M unit :=
  emit (EvLog INFO template args).

Definition logging_error (template : string) (args : list pyarg) : M unit :=
  emit (EvLog ERROR template args).

Definition print (template : string) (args : list pyarg) : M unit :=
  emit (EvPrint template args).

(** [requests.get(uri, headers=hd, timeout=10)] *)
Definition requests_get (uri : json) (hd : option headers) : M (Z * string) :=
  fun s =>
    match http_get s uri hd with
    | (RequestFailed msg, s') =>
        (Raise (RequestException (TransportError msg)), s', [EvHttpGet uri hd])
    | (Response status text, s') => (Ok (status, text), s', [EvHttpGet uri hd])
    end.

(** [response.raise_for_status()] *)
Definition raise_for_status (status : Z) : M unit :=
  if ((400 <=? status) && (status <? 600))%Z
  then raise (RequestException (HTTPError status))
  else ret tt.

(** [json.loads(text)] *)
Definition loads (text : string) : M json :=
  match json_loads text with
  | Some v => ret v
  | None => raise JSONDecodeError
  end.

(** [pd.read_csv(fp)] *)
Definition read_csv (fp : string) : M DataFrame :=
  emit (EvReadCsv fp) ;;
  match read_csv_file fp with
  | Some df => ret df
  | None => raise (OSError fp)
  end.

End Loops.

(* ------------------------------------------------------------------ *)
(** ** [fhir_to_brics/utils.py] *)

(** The value of a mapping: one source column or a list of them. *)
Inductive colspec : Type :=
| OneColumn (c : string)
| Columns (cs : list string).

(** [isinstance(columns, str)]: a single name becomes a one-item list. *)
Definition as_list (c : colspec) : list string :=
  match c with
  | OneColumn x => [x]
  | Columns l => l
  end.

(** [create_variable_name], the branch taken for a [pd.Series] *)
Definition create_variable_name (row : Series) : outcome string :=
  obind (Pd.loc row "Path") (fun path =>
  obind (Pd.loc row "Slice Name") (fun sl =>
  let slice_name := if notna sl then render sl else "" in
  Ok (PyStr.rstrip colon (render path +++ ":" +++ slice_name)))).

(** [create_variable_name], the branch taken for a [pd.DataFrame]:
    [str.cat] keeps a missing Path missing. *)
Definition create_variable_name_frame (df : DataFrame) : outcome (list cell) :=
  obind (Pd.column df "Path") (fun paths =>
  obind (Pd.column df "Slice Name") (fun slices =>
  Ok (map (fun ps =>
             match fst ps with
             | NaN => NaN
             | Str p =>
                 Str (PyStr.rstrip colon
                        (p +++ ":" +++ match snd ps with NaN => "" | Str x => x end))
             end)
          (combine paths slices)))).

(** the inner loop of [combine_columns_into_string] *)
Fixpoint combine_parts (row : Series) (prefix : string) (cols : list string)
  (parts : list string) : outcome (list string) :=
  match cols with
  | [] => Ok parts
  | column :: r =>
      obind (Pd.loc row column) (fun value =>
      combine_parts row prefix r
        (if notna value
         then parts ++ [prefix +++ " " +++ column +++ ": " +++ render value]
         else parts))
  end.

(** the outer loop, over [columns_dict.values()] *)
Fixpoint combine_values (row : Series) (prefix : string)
  (values : list colspec) (parts : list string) : outcome (list string) :=
  match values with
  | [] => Ok parts
  | columns :: r =>
      obind (combine_parts row prefix (as_list columns) parts) (fun parts' =>
      combine_values row prefix r parts')
  end.

Definition combine_columns_into_string (row : Series)
  (columns_dict : list (string * colspec)) (prefix sep : string) : outcome string :=
  obind (combine_values row prefix (map snd columns_dict) []) (fun parts =>
  Ok (PyStr.join sep parts)).

Definition default_prefix : string := "FHIR".
Definition default_sep : string := " | ".

Section Utils.
Context {Wd : World}.

Definition fetch_fhir_valueset (uri : json) (hd : option headers) : M json :=
  logging_info "Fetching FHIR value set from URI: {}" [AJson uri] ;;
  try_except_request
    (response <- requests_get uri hd ;;
     raise_for_status (fst response) ;;
     loads (snd response))
    (fun e =>
       logging_error "Failed to fetch data from {}: {}" [AJson uri; AErr e] ;;
       ret JNull).

Definition fetch_nlm_valueset (uri : json) (api_key : string) : M json :=
  logging_info "Fetching NLM value set from URI: {}" [AJson uri] ;;
  let auth_header := Base64.b64encode ("apikey:" +++ api_key) in
  let hd := [("Authorization", "Basic " +++ auth_header)] in
  try_except_request
    (response <- requests_get uri (Some hd) ;;
     raise_for_status (fst response) ;;
     logging_info "Successfully fetched NLM value set from URI: {}" [AJson uri] ;;
     loads (snd response))
    (fun e =>
       logging_error "Failed to fetch data from {}: {}" [AJson uri; AErr e] ;;
       ret JNull).

(** [api_key] is [None] or a string; the NLM branch needs it truthy. *)
Definition fetch_valueset (uri : json) (hd : option headers)
  (api_key : option string) : M json :=
  logging_info "Fetching value set from URI: {}" [AJson uri] ;;
  is_nlm <- lift (Py.contains "cts.nlm.nih.gov" uri) ;;
  match is_nlm, api_key with
  | true, Some key =>
      if PyStr.truthy key then fetch_nlm_valueset uri key
      else fetch_fhir_valueset uri hd
  | _, _ => fetch_fhir_valueset uri hd
  end.

(** the test [["compose" in valueset and "include" in valueset["compose"]]] *)
Definition has_includes (valueset : json) : outcome bool :=
  obind (Py.contains "compose" valueset) (fun c =>
  if c then obind (Py.getitem valueset "compose") (Py.contains "include")
  else Ok false).

(** the loop over [include["concept"]] *)
Fixpoint collect_concepts (concepts : list json) (acc : list json * list json)
  : outcome (list json * list json) :=
  match concepts with
  | [] => Ok acc
  | concept :: r =>
      obind (Py.get concept "code" (JStr "")) (fun code =>
      obind (Py.get concept "display" (JStr "")) (fun display =>
      collect_concepts r (fst acc ++ [code], snd acc ++ [display])))
  end.

(** the loop over [include["valueSet"]]; [self] stands for the recursive call
    [parse_valueset_to_list(nested_valueset)] *)
Definition collect_nested (self : json -> M (option string * option string))
  (fhir_headers : option headers) (nlm_api_key : option string)
  (acc : list json * list json) (valueSet_uri : json) : M (list json * list json) :=
  nested_valueset <- fetch_valueset valueSet_uri fhir_headers nlm_api_key ;;
  if Py.truthy nested_valueset then
    nested <- self nested_valueset ;;
    match nested with
    | (Some nested_values, Some nested_descriptions) =>
        if PyStr.truthy nested_values && PyStr.truthy nested_descriptions
        then ret (fst acc ++ map JStr (PyStr.split pipe nested_values),
                  snd acc ++ map JStr (PyStr.split pipe nested_descriptions))
        else ret acc
    | _ => ret acc
    end
  else ret acc.

(** the body of [[for include in includes]]: [if "concept" ... elif "valueSet"] *)
Definition collect_include (self : json -> M (option string * option string))
  (fhir_headers : option headers) (nlm_api_key : option string)
  (acc : list json * list json) (include : json) : M (list json * list json) :=
  is_concept <- lift (Py.contains "concept" include) ;;
  if is_concept : bool then
    concepts <- lift (obind (Py.getitem include "concept") Py.iter) ;;
    lift (collect_concepts concepts acc)
  else
    is_valueset <- lift (Py.contains "valueSet" include) ;;
    if is_valueset : bool then
      uris <- lift (obind (Py.getitem include "valueSet") Py.iter) ;;
      for_each uris acc (collect_nested self fhir_headers nlm_api_key)
    else ret acc.

(** the two lists [permissible_values] and [permissible_values_descriptions]
    as they stand when the loops are over *)
Definition collect_lists (self : json -> M (option string * option string))
  (valueset : json) (fhir_headers : option headers) (nlm_api_key : option string)
  : M (list json * list json) :=
  has <- lift (has_includes valueset) ;;
  if has : bool then
    compose <- lift (Py.getitem valueset "compose") ;;
    includes <- lift (Py.getitem compose "include") ;;
    items <- lift (Py.iter includes) ;;
    for_each items ([], []) (collect_include self fhir_headers nlm_api_key)
  else ret ([], []).

(** the last four lines of [parse_valueset_to_list] *)
Definition join_lists (lists : list json * list json)
  : M (option string * option string) :=
  match lists with
  | ([], _) | (_, []) => ret (None, None)
  | (permissible_values, permissible_values_descriptions) =>
      values <- lift (Py.join "|" permissible_values) ;;
      descriptions <- lift (Py.join "|" permissible_values_descriptions) ;;
      ret (Some values, Some descriptions)
  end.

Definition parse_body (self : json -> M (option string * option string))
  (valueset : json) (fhir_headers : option headers) (nlm_api_key : option string)
  : M (option string * option string) :=
  logging_info "Parsing value set to extract permissible values and descriptions." [] ;;
  lists <- collect_lists self valueset fhir_headers nlm_api_key ;;
  join_lists lists.

(** [parse_valueset_to_list].  [depth] is the number of nested activations of
    the function the interpreter still allows; at [0] the call raises
    [RecursionError].  The recursive call passes neither the headers nor the
    API key, so both take their default [None] there. *)
Fixpoint parse_valueset_to_list (depth : nat) (valueset : json)
  (fhir_headers : option headers) (nlm_api_key : option string)
  : M (option string * option string) :=
  match depth with
  | O => raise RecursionError
  | S depth' =>
      parse_body (fun nested_valueset =>
                    parse_valueset_to_list depth' nested_valueset None None)
        valueset fhir_headers nlm_api_key
  end.

(** The block that both row loops repeat word for word:
    [[if pd.notna(r["Binding Value Set"]): ... new_row["permissible values"] = ...]],
    with [depth] the recursion allowance handed to [parse_valueset_to_list]. *)
Definition resolve_binding (depth : nat) (r new_row : Series)
  (fhir_headers : option headers) (nlm_api_key : option string) : M Series :=
  binding <- lift (Pd.loc r "Binding Value Set") ;;
  match binding with
  | NaN => ret new_row
  | Str uri =>
      valueset <- fetch_valueset (JStr uri) fhir_headers nlm_api_key ;;
      if Py.truthy valueset then
        parsed <- parse_valueset_to_list depth valueset fhir_headers nlm_api_key ;;
        match parsed with
        | (Some permissible_values, Some permissible_values_descriptions) =>
            if PyStr.truthy permissible_values
               && PyStr.truthy permissible_values_descriptions
            then ret (Pd.setitem
                        (Pd.setitem new_row "permissible values" (Str permissible_values))
                        "permissible value descriptions"
                        (Str permissible_values_descriptions))
            else ret new_row
        | _ => ret new_row
        end
      else ret new_row
  end.

(** the loop [[for brics_column, resource_columns in mappings.items()]] *)
Fixpoint map_fields (row : Series) (mappings : list (string * colspec))
  (new_row : Series) : outcome Series :=
  match mappings with
  | [] => Ok new_row
  | (brics_column, resource_columns) :: r =>
      obind (combine_columns_into_string row [(brics_column, resource_columns)]
               default_prefix default_sep) (fun v =>
      map_fields row r (Pd.setitem new_row brics_column (Str v)))
  end.

(** [col.str.endswith(pat)] with [pat] taken from a cell: pandas wants a
    string pattern. *)
Definition str_endswith (col : list cell) (pat : cell) : outcome (list (option bool)) :=
  match pat with
  | Str p => Ok (map (Pd.endswith_mask p) col)
  | NaN => Raise TypeError
  end.

(** the body of the loop of [process_extension_rows] over the matching rows *)
Definition process_extension_row (depth : nat) (row : Series)
  (original_var_name : string) (fhir_headers : option headers)
  (nlm_api_key : option string) (mappings : list (string * colspec))
  (extension_rows : list Series) (ext_row : Series) : M (list Series) :=
  extension_id <- lift (Pd.loc ext_row "Id") ;;
  let new_row :=
    [("variable name", Str (original_var_name +++ "." +++ render extension_id))] in
  new_row <- lift (map_fields row mappings new_row) ;;
  new_row <- resolve_binding depth ext_row new_row fhir_headers nlm_api_key ;;
  ret (extension_rows ++ [new_row]).

Definition process_extension_rows (depth : nat) (row : Series)
  (df_extensions : DataFrame) (fhir_headers : option headers)
  (nlm_api_key : option string) (mappings : list (string * colspec))
  : M DataFrame :=
  shown <- lift (Pd.loc row "Slice Name") ;;
  logging_info "Processing extension rows for slice name: {}" [ACell shown] ;;
  slice_name <- lift (Pd.loc row "Slice Name") ;;
  original_var_name <- lift (create_variable_name row) ;;
  profiles <- lift (Pd.column df_extensions "Profile") ;;
  mask <- lift (str_endswith profiles slice_name) ;;
  matching_extensions <- lift (Pd.filter_object_mask df_extensions mask) ;;
  ids <- lift (Pd.column matching_extensions "Id") ;;
  matching_extensions <-
    lift (Pd.filter_object_mask matching_extensions
            (map (Pd.endswith_mask ".value[x]") ids)) ;;
  if Pd.empty matching_extensions then
    print "No matching extensions found for slice name: {}" [ACell slice_name] ;;
    ret (Pd.from_records [])
  else
    extension_rows <-
      for_each (Pd.iterrows matching_extensions) []
        (process_extension_row depth row original_var_name fhir_headers nlm_api_key
           mappings) ;;
    ret (Pd.from_records extension_rows).

(** the body of the loop of [process_resource_rows] over the resource rows *)
Definition process_resource_row (depth : nat) (df_extensions : DataFrame)
  (mappings : list (string * colspec)) (fhir_headers : option headers)
  (nlm_api_key : option string) (new_rows : list Series) (row : Series)
  : M (list Series) :=
  variable_name <- lift (create_variable_name row) ;;
  let new_row := [("variable name", Str variable_name)] in
  new_row <- lift (map_fields row mappings new_row) ;;
  new_row <- resolve_binding depth row new_row fhir_headers nlm_api_key ;;
  let new_rows := new_rows ++ [new_row] in
  slice_name <- lift (Pd.loc row "Slice Name") ;;
  if notna slice_name then
    extension_rows_df <-
      process_extension_rows depth row df_extensions fhir_headers nlm_api_key
        mappings ;;
    ret (new_rows ++ Pd.iterrows extension_rows_df)
  else ret new_rows.

Definition process_resource_rows (depth : nat) (df_resource df_extensions
  de_template : DataFrame) (mappings : list (string * colspec))
  (fhir_headers : option headers) (nlm_api_key : option string) : M DataFrame :=
  logging_info "Processing resource rows..." [] ;;
  new_rows <-
    for_each (Pd.iterrows df_resource) []
      (process_resource_row depth df_extensions mappings fhir_headers nlm_api_key) ;;
  ret (Pd.from_records new_rows).

(** the loop [[for col in df_mapped.columns]] of [merge_with_template] *)
Fixpoint check_columns (cols template_cols : list string) : outcome unit :=
  match cols with
  | [] => Ok tt
  | col :: r =>
      if existsb (String.eqb col) template_cols then check_columns r template_cols
      else Raise (ValueError ("Column " +++ col +++ " in df_mapped is not in de_template."))
  end.

Definition merge_with_template (df_mapped de_template : DataFrame) : M DataFrame :=
  logging_info "Merging processed DataFrame with DE template..." [] ;;
  lift (check_columns (columns df_mapped) (columns de_template)) ;;
  ret (Pd.concat de_template df_mapped).

Definition load_profile (fp profile_startswith : string) : M DataFrame :=
  logging_info "Loading profiles from {} that start with {}"
    [AStr fp; AStr profile_startswith] ;;
  df <- read_csv fp ;;
  profiles <- lift (Pd.column df "Profile") ;;
  ret (Pd.filter_mask df (map (Pd.startswith_na_false profile_startswith) profiles)).

Definition load_resource (df : DataFrame) (resource : string) : M DataFrame :=
  logging_info "Filtering DataFrame based on resource type: {}" [AStr resource] ;;
  profiles <- lift (Pd.column df "Profile") ;;
  ret (Pd.filter_mask df (map (Pd.endswith_na_false resource) profiles)).

Definition load_extensions (fp extension_Id_startswith : string) : M DataFrame :=
  logging_info "Loading extensions from {} that start with {}"
    [AStr fp; AStr extension_Id_startswith] ;;
  df <- read_csv fp ;;
  ids <- lift (Pd.column df "Id") ;;
  ret (Pd.filter_mask df (map (Pd.startswith_na_false extension_Id_startswith) ids)).

(** [df.to_csv(fp, index=False)] *)
Definition to_csv (df : DataFrame) (fp : string) : M unit :=
  emit (EvWriteCsv fp df).

(* ---------------------------------------------------------------- *)
(** ** [fhir_to_brics/main.py] *)

Definition mappings : list (string * colspec) :=
  [ ("short description", Columns ["Path"; "Slice Name"; "Must Support?"; "Short"]);
    ("definition",
     Columns ["Definition"; "Comments"; "Requirements"; "Meaning When Missing"]);
    ("guidelines/instructions", Columns ["Binding Strength"; "Binding Description"]);
    ("notes", Columns ["Is Modifier?"; "Is Summary?"]);
    ("references", Columns ["Binding Value Set"]) ].

Definition fhir_headers : headers := [("Accept", "application/fhir+json")].

(** [main]; [UMLS_API_KEY] is the value of the environment variable, [None]
    when it is not set. *)
Definition main (depth : nat) (profile_startswith resource_name
  extension_Id_startswith : string) (UMLS_API_KEY : option string) : M unit :=
  logging_info "Starting the FHIR to BRICS transformation process." [] ;;
  let fp_de_template := "fhir_to_brics/templates/ImportUDETemplate.csv" in
  let fp_profiles := "fhir_to_brics/templates/all-profiles.csv" in
  let nlm_api_key := UMLS_API_KEY in
  logging_info "Loading dataframes." [] ;;
  df_profile <- load_profile fp_profiles profile_startswith ;;
  df_resource <- load_resource df_profile resource_name ;;
  df_extensions <- load_extensions fp_profiles extension_Id_startswith ;;
  de_template <- read_csv fp_de_template ;;
  logging_info "Defining mappings." [] ;;
  logging_info "Processing resource rows." [] ;;
  df_mapped <-
    process_resource_rows depth df_resource df_extensions de_template mappings
      (Some fhir_headers) nlm_api_key ;;
  logging_info "Merging with template." [] ;;
  brics_des <- merge_with_template df_mapped de_template ;;
  logging_info "Saving the processed data." [] ;;
  let fp_brics_des := "fhir_to_brics/output/" +++ resource_name +++ "_des.csv" in
  to_csv brics_des fp_brics_des ;;
  logging_info "FHIR to BRICS transformation process completed." [].

End Utils.

(* ------------------------------------------------------------------ *)
(** ** Reference definitions the properties are stated against *)

(** Value-set flattening at the level of (code, display) pairs, in the words
    of the design: literal concept entries contribute pairs directly, nested
    value-set URIs are resolved recursively and their pairs spliced in.  A
    nested result is spliced in unless it is empty or a single pair with an
    empty code or an empty display. *)
Definition spliced (ps : list (string * string)) : bool :=
  match ps with
  | [] => false
  | [(c, d)] => PyStr.truthy c && PyStr.truthy d
  | _ => true
  end.

Definition jpair (p : string * string) : json * json := (JStr (fst p), JStr (snd p)).

Fixpoint concept_pairs (concepts : list json) (acc : list (json * json))
  : outcome (list (json * json)) :=
  match concepts with
  | [] => Ok acc
  | concept :: r =>
      obind (Py.get concept "code" (JStr "")) (fun code =>
      obind (Py.get concept "display" (JStr "")) (fun display =>
      concept_pairs r (acc ++ [(code, display)])))
  end.

(** a pair list whose codes and displays are all strings, else [TypeError] *)
Fixpoint string_pairs (l : list (json * json)) : outcome (list (string * string)) :=
  match l with
  | [] => Ok []
  | (JStr c, JStr d) :: r => obind (string_pairs r) (fun r' => Ok ((c, d) :: r'))
  | _ :: _ => Raise TypeError
  end.

(** the two pipe-joined strings of a pair list; no result for no pair *)
Definition pipe_joined (ps : list (string * string)) : option string * option string :=
  match ps with
  | [] => (None, None)
  | _ => (Some (PyStr.join "|" (map fst ps)), Some (PyStr.join "|" (map snd ps)))
  end.

Definition no_pipe (s : string) : Prop := PyStr.has_char pipe s = false.

Definition no_pipes (ps : list (string * string)) : Prop :=
  Forall (fun p => no_pipe (fst p) /\ no_pipe (snd p)) ps.

Section Reference.
Context {Wd : World}.

Definition nested_pairs (self : json -> M (list (string * string)))
  (fhir_headers : option headers) (nlm_api_key : option string)
  (acc : list (json * json)) (valueSet_uri : json) : M (list (json * json)) :=
  nested_valueset <- fetch_valueset valueSet_uri fhir_headers nlm_api_key ;;
  if Py.truthy nested_valueset then
    ps <- self nested_valueset ;;
    ret (if spliced ps then acc ++ map jpair ps else acc)
  else ret acc.

Definition include_pairs (self : json -> M (list (string * string)))
  (fhir_headers : option headers) (nlm_api_key : option string)
  (acc : list (json * json)) (include : json) : M (list (json * json)) :=
  is_concept <- lift (Py.contains "concept" include) ;;
  if is_concept : bool then
    concepts <- lift (obind (Py.getitem include "concept") Py.iter) ;;
    lift (concept_pairs concepts acc)
  else
    is_valueset <- lift (Py.contains "valueSet" include) ;;
    if is_valueset : bool then
      uris <- lift (obind (Py.getitem include "valueSet") Py.iter) ;;
      for_each uris acc (nested_pairs self fhir_headers nlm_api_key)
    else ret acc.

Definition all_pairs (self : json -> M (list (string * string)))
  (valueset : json) (fhir_headers : option headers) (nlm_api_key : option string)
  : M (list (json * json)) :=
  has <- lift (has_includes valueset) ;;
  if has : bool then
    compose <- lift (Py.getitem valueset "compose") ;;
    includes <- lift (Py.getitem compose "include") ;;
    items <- lift (Py.iter includes) ;;
    for_each items [] (include_pairs self fhir_headers nlm_api_key)
  else ret [].

Definition flatten_body (self : json -> M (list (string * string)))
  (valueset : json) (fhir_headers : option headers) (nlm_api_key : option string)
  : M (list (string * string)) :=
  logging_info "Parsing value set to extract permissible values and descriptions." [] ;;
  acc <- all_pairs self valueset fhir_headers nlm_api_key ;;
  lift (string_pairs acc).

Fixpoint flatten_pairs (depth : nat) (valueset : json)
  (fhir_headers : option headers) (nlm_api_key : option string)
  : M (list (string * string)) :=
  match depth with
  | O => raise RecursionError
  | S depth' =>
      flatten_body (fun nested_valueset =>
                      flatten_pairs depth' nested_valueset None None)
        valueset fhir_headers nlm_api_key
  end.

End Reference.

(** The nested value-set URIs a value set lists itself, in the entries of
    [compose.include] that have no [concept]. *)
Definition include_uris (include : json) : list json :=
  match Py.contains "concept" include, Py.contains "valueSet" include with
  | Ok false, Ok true =>
      match obind (Py.getitem include "valueSet") Py.iter with
      | Ok uris => uris
      | Raise _ => []
      end
  | _, _ => []
  end.

Definition direct_uris (valueset : json) : list json :=
  match has_includes valueset with
  | Ok true =>
      match obind (obind (Py.getitem valueset "compose")
                     (fun c => Py.getitem c "include")) Py.iter with
      | Ok items => flat_map include_uris items
      | Raise _ => []
      end
  | _ => []
  end.

(** The host of a URI: what stands between [://] and the next [/], [?], [#]
    or [:]. *)
Fixpoint after_scheme (s : string) : option string :=
  match s with
  | EmptyString => None
  | String a t =>
      if String.prefix "://" s then Some (substring 3 (String.length s - 3) s)
      else after_scheme t
  end.

Fixpoint until_delimiter (s : string) : string :=
  match s with
  | EmptyString => EmptyString
  | String a t =>
      if existsb (Ascii.eqb a) ["/"; "?"; "#"; ":"]%char then EmptyString
      else String a (until_delimiter t)
  end.

Definition uri_host (uri : string) : string :=
  match after_scheme uri with
  | Some rest => until_delimiter rest
  | None => until_delimiter uri
  end.

Definition nlm_domain : string := "cts.nlm.nih.gov".

(** the header [fetch_nlm_valueset] sends *)
Definition authorization (api_key : string) : headers :=
  [("Authorization", "Basic " +++ Base64.b64encode ("apikey:" +++ api_key))].

(** the HTTP requests among the events of a run *)
Fixpoint http_requests (t : list event) : list (json * option headers) :=
  match t with
  | [] => []
  | EvHttpGet url hd :: r => (url, hd) :: http_requests r
  | _ :: r => http_requests r
  end.

Definition is_write (e : event) : bool :=
  match e with
  | EvWriteCsv _ _ => true
  | _ => false
  end.

Definition outcome_of {Wd : World} {A} (r : outcome A * server * list event) : outcome A :=
  fst (fst r).

Definition events_of {Wd : World} {A} (r : outcome A * server * list event) : list event :=
  snd r.

(** a cell of a row, [NaN] when the row has no such label *)
Definition cell_of (row : Series) (label : string) : cell :=
  match Py.assoc label row with
  | Some c => c
  | None => NaN
  end.

(** one rendered part of a composite field *)
Definition part (prefix : string) (row : Series) (column : string) : string :=
  prefix +++ " " +++ column +++ ": " +++ render (cell_of row column).




(** the last character of [s] is [c] *)
Fixpoint last_is (c : ascii) (s : string) : bool :=
  match s with
  | EmptyString => false
  | String a EmptyString => Ascii.eqb a c
  | String _ t => last_is c t
  end.

(** the key under which [fetch_valueset] takes the NLM branch for a URI, if
    it does: the URI holds the NLM domain and the key is a non-empty string *)
Definition nlm_key (uri : string) (api_key : option string) : option string :=
  match api_key with
  | Some k => if PyStr.contains nlm_domain uri && PyStr.truthy k then Some k else None
  | None => None
  end.

(** an event put in front of the events of a run *)
Definition after_event {Wd : World} {A} (e : event)
  (r : outcome A * server * list event) : outcome A * server * list event :=
  (fst (fst r), snd (fst r), e :: snd r).

(** the pieces a collected item falls into when a joined string is split
    again: a string at its pipes, anything else stays whole *)
Definition pieces (v : json) : list json :=
  match v with
  | JStr x => map JStr (PyStr.split pipe x)
  | _ => [v]
  end.

(** two lists of collected items stand for a pair list when they agree with
    its two projections piece by piece *)
Definition stands_for (lists : list json * list json) (acc : list (json * json)) : Prop :=
  flat_map pieces (fst lists) = flat_map pieces (map fst acc)
  /\ flat_map pieces (snd lists) = flat_map pieces (map snd acc).

(** two computations run in lockstep: same servers, same events, the same
    exception if any, and related results *)
Definition sim {Wd : World} {A B} (R : A -> B -> Prop) (m1 : M A) (m2 : M B) : Prop :=
  forall s,
    match m1 s, m2 s with
    | (Ok a, s1, t1), (Ok b, s2, t2) => R a b /\ s1 = s2 /\ t1 = t2
    | (Raise e1, s1, t1), (Raise e2, s2, t2) => e1 = e2 /\ s1 = s2 /\ t1 = t2
    | _, _ => False
    end.

(** the same for two pure steps *)
Definition osim {A B} (R : A -> B -> Prop) (o1 : outcome A) (o2 : outcome B) : Prop :=
  match o1, o2 with
  | Ok a, Ok b => R a b
  | Raise e1, Raise e2 => e1 = e2
  | _, _ => False
  end.

Definition is_text (v : json) : Prop := exists x, v = JStr x.

Definition both_text (lists : list json * list json) : Prop :=
  Forall is_text (fst lists) /\ Forall is_text (snd lists).

(** the codes and displays of the literal concepts of a value set are
    strings, as FHIR has them *)
Definition text_concept (concept : json) : Prop :=
  forall code display,
    Py.get concept "code" (JStr "") = Ok code ->
    Py.get concept "display" (JStr "") = Ok display ->
    is_text code /\ is_text display.

Definition text_include (include : json) : Prop :=
  forall concepts,
    Py.contains "concept" include = Ok true ->
    obind (Py.getitem include "concept") Py.iter = Ok concepts ->
    Forall text_concept concepts.

Definition text_valueset (valueset : json) : Prop :=
  forall compose includes items,
    Py.getitem valueset "compose" = Ok compose ->
    Py.getitem compose "include" = Ok includes ->
    Py.iter includes = Ok items ->
    Forall text_include items.

(** every event of every run of [m] satisfies [P] *)
Definition emits {Wd : World} {A} (P : event -> Prop) (m : M A) : Prop :=
  forall s, Forall P (events_of (m s)).

(** a request without headers: no Accept, no Authorization *)
Definition bare_request (e : event) : Prop :=
  match e with
  | EvHttpGet _ hd => hd = None
  | _ => True
  end.

(** a request without headers, or one for a URI the value set lists itself *)
Definition bare_or_direct (valueset : json) (e : event) : Prop :=
  match e with
  | EvHttpGet url hd => hd = None \/ In url (direct_uris valueset)
  | _ => True
  end.





(** an entry of [compose.include] that lists literal concepts, each a JSON
    object whose code and display, when there, are strings *)
Definition literal_concept (concept : json) : Prop :=
  exists m code display,
    concept = JObj m
    /\ Py.get concept "code" (JStr "") = Ok (JStr code)
    /\ Py.get concept "display" (JStr "") = Ok (JStr display).

Definition literal_include (include : json) : Prop :=
  exists concepts,
    Py.contains "concept" include = Ok true
    /\ obind (Py.getitem include "concept") Py.iter = Ok concepts
    /\ Forall literal_concept concepts.

(** *** Stronger readings, refuted below *)

(** Dispatch by host: the NLM fetch, with its authorization header, goes out
    exactly when the host of the URI is the NLM domain; any other URI gets
    the generic fetch with the Accept header of the pipeline. *)
Definition dispatch_by_host {Wd : World} : Prop :=
  forall (uri : string) (hd : option headers) (key : option string) (s : server),
    exists h,
      http_requests (events_of (fetch_valueset (JStr uri) hd key s)) = [(JStr uri, Some h)]
      /\ (uri_host uri = nlm_domain -> exists k, h = authorization k)
      /\ (uri_host uri <> nlm_domain -> h = fhir_headers).

(** The variable name of a row is Path, a colon and the slice name when the
    slice name is there, and Path alone when it is not. *)
Definition variable_name_is_path_and_slice : Prop :=
  forall (row : Series) (path : string),
    Py.assoc "Path" row = Some (Str path) ->
    match Py.assoc "Slice Name" row with
    | Some (Str slice_name) => create_variable_name row = Ok (path +++ ":" +++ slice_name)
    | Some NaN => create_variable_name row = Ok path
    | None => True
    end.

(** The two strings of a result always split, at the pipes, into lists of
    the same length. *)
Definition parallel_after_split {Wd : World} : Prop :=
  forall (depth : nat) (valueset : json) (hd : option headers) (key : option string)
         (s : server) (values descriptions : string),
    outcome_of (parse_valueset_to_list depth valueset hd key s)
      = Ok (Some values, Some descriptions) ->
    List.length (PyStr.split pipe values) = List.length (PyStr.split pipe descriptions).

(* ------------------------------------------------------------------ *)
(** ** Concrete worlds and tables for the examples *)

Module Fixtures.

Definition quote : string := String (Ascii.ascii_of_nat 34) EmptyString.

(** JSON text of a value (strings are written without escapes, which the
    examples do not need) *)
Fixpoint dumps (v : json) : string :=
  match v with
  | JNull => "null"
  | JBool true => "true"
  | JBool false => "false"
  | JNum n => DecimalString.NilZero.string_of_int (Z.to_int n)
  | JStr s => quote +++ s +++ quote
  | JArr l => "[" +++ PyStr.join ", " (map dumps l) +++ "]"
  | JObj m =>
      "{" +++ PyStr.join ", "
                (map (fun kv => quote +++ fst kv +++ quote +++ ": " +++ dumps (snd kv)) m)
          +++ "}"
  end.

(** A world whose servers answer by URL from a fixed table, whose decoder
    knows the texts of the listed values, and whose files are listed. *)
Definition static_world (site : list (string * http_result))
  (documents : list json) (files : list (string * DataFrame)) : World :=
  mkWorld (server := unit)
    (fun s url _ =>
       (match url with
        | JStr u =>
            match Py.assoc u site with
            | Some r => r
            | None => RequestFailed "Max retries exceeded"
            end
        | _ => RequestFailed "Invalid URL"
        end, s))
    (fun text => Py.assoc text (map (fun v => (dumps v, v)) documents))
    (fun fp => Py.assoc fp files).

Definition concept (code display : string) : json :=
  JObj [("code", JStr code); ("display", JStr display)].

Definition value_set (includes : list json) : json :=
  JObj [("resourceType", JStr "ValueSet");
        ("compose", JObj [("include", JArr includes)])].

Definition url_a : string := "https://cts.nlm.nih.gov/fhir/ValueSet/A".
Definition url_b : string := "https://cts.nlm.nih.gov/fhir/ValueSet/B".
Definition url_gender : string := "http://hl7.org/fhir/ValueSet/administrative-gender".
Definition url_broken : string := "https://tx.example.org/ValueSet/broken".
Definition url_nlm_broken : string := "https://cts.nlm.nih.gov/fhir/ValueSet/broken".
Definition url_proxy : string :=
  "https://tx.example.org/ValueSet/$expand?url=http://cts.nlm.nih.gov/fhir/ValueSet/A".

Definition vs_b : json :=
  value_set [JObj [("concept", JArr [concept "ASKU" "Asked but unknown";
                                      JObj [("code", JStr "OTH")]])]].

Definition vs_a : json :=
  value_set [JObj [("concept", JArr [concept "UNK" "Unknown"])];
             JObj [("valueSet", JArr [JStr url_b])]].

Definition vs_gender : json :=
  value_set [JObj [("concept", JArr [concept "male" "Male"; concept "female" "Female"])];
             JObj [("valueSet", JArr [JStr url_a])]].

(** a single concept with no display *)
Definition url_c : string := "https://tx.example.org/ValueSet/C".
Definition vs_c : json :=
  value_set [JObj [("concept", JArr [JObj [("code", JStr "OTH")]])]].

(** a display that holds the separator *)
Definition vs_piped : json :=
  value_set [JObj [("concept", JArr [concept "A" "Yes | No"])]].

(** an entry with both a [concept] list and a [valueSet] list *)
Definition vs_both : json :=
  value_set [JObj [("concept", JArr [concept "male" "Male"]);
                   ("valueSet", JArr [JStr url_a])]].

Definition web : World :=
  static_world
    [(url_a, Response 200 (dumps vs_a));
     (url_b, Response 200 (dumps vs_b));
     (url_c, Response 200 (dumps vs_c));
     (url_gender, Response 200 (dumps vs_gender));
     (url_proxy, Response 200 (dumps vs_a));
     (url_broken, Response 200 "<html><body>Bad gateway</body></html>");
     (url_nlm_broken, Response 200 "<html><body>Bad gateway</body></html>");
     ("https://tx.example.org/ValueSet/missing", Response 404 "Not found")]
    [vs_a; vs_b; vs_c; vs_gender]
    [].

Definition profile_columns : list string :=
  ["Id"; "Path"; "Slice Name"; "Must Support?"; "Short"; "Definition"; "Comments";
   "Requirements"; "Meaning When Missing"; "Binding Strength"; "Binding Description";
   "Binding Value Set"; "Is Modifier?"; "Is Summary?"; "Profile"].

(** a row of the profile table with the cells that vary in the examples *)
Definition profile_row (id path : string) (slice short binding : cell)
  (profile : string) : list cell :=
  [Str id; Str path; slice; Str "Y"; short; NaN; NaN; NaN; NaN; NaN; NaN; binding;
   NaN; NaN; Str profile].

Definition all_profiles : DataFrame :=
  mkDataFrame profile_columns
    [ profile_row "Patient.gender" "Patient.gender" NaN (Str "Administrative gender")
        (Str url_gender) "us-core-patient";
      profile_row "Patient.extension:race" "Patient.extension" (Str "race")
        (Str "Race extension") NaN "us-core-patient";
      profile_row "Extension.extension:text.value[x]" "Extension.extension.value[x]"
        (Str "text") NaN (Str url_a) "us-core-race";
      profile_row "Extension.url" "Extension.url" NaN NaN NaN "us-core-race";
      profile_row "Observation.code" "Observation.code" NaN NaN NaN "us-core-observation" ].

Definition template_columns : list string :=
  ["variable name"; "title"; "short description"; "definition";
   "guidelines/instructions"; "notes"; "references"; "permissible values";
   "permissible value descriptions"].

Definition de_template : DataFrame :=
  mkDataFrame template_columns
    [[Str "example"; Str "Example"; NaN; NaN; NaN; NaN; NaN; NaN; NaN]].

(** a template that lacks the column [references] *)
Definition short_template : DataFrame :=
  mkDataFrame ["variable name"; "short description"; "definition";
               "guidelines/instructions"; "notes"; "permissible values";
               "permissible value descriptions"]
    [].

Definition files (template : DataFrame) : list (string * DataFrame) :=
  [("fhir_to_brics/templates/all-profiles.csv", all_profiles);
   ("fhir_to_brics/templates/ImportUDETemplate.csv", template)].

Definition site : World :=
  static_world
    [(url_a, Response 200 (dumps vs_a));
     (url_b, Response 200 (dumps vs_b));
     (url_gender, Response 200 (dumps vs_gender))]
    [vs_a; vs_b; vs_gender]
    (files de_template).

Definition site_short_template : World :=
  static_world
    [(url_a, Response 200 (dumps vs_a));
     (url_b, Response 200 (dumps vs_b));
     (url_gender, Response 200 (dumps vs_gender))]
    [vs_a; vs_b; vs_gender]
    (files short_template).

Definition gender_row : Series :=
  combine profile_columns
    (profile_row "Patient.gender" "Patient.gender" NaN (Str "Administrative gender")
       (Str url_gender) "us-core-patient").

Definition race_row : Series :=
  combine profile_columns
    (profile_row "Patient.extension:race" "Patient.extension" (Str "race")
       (Str "Race extension") NaN "us-core-patient").

(** the rows of the profile table whose Id starts with [Extension] *)
Definition extensions : DataFrame :=
  mkDataFrame profile_columns
    [ profile_row "Extension.extension:text.value[x]" "Extension.extension.value[x]"
        (Str "text") NaN (Str url_a) "us-core-race";
      profile_row "Extension.url" "Extension.url" NaN NaN NaN "us-core-race" ].

(** a row whose slice name ends with a colon *)
Definition colon_row : Series :=
  [("Path", Str "Patient.extension"); ("Slice Name", Str "race:")].

End Fixtures.

(* ------------------------------------------------------------------ *)
(** ** The rest of [utils.py], and what the further properties speak of *)

(** [initialize_brics_dataframe]: [pd.DataFrame(columns=de_template.columns)] *)
Definition initialize_brics_dataframe (de_template : DataFrame) : DataFrame :=
  mkDataFrame (columns de_template) [].

(** every record of a frame has one cell per column *)
Definition full_rows (df : DataFrame) : Prop :=
  Forall (fun r => List.length r = List.length (columns df)) (records df).


(** the headers of the one request [fetch_valueset] makes for a URI *)
Definition dispatch_headers (uri : string) (hd : option headers)
  (api_key : option string) : option headers :=
  match nlm_key uri api_key with
  | Some k => Some (authorization k)
  | None => hd
  end.

Definition error_status (status : Z) : bool := ((400 <=? status) && (status <? 600))%Z.

(** an answer that gives no value set: the request failed, the status is an
    error, or the body decodes to a value that Python takes for false *)
Definition no_value_set {Wd : World} (r : http_result) : Prop :=
  match r with
  | RequestFailed _ => True
  | Response status text =>
      error_status status = true
      \/ (exists v, json_loads text = Some v /\ Py.truthy v = false)
  end.

(** an answer that gives the value [v] *)
Definition answers {Wd : World} (r : http_result) (v : json) : Prop :=
  match r with
  | RequestFailed _ => False
  | Response status text => error_status status = false /\ json_loads text = Some v
  end.

(** neither a dict, nor a list, nor a string *)
Definition scalar (v : json) : Prop :=
  match v with
  | JNull | JBool _ | JNum _ => True
  | _ => False
  end.

(** the code and the display of a literal concept, [""] for one that is not
    there *)
Definition text_or_empty (o : outcome json) : string :=
  match o with
  | Ok (JStr x) => x
  | _ => ""
  end.

Definition literal_pair (concept : json) : string * string :=
  (text_or_empty (Py.get concept "code" (JStr "")),
   text_or_empty (Py.get concept "display" (JStr ""))).

Definition concepts_of (include : json) : list json :=
  match obind (Py.getitem include "concept") Py.iter with
  | Ok concepts => concepts
  | Raise _ => []
  end.

(** the headers a request of a run may carry, the caller having passed [hd]
    and [key]: none, those of the caller, or the NLM authorization, and this
    one only to a URI that holds the NLM domain *)
Definition expected_headers (hd : option headers) (key : option string) (e : event) : Prop :=
  match e with
  | EvHttpGet url h =>
      h = None \/ h = hd
      \/ exists k,
           key = Some k /\ k <> ""
           /\ Py.contains nlm_domain url = Ok true
           /\ h = Some (authorization k)
  | _ => True
  end.

(** what a fetch does with the answer to its one request *)
Definition fetch_outcome {Wd : World} (r : http_result) : outcome json :=
  match r with
  | RequestFailed _ => Ok JNull
  | Response status text =>
      if error_status status then Ok JNull
      else match json_loads text with
           | Some v => Ok v
           | None => Raise JSONDecodeError
           end
  end.

Definition server_of {Wd : World} {A} (r : outcome A * server * list event) : server :=
  snd (fst r).

(** a nested URI that never gives a value set, whatever the servers' state,
    when fetched with the headers and the key of the caller *)
Definition unreachable {Wd : World} (hd : option headers) (key : option string)
  (u : json) : Prop :=
  exists uri,
    u = JStr uri
    /\ forall s, no_value_set (fst (http_get s (JStr uri) (dispatch_headers uri hd key))).

(** an entry of [compose.include] without [concept] whose [valueSet] lists
    such URIs only *)
Definition dead_include {Wd : World} (hd : option headers) (key : option string)
  (include : json) : Prop :=
  exists uris,
    Py.contains "concept" include = Ok false
    /\ Py.contains "valueSet" include = Ok true
    /\ obind (Py.getitem include "valueSet") Py.iter = Ok uris
    /\ Forall (unreachable hd key) uris.

(** a value set whose first [include] entry has no [concept] and lists first,
    under [valueSet], a URI that is always answered with the value set itself,
    whatever the headers *)
Definition includes_itself {Wd : World} (valueset : json) : Prop :=
  exists compose includes include items uri uris,
    has_includes valueset = Ok true
    /\ Py.getitem valueset "compose" = Ok compose
    /\ Py.getitem compose "include" = Ok includes
    /\ Py.iter includes = Ok (include :: items)
    /\ Py.contains "concept" include = Ok false
    /\ Py.contains "valueSet" include = Ok true
    /\ obind (Py.getitem include "valueSet") Py.iter = Ok (JStr uri :: uris)
    /\ forall s h, answers (fst (http_get s (JStr uri) h)) valueset.

(** the files written among the events of a run *)
Fixpoint writes (t : list event) : list (string * DataFrame) :=
  match t with
  | [] => []
  | EvWriteCsv path df :: r => (path, df) :: writes r
  | _ :: r => writes r
  end.


(** a column on which pandas offers the [.str] accessor: one of a table
    without rows, or one that holds a string somewhere *)
Definition text_column (df : DataFrame) (label : string) : Prop :=
  records df = []
  \/ exists row, In row (Pd.iterrows df) /\ notna (cell_of row label) = true.

(** the rows [main] hands to [process_resource_rows]: the Profile starts with
    the one string and ends with the other *)
Definition selected (profile_startswith resource : string) (row : Series) : bool :=
  Pd.startswith_na_false profile_startswith (cell_of row "Profile")
  && Pd.endswith_na_false resource (cell_of row "Profile").

(** the fields a mapped row may have *)
Definition mapped_fields (mappings : list (string * colspec)) : list string :=
  "variable name" :: map fst mappings
    ++ ["permissible values"; "permissible value descriptions"].

Definition keys_within (allowed : list string) (d : Series) : Prop :=
  forall k, In k (map fst d) -> In k allowed.

Definition is_read (e : event) : bool :=
  match e with
  | EvReadCsv _ => true
  | _ => false
  end.

Definition is_request (e : event) : bool :=
  match e with
  | EvHttpGet _ _ => true
  | _ => false
  end.

(** the events of a run fall into a first part without requests and a second
    part without reads *)
Definition reads_then_requests {Wd : World} {A} (r : outcome A * server * list event)
  : Prop :=
  exists t1 t2,
    events_of r = t1 ++ t2
    /\ Forall (fun e => is_request e = false) t1
    /\ Forall (fun e => is_read e = false) t2.

(** a run that raised without having made a request *)
Definition stopped_offline {Wd : World} {A} (r : outcome A * server * list event) : Prop :=
  http_requests (events_of r) = [] /\ exists e, outcome_of r = Raise e.

(** a mapped row carries the variable name of a resource row *)
Definition named_after (row mapped : Series) : Prop :=
  exists name,
    create_variable_name row = Ok name /\ cell_of mapped "variable name" = Str name.


(** further worlds and tables for the examples *)
Module Cases.

Definition url_loop : string := "https://tx.example.org/ValueSet/loop".

(** a value set that includes itself *)
Definition vs_loop : json :=
  Fixtures.value_set [JObj [("valueSet", JArr [JStr url_loop])]].

Definition loop_web : World :=
  Fixtures.static_world [(url_loop, Response 200 (Fixtures.dumps vs_loop))] [vs_loop] [].

(** a server that answers with the JSON text [true] *)
Definition url_true : string := "https://tx.example.org/ValueSet/true".

Definition true_web : World :=
  Fixtures.static_world [(url_true, Response 200 (Fixtures.dumps (JBool true)))]
    [JBool true] [].

(** a value set without [compose] *)
Definition vs_expansion_only : json :=
  JObj [("resourceType", JStr "ValueSet"); ("expansion", JObj [("contains", JArr [])])].

(** literal concepts followed by a nested value set that cannot be reached *)
Definition vs_with_dead_link : json :=
  Fixtures.value_set
    [JObj [("concept", JArr [Fixtures.concept "male" "Male"])];
     JObj [("valueSet", JArr [JStr "https://tx.example.org/ValueSet/missing"])]].

(** an extension table with a row whose Profile is missing *)
Definition extensions_with_gap : DataFrame :=
  mkDataFrame Fixtures.profile_columns
    [ Fixtures.profile_row "Extension.extension:text.value[x]"
        "Extension.extension.value[x]" (Str "text") NaN NaN "us-core-race";
      [Str "Extension.id"; Str "Extension.id"; NaN; NaN; NaN; NaN; NaN; NaN; NaN; NaN;
       NaN; NaN; NaN; NaN; NaN] ].

(** a world with no files *)
Definition no_files : World := Fixtures.static_world [] [] [].


End Cases.

(* ================================================================== *)
(** * Properties *)

(* ------------------------------------------------------------------ *)
(** ** Strings *)

Lemma append_nil_r (s : string) : s +++ "" = s.
Proof. induction s as [|a s IH]; simpl; [reflexivity | now rewrite IH]. Qed.

Lemma append_assoc (a b c : string) : (a +++ b) +++ c = a +++ b +++ c.
Proof. induction a as [|x a IH]; simpl; [reflexivity | now rewrite IH]. Qed.

Lemma rstrip_fixed (c : ascii) (s : string) :
  last_is c s = false -> PyStr.rstrip c s = s.
Proof.
  induction s as [|a t IH]; simpl; [reflexivity|].
  destruct t as [|b t'].
  - simpl. intros ->. reflexivity.
  - intros H. rewrite (IH H). reflexivity.
Qed.

Lemma rstrip_snoc (c : ascii) (s : string) :
  PyStr.rstrip c (s +++ String c "") = PyStr.rstrip c s.
Proof.
  induction s as [|a t IH]; simpl.
  - now rewrite Ascii.eqb_refl.
  - now rewrite IH.
Qed.

Lemma last_is_append (c : ascii) (p x : string) :
  x <> "" -> last_is c (p +++ x) = last_is c x.
Proof.
  intros Hx. induction p as [|a t IH]; simpl; [reflexivity|].
  destruct (t +++ x) eqn:E.
  - destruct t; simpl in E; [contradiction | discriminate].
  - exact IH.
Qed.

Lemma rstrip_idempotent (c : ascii) (s : string) :
  last_is c (PyStr.rstrip c s) = false.
Proof.
  induction s as [|a t IH]; simpl; [reflexivity|].
  destruct (PyStr.rstrip c t) as [|b u] eqn:E.
  - destruct (Ascii.eqb a c) eqn:Ea; simpl; [reflexivity | exact Ea].
  - exact IH.
Qed.

(* ------------------------------------------------------------------ *)
(** ** Variable names *)

Lemma create_variable_name_eq (row : Series) (path sl : cell) :
  Pd.loc row "Path" = Ok path ->
  Pd.loc row "Slice Name" = Ok sl ->
  create_variable_name row =
    Ok (PyStr.rstrip colon
          (render path +++ ":" +++ match sl with Str x => x | NaN => "" end)).
Proof.
  intros Hp Hs. unfold create_variable_name. rewrite Hp, Hs. simpl.
  destruct sl; reflexivity.
Qed.

(* ------------------------------------------------------------------ *)
(** ** Composite text fields *)

Lemma loc_cell_of (row : Series) (label : string) :
  (exists v, Py.assoc label row = Some v) ->
  Pd.loc row label = Ok (cell_of row label).
Proof.
  intros [v Hv]. unfold Pd.loc, cell_of. now rewrite Hv.
Qed.

Lemma combine_parts_eq (row : Series) (prefix : string) (cols : list string) :
  forall parts,
    (forall c, In c cols -> exists v, Py.assoc c row = Some v) ->
    combine_parts row prefix cols parts =
      Ok (parts ++ map (part prefix row) (filter (fun c => notna (cell_of row c)) cols)).
Proof.
  induction cols as [|c cols IH]; intros parts Hin; simpl.
  - now rewrite app_nil_r.
  - rewrite (loc_cell_of row c (Hin c (or_introl eq_refl))). simpl.
    rewrite IH by (intros c' Hc'; apply Hin; now right).
    destruct (notna (cell_of row c)); simpl.
    + now rewrite <- app_assoc.
    + reflexivity.
Qed.

Lemma combine_values_eq (row : Series) (prefix : string) (values : list colspec) :
  forall parts,
    (forall c, In c (flat_map as_list values) -> exists v, Py.assoc c row = Some v) ->
    combine_values row prefix values parts =
      Ok (parts ++ map (part prefix row)
                     (filter (fun c => notna (cell_of row c)) (flat_map as_list values))).
Proof.
  induction values as [|v values IH]; intros parts Hin; simpl.
  - now rewrite app_nil_r.
  - rewrite combine_parts_eq by (intros c Hc; apply Hin; simpl; apply in_or_app; now left).
    simpl. rewrite IH by (intros c Hc; apply Hin; simpl; apply in_or_app; now right).
    now rewrite filter_app, map_app, app_assoc.
Qed.

(** C7: for every row that has the source columns of a target field, the
    composite value of the field is the join, by the separator, of
    [<prefix> <column>: <value>] over the source columns in configured order,
    the columns with a missing value left out. *)
Theorem combine_columns_into_string_spec (row : Series)
  (columns_dict : list (string * colspec)) (prefix sep : string) :
  (forall c, In c (flat_map as_list (map snd columns_dict)) ->
             exists v, Py.assoc c row = Some v) ->
  combine_columns_into_string row columns_dict prefix sep =
    Ok (PyStr.join sep
          (map (fun c => prefix +++ " " +++ c +++ ": " +++ render (cell_of row c))
             (filter (fun c => notna (cell_of row c))
                (flat_map as_list (map snd columns_dict))))).
Proof.
  intros Hin. unfold combine_columns_into_string.
  rewrite combine_values_eq by exact Hin. reflexivity.
Qed.

Lemma combine_columns_into_string_witness :
  combine_columns_into_string Fixtures.race_row
    [("short description", Columns ["Path"; "Slice Name"; "Must Support?"; "Short"]);
     ("references", OneColumn "Binding Value Set")]
    default_prefix default_sep
  = Ok "FHIR Path: Patient.extension | FHIR Slice Name: race | FHIR Must Support?: Y | FHIR Short: Race extension".
Proof.
  rewrite combine_columns_into_string_spec; [reflexivity|].
  intros c Hc. simpl in Hc.
  repeat (destruct Hc as [<-|Hc]; [eexists; reflexivity|]). contradiction.
Defined.

Example missing_values_are_skipped :
  combine_columns_into_string Fixtures.gender_row
    [("definition", Columns ["Definition"; "Comments"; "Requirements"])]
    default_prefix default_sep = Ok "".
Proof. reflexivity. Qed.

Example string_operations :
  PyStr.rstrip colon "Patient.name:" = "Patient.name"
  /\ PyStr.rstrip colon "a::b::" = "a::b"
  /\ PyStr.split pipe "a|b||c" = ["a"; "b"; ""; "c"]
  /\ PyStr.split pipe "" = [""]
  /\ PyStr.endswith "Extension.value[x]" ".value[x]" = true
  /\ PyStr.contains "cts.nlm.nih.gov" "https://cts.nlm.nih.gov/fhir" = true
  /\ Base64.b64encode "Man" = "TWFu"
  /\ Base64.b64encode "Ma" = "TWE="
  /\ Base64.b64encode "M" = "TQ=="
  /\ uri_host "https://cts.nlm.nih.gov/fhir/ValueSet/A" = "cts.nlm.nih.gov".
Proof. repeat split; reflexivity. Qed.

(* ------------------------------------------------------------------ *)
(** ** The monad *)

Section MonadFacts.
Context {Wd : World}.

Lemma bind_ok {A B} (m : M A) (f : A -> M B) s a s1 t1 :
  m s = (Ok a, s1, t1) ->
  bind m f s = (fst (fst (f a s1)), snd (fst (f a s1)), t1 ++ snd (f a s1)).
Proof.
  intros H. unfold bind. rewrite H. destruct (f a s1) as [[o s2] t2]. reflexivity.
Qed.

Lemma bind_raise {A B} (m : M A) (f : A -> M B) s e s1 t1 :
  m s = (Raise e, s1, t1) -> bind m f s = (Raise e, s1, t1).
Proof. intros H. unfold bind. now rewrite H. Qed.

Lemma bind_lift_ok {A B} (o : outcome A) (f : A -> M B) s a :
  o = Ok a -> bind (lift o) f s = f a s.
Proof.
  intros ->. unfold bind, lift, ret. destruct (f a s) as [[o s2] t2]. reflexivity.
Qed.

Lemma bind_lift_raise {A B} (o : outcome A) (f : A -> M B) s e :
  o = Raise e -> bind (lift o) f s = (Raise e, s, []).
Proof. intros ->. reflexivity. Qed.

Lemma bind_emit {B} (e : event) (f : unit -> M B) s :
  bind (emit e) f s = after_event e (f tt s).
Proof.
  unfold bind, emit, after_event. destruct (f tt s) as [[o s2] t2]. reflexivity.
Qed.

Lemma bind_ret {A B} (a : A) (f : A -> M B) s : bind (ret a) f s = f a s.
Proof. unfold bind, ret. destruct (f a s) as [[o s2] t2]. reflexivity. Qed.

Lemma http_requests_app (t1 t2 : list event) :
  http_requests (t1 ++ t2) = http_requests t1 ++ http_requests t2.
Proof.
  induction t1 as [|e t1 IH]; simpl; [reflexivity|].
  destruct e; simpl; now rewrite IH.
Qed.

End MonadFacts.

(* ------------------------------------------------------------------ *)
(** ** Fetching a value set *)

Section FetchFacts.
Context {Wd : World}.

(** A transport failure of [requests.get] is swallowed. *)
Lemma fetch_fhir_valueset_request_failed uri hd s msg s' :
  http_get s uri hd = (RequestFailed msg, s') ->
  outcome_of (fetch_fhir_valueset uri hd s) = Ok JNull.
Proof.
  intros H. unfold fetch_fhir_valueset, logging_info. rewrite bind_emit.
  unfold after_event, outcome_of, try_except_request, bind, requests_get. simpl.
  rewrite H. reflexivity.
Qed.

(** An error status is swallowed. *)
Lemma fetch_fhir_valueset_http_error uri hd s status text s' :
  http_get s uri hd = (Response status text, s') ->
  ((400 <=? status) && (status <? 600))%Z = true ->
  outcome_of (fetch_fhir_valueset uri hd s) = Ok JNull.
Proof.
  intros H Hst. unfold fetch_fhir_valueset, logging_info. rewrite bind_emit.
  unfold after_event, outcome_of, try_except_request, bind, requests_get,
    raise_for_status. simpl.
  rewrite H. simpl. rewrite Hst. reflexivity.
Qed.

(** A body that does not decode is not: [json.loads] raises the decoder's
    own exception, which the handler does not match. *)
Lemma fetch_fhir_valueset_decode_error uri hd s status text s' :
  http_get s uri hd = (Response status text, s') ->
  ((400 <=? status) && (status <? 600))%Z = false ->
  json_loads text = None ->
  outcome_of (fetch_fhir_valueset uri hd s) = Raise JSONDecodeError.
Proof.
  intros H Hst Hj. unfold fetch_fhir_valueset, logging_info. rewrite bind_emit.
  unfold after_event, outcome_of, try_except_request, bind, requests_get,
    raise_for_status, loads. simpl.
  rewrite H. simpl. rewrite Hst. simpl. rewrite Hj. reflexivity.
Qed.

Lemma fetch_nlm_valueset_decode_error uri key s status text s' :
  http_get s uri (Some (authorization key)) = (Response status text, s') ->
  ((400 <=? status) && (status <? 600))%Z = false ->
  json_loads text = None ->
  outcome_of (fetch_nlm_valueset uri key s) = Raise JSONDecodeError.
Proof.
  intros H Hst Hj. unfold fetch_nlm_valueset, logging_info. rewrite bind_emit.
  cbv zeta. fold (authorization key). revert H. generalize (authorization key).
  intros auth H. unfold headers in *.
  unfold after_event, outcome_of, try_except_request, bind, requests_get,
    raise_for_status, loads, emit. cbn.
  rewrite H. cbn. rewrite Hst. cbn. rewrite Hj. reflexivity.
Qed.

Lemma fetch_fhir_valueset_requests uri hd s :
  http_requests (events_of (fetch_fhir_valueset uri hd s)) = [(uri, hd)].
Proof.
  unfold fetch_fhir_valueset, logging_info. rewrite bind_emit.
  unfold after_event, events_of, try_except_request, bind, requests_get,
    raise_for_status, loads, logging_error, emit, ret, raise. simpl.
  destruct (http_get s uri hd) as [[msg|status text] s']; simpl; [reflexivity|].
  destruct ((400 <=? status) && (status <? 600))%Z; simpl; [reflexivity|].
  destruct (json_loads text); reflexivity.
Qed.

Lemma fetch_nlm_valueset_requests uri key s :
  http_requests (events_of (fetch_nlm_valueset uri key s)) =
    [(uri, Some (authorization key))].
Proof.
  unfold fetch_nlm_valueset, logging_info. rewrite bind_emit.
  cbv zeta. fold (authorization key). generalize (authorization key). intros auth.
  unfold headers in *.
  unfold after_event, events_of, try_except_request, bind, requests_get,
    raise_for_status, loads, logging_error, emit, ret, raise. cbn.
  destruct (http_get s uri (Some auth)) as [[msg|status text] s']; simpl; [reflexivity|].
  destruct ((400 <=? status) && (status <? 600))%Z; simpl; [reflexivity|].
  destruct (json_loads text); reflexivity.
Qed.

Lemma fetch_valueset_eq (uri : string) hd key s :
  fetch_valueset (JStr uri) hd key s =
    after_event (EvLog INFO "Fetching value set from URI: {}" [AJson (JStr uri)])
      (match nlm_key uri key with
       | Some k => fetch_nlm_valueset (JStr uri) k s
       | None => fetch_fhir_valueset (JStr uri) hd s
       end).
Proof.
  unfold fetch_valueset, logging_info. rewrite bind_emit. f_equal.
  rewrite bind_lift_ok with (a := PyStr.contains nlm_domain uri) by reflexivity.
  unfold nlm_key. destruct (PyStr.contains nlm_domain uri), key as [k|]; simpl;
    try reflexivity.
  destruct (PyStr.truthy k); reflexivity.
Qed.

Lemma fetch_valueset_requests (uri : string) hd key s :
  exists h, http_requests (events_of (fetch_valueset (JStr uri) hd key s)) = [(JStr uri, h)].
Proof.
  rewrite fetch_valueset_eq. unfold after_event, events_of. simpl.
  destruct (nlm_key uri key) as [k|]; eexists;
    [apply fetch_nlm_valueset_requests | apply fetch_fhir_valueset_requests].
Qed.

End FetchFacts.

(** C5, as the code has it: [fetch_valueset] takes the NLM fetch, a GET whose
    only header is the basic authorization built from the API key, exactly
    when the URI holds the text of the NLM domain and the API key is a
    non-empty string; otherwise it takes the generic fetch, a GET with the
    headers the caller passed, unchanged.  Either way exactly one request
    goes out. *)
Theorem fetch_valueset_dispatch {Wd : World} (uri : string) (hd : option headers)
  (key : option string) (s : server) :
  fetch_valueset (JStr uri) hd key s =
    after_event (EvLog INFO "Fetching value set from URI: {}" [AJson (JStr uri)])
      (match key with
       | Some k =>
           if PyStr.contains "cts.nlm.nih.gov" uri && negb (String.eqb k "")
           then fetch_nlm_valueset (JStr uri) k s
           else fetch_fhir_valueset (JStr uri) hd s
       | None => fetch_fhir_valueset (JStr uri) hd s
       end)
  /\ http_requests (events_of (fetch_valueset (JStr uri) hd key s)) =
       [(JStr uri,
         match key with
         | Some k =>
             if PyStr.contains "cts.nlm.nih.gov" uri && negb (String.eqb k "")
             then Some [("Authorization",
                         "Basic " +++ Base64.b64encode ("apikey:" +++ k))]
             else hd
         | None => hd
         end)].
Proof.
  rewrite fetch_valueset_eq. unfold nlm_key, nlm_domain, PyStr.truthy. split.
  - destruct key as [k|]; [|reflexivity].
    destruct (PyStr.contains "cts.nlm.nih.gov" uri && negb (String.eqb k "")); reflexivity.
  - unfold after_event. simpl.
    destruct key as [k|]; [|apply fetch_fhir_valueset_requests].
    destruct (PyStr.contains "cts.nlm.nih.gov" uri && negb (String.eqb k "")).
    + apply fetch_nlm_valueset_requests.
    + apply fetch_fhir_valueset_requests.
Qed.

(** Two inputs on which dispatch by host fails: an NLM URI with no API key
    goes out unauthenticated, and a URI on another host that mentions the NLM
    domain in its query goes out with the NLM credentials. *)
Lemma dispatch_by_host_fails : ~ @dispatch_by_host Fixtures.web.
Proof.
  intros H.
  destruct (H Fixtures.url_a (Some fhir_headers) None tt) as [h [E [Hnlm _]]].
  vm_compute in E. injection E as <-.
  destruct (Hnlm eq_refl) as [k Hk]. discriminate Hk.
Qed.

Example proxy_uri_gets_credentials :
  uri_host Fixtures.url_proxy = "tx.example.org"
  /\ http_requests (events_of (@fetch_valueset Fixtures.web (JStr Fixtures.url_proxy)
                                 (Some fhir_headers) (Some "secret") tt))
     = [(JStr Fixtures.url_proxy, Some (authorization "secret"))].
Proof. split; reflexivity. Qed.

(** C1, at a server that answers 200 with a body that is not JSON: both
    fetches raise the decoder's exception instead of returning [None]
    ([JNull]), and so do the dispatcher and the row loop above them. *)
Theorem decode_failure_escapes_fetch :
  outcome_of (@fetch_fhir_valueset Fixtures.web (JStr Fixtures.url_broken)
                (Some fhir_headers) tt) = Raise JSONDecodeError
  /\ outcome_of (@fetch_nlm_valueset Fixtures.web (JStr Fixtures.url_nlm_broken)
                   "secret" tt) = Raise JSONDecodeError
  /\ outcome_of (@fetch_valueset Fixtures.web (JStr Fixtures.url_broken)
                   (Some fhir_headers) None tt) = Raise JSONDecodeError
  /\ outcome_of (@process_resource_row Fixtures.web 5 Fixtures.all_profiles mappings
                   (Some fhir_headers) None []
                   (Pd.setitem Fixtures.gender_row "Binding Value Set"
                      (Str Fixtures.url_broken)) tt) = Raise JSONDecodeError.
Proof. repeat split; reflexivity. Qed.

Example http_failure_is_swallowed :
  outcome_of (@fetch_fhir_valueset Fixtures.web
                (JStr "https://tx.example.org/ValueSet/missing") None tt) = Ok JNull
  /\ outcome_of (@fetch_fhir_valueset Fixtures.web
                   (JStr "https://unreachable.example.org/") None tt) = Ok JNull.
Proof. split; reflexivity. Qed.

(* ------------------------------------------------------------------ *)
(** ** Entries of [compose.include] *)

Lemma lift_run {Wd : World} {A} (o : outcome A) (s : server) : lift o s = (o, s, []).
Proof. destruct o; reflexivity. Qed.

(** C9: an entry of [compose.include] that has both a [concept] list and a
    [valueSet] list contributes its literal concepts only: nothing is
    fetched, the servers are left as they were, and the result does not
    depend on the [valueSet] list. *)
Theorem concept_takes_priority {Wd : World}
  (self : json -> M (option string * option string)) (hd : option headers)
  (key : option string) (acc : list json * list json)
  (entry : list (string * json)) (concepts uris : json) (s : server) :
  Py.assoc "concept" entry = Some concepts ->
  Py.assoc "valueSet" entry = Some uris ->
  collect_include self hd key acc (JObj entry) s =
    (obind (Py.iter concepts) (fun cs => collect_concepts cs acc), s, []).
Proof.
  intros Hc _. unfold collect_include.
  rewrite bind_lift_ok with (a := true) by (simpl; now rewrite Hc).
  destruct (obind (Py.iter concepts) (fun cs => collect_concepts cs acc)) as [r|e] eqn:E.
  - destruct (Py.iter concepts) as [cs|e'] eqn:Ei; [|discriminate].
    rewrite bind_lift_ok with (a := cs) by (simpl; now rewrite Hc).
    simpl in E. rewrite E. reflexivity.
  - destruct (Py.iter concepts) as [cs|e'] eqn:Ei.
    + rewrite bind_lift_ok with (a := cs) by (simpl; now rewrite Hc).
      simpl in E. rewrite E. reflexivity.
    + simpl in E. injection E as <-.
      rewrite bind_lift_raise with (e := e') by (simpl; now rewrite Hc).
      reflexivity.
Qed.

Lemma concept_takes_priority_witness :
  @collect_include Fixtures.web
     (fun nested => parse_valueset_to_list 3 nested None None)
     (Some fhir_headers) (Some "secret") ([], [])
     (JObj [("concept", JArr [Fixtures.concept "male" "Male"]);
            ("valueSet", JArr [JStr Fixtures.url_a])]) tt
  = (Ok ([JStr "male"], [JStr "Male"]), tt, []).
Proof.
  rewrite (@concept_takes_priority Fixtures.web _ _ _ _ _
             (JArr [Fixtures.concept "male" "Male"]) (JArr [JStr Fixtures.url_a]));
    reflexivity.
Defined.

Example both_keys_parse :
  @parse_valueset_to_list Fixtures.web 3 Fixtures.vs_both (Some fhir_headers)
     (Some "secret") tt
  = (Ok (Some "male", Some "Male"), tt,
     [EvLog INFO "Parsing value set to extract permissible values and descriptions." []]).
Proof. reflexivity. Qed.

(* ------------------------------------------------------------------ *)
(** ** Tables *)

Section TableFacts.

Lemma assoc_combine_map {V} (f : string -> V) (cols : list string) (k : string) :
  Py.assoc k (combine cols (map f cols)) =
    if existsb (String.eqb k) cols then Some (f k) else None.
Proof.
  induction cols as [|c cols IH]; simpl; [reflexivity|].
  destruct (String.eqb k c) eqn:E; simpl.
  - apply String.eqb_eq in E. now subst.
  - exact IH.
Qed.

Lemma existsb_eqb_In (k : string) (l : list string) :
  existsb (String.eqb k) l = true <-> In k l.
Proof.
  rewrite existsb_exists. split.
  - intros [x [Hx E]]. apply String.eqb_eq in E. now subst.
  - intros H. exists k. split; [exact H | apply String.eqb_refl].
Qed.

Lemma assoc_None_not_key {V} (k : string) (d : list (string * V)) :
  Py.assoc k d = None <-> ~ In k (map fst d).
Proof.
  induction d as [|[k' v] d IH]; simpl.
  - tauto.
  - destruct (String.eqb k k') eqn:E.
    + apply String.eqb_eq in E. subst. split; [discriminate | intros H; exfalso; apply H; now left].
    + apply String.eqb_neq in E. rewrite IH. split.
      * intros H [H1|H1]; [now subst | contradiction].
      * intros H H1. apply H. now right.
Qed.

Lemma select_map {A B} (f : A -> B) (mask : list bool) (l : list A) :
  Pd.select mask (map f l) = map f (Pd.select mask l).
Proof.
  revert l. induction mask as [|b mask IH]; intros [|x l]; simpl; try reflexivity.
  destruct b; simpl; now rewrite IH.
Qed.

Lemma select_filter {A} (f : A -> bool) (l : list A) :
  Pd.select (map f l) l = filter f l.
Proof.
  induction l as [|x l IH]; simpl; [reflexivity|].
  destruct (f x); now rewrite IH.
Qed.

Lemma iterrows_filter_mask (df : DataFrame) (mask : list bool) :
  Pd.iterrows (Pd.filter_mask df mask) = Pd.select mask (Pd.iterrows df).
Proof. unfold Pd.iterrows, Pd.filter_mask. simpl. symmetry. apply select_map. Qed.

Lemma column_eq (df : DataFrame) (label : string) :
  In label (columns df) ->
  Pd.column df label = Ok (map (fun r => cell_of r label) (Pd.iterrows df)).
Proof.
  intros H. unfold Pd.column.
  destruct (existsb (String.eqb label) (columns df)) eqn:E.
  - reflexivity.
  - apply existsb_eqb_In in H. congruence.
Qed.


Lemma filter_filter {A} (f g : A -> bool) (l : list A) :
  filter g (filter f l) = filter (fun x => f x && g x) l.
Proof.
  induction l as [|x l IH]; simpl; [reflexivity|].
  destruct (f x); simpl; [destruct (g x); now rewrite IH | exact IH].
Qed.




Lemma cell_of_setitem_other (d : Series) (k k' : string) (v : cell) :
  k' <> k -> cell_of (Pd.setitem d k v) k' = cell_of d k'.
Proof.
  intros Hne. unfold cell_of. induction d as [|[k0 v0] d IH]; simpl.
  - destruct (String.eqb k' k) eqn:E; [apply String.eqb_eq in E; contradiction | reflexivity].
  - destruct (String.eqb k k0) eqn:E; simpl.
    + apply String.eqb_eq in E. subst k0.
      destruct (String.eqb k' k) eqn:E'; [apply String.eqb_eq in E'; contradiction | reflexivity].
    + destruct (String.eqb k' k0); [reflexivity | exact IH].
Qed.

End TableFacts.

(* ------------------------------------------------------------------ *)
(** ** Row mapping and extension expansion *)



Section RowFacts.
Context {Wd : World}.


Lemma bind_assoc {A B C} (m : M A) (f : A -> M B) (g : B -> M C) s :
  bind (bind m f) g s = bind m (fun a => bind (f a) g) s.
Proof.
  unfold bind. destruct (m s) as [[[a|e] s1] t1]; [|reflexivity].
  destruct (f a s1) as [[[b|e] s2] t2]; [|reflexivity].
  destruct (g b s2) as [[o s3] t3]. now rewrite app_assoc.
Qed.




Lemma bind_inv {A B} (m : M A) (f : A -> M B) s b s' t :
  bind m f s = (Ok b, s', t) ->
  exists a s1 t1 t2,
    m s = (Ok a, s1, t1) /\ f a s1 = (Ok b, s', t2) /\ t = t1 ++ t2.
Proof.
  unfold bind. destruct (m s) as [[[a|e] s1] t1]; [|discriminate].
  destruct (f a s1) as [[o s2] t2] eqn:E. intros H. injection H as -> -> <-.
  now exists a, s1, t1, t2.
Qed.

Lemma lift_inv {A} (o : outcome A) s a s' t :
  lift o s = (Ok a, s', t) -> o = Ok a /\ s' = s /\ t = [].
Proof.
  destruct o; simpl; unfold ret, raise; intros H; [|discriminate].
  injection H as -> -> <-. auto.
Qed.

Lemma ret_inv {A} (x : A) s a s' t :
  ret x s = (Ok a, s', t) -> a = x /\ s' = s /\ t = [].
Proof. unfold ret. intros H. injection H as -> -> <-. auto. Qed.

Lemma for_each_inv {A S} (P : S -> Prop) (l : list A) (body : S -> A -> M S) :
  (forall acc x s a s' t, In x l -> P acc -> body acc x s = (Ok a, s', t) -> P a) ->
  forall acc s r s' t, P acc -> for_each l acc body s = (Ok r, s', t) -> P r.
Proof.
  induction l as [|x l IH]; intros Hb acc s r s' t Hacc H; simpl in H.
  - apply ret_inv in H. destruct H as [-> _]. exact Hacc.
  - apply bind_inv in H. destruct H as [a [s1 [t1 [t2 [H1 [H2 _]]]]]].
    apply (IH (fun acc x s a s' t Hin => Hb acc x s a s' t (or_intror Hin)) a s1 r s' t2).
    + exact (Hb acc x s a s1 t1 (or_introl eq_refl) Hacc H1).
    + exact H2.
Qed.

Lemma resolve_binding_inv (depth : nat) (r new_row : Series) hd key s new_row' s' t :
  resolve_binding depth r new_row hd key s = (Ok new_row', s', t) ->
  new_row' = new_row
  \/ exists v d,
       new_row' = Pd.setitem (Pd.setitem new_row "permissible values" (Str v))
                    "permissible value descriptions" (Str d).
Proof.
  unfold resolve_binding. intros H.
  apply bind_inv in H. destruct H as [binding [s1 [t1 [t2 [_ [H _]]]]]].
  destruct binding as [|uri].
  - apply ret_inv in H. left. tauto.
  - apply bind_inv in H. destruct H as [valueset [s2 [t3 [t4 [_ [H _]]]]]].
    destruct (Py.truthy valueset).
    + apply bind_inv in H. destruct H as [[[v|] [d|]] [s3 [t5 [t6 [_ [H _]]]]]];
        try (apply ret_inv in H; left; tauto).
      destruct (PyStr.truthy v && PyStr.truthy d);
        apply ret_inv in H; destruct H as [-> _]; [right; eauto | now left].
    + apply ret_inv in H. left. tauto.
Qed.

Lemma map_fields_keeps (row : Series) (k : string) (ms : list (string * colspec)) :
  ~ In k (map fst ms) ->
  forall d d', map_fields row ms d = Ok d' -> cell_of d' k = cell_of d k.
Proof.
  induction ms as [|[b cols] ms IH]; intros Hk d d' H; simpl in H.
  - now injection H as <-.
  - destruct (combine_columns_into_string row [(b, cols)] default_prefix default_sep)
      as [v|e]; [|discriminate].
    simpl in H. rewrite (IH (fun Hin => Hk (or_intror Hin)) _ _ H).
    apply cell_of_setitem_other. intros ->. apply Hk. now left.
Qed.

Lemma process_extension_row_inv (depth : nat) (row : Series) (parent : string)
  hd key (ms : list (string * colspec)) (rows : list Series) (ext : Series)
  s rows' s' t :
  ~ In "variable name" (map fst ms) ->
  process_extension_row depth row parent hd key ms rows ext s = (Ok rows', s', t) ->
  exists new_row,
    rows' = rows ++ [new_row]
    /\ cell_of new_row "variable name" = Str (parent +++ "." +++ render (cell_of ext "Id")).
Proof.
  intros Hk H. unfold process_extension_row in H.
  apply bind_inv in H. destruct H as [id [s1 [t1 [t2 [Hid [H _]]]]]].
  apply lift_inv in Hid. destruct Hid as [Hid [-> _]].
  apply bind_inv in H. destruct H as [d1 [s2 [t3 [t4 [Hm [H _]]]]]].
  apply lift_inv in Hm. destruct Hm as [Hm [-> _]].
  apply bind_inv in H. destruct H as [d2 [s3 [t5 [t6 [Hr [H _]]]]]].
  apply ret_inv in H. destruct H as [-> _].
  exists d2. split; [reflexivity|].
  assert (Ecell : id = cell_of ext "Id").
  { unfold Pd.loc in Hid. unfold cell_of.
    destruct (Py.assoc "Id" ext); [now injection Hid | discriminate]. }
  assert (E1 : cell_of d1 "variable name" = Str (parent +++ "." +++ render id))
    by (eapply eq_trans; [eapply map_fields_keeps; eassumption | reflexivity]).
  apply resolve_binding_inv in Hr. destruct Hr as [->|[v [d ->]]].
  - now rewrite E1, Ecell.
  - rewrite !cell_of_setitem_other by discriminate. now rewrite E1, Ecell.
Qed.

End RowFacts.

Section RecordFacts.

Lemma add_labels_seen (d : Series) :
  forall seen k, In k seen -> In k (Pd.add_labels seen d).
Proof.
  induction d as [|[k' v] d IH]; intros seen k H; simpl; [exact H|].
  apply IH. destruct (existsb (String.eqb k') seen); [exact H|].
  apply in_or_app. now left.
Qed.

Lemma add_labels_keys (d : Series) :
  forall seen k, In k (map fst d) -> In k (Pd.add_labels seen d).
Proof.
  induction d as [|[k' v] d IH]; intros seen k H; simpl in *; [contradiction|].
  destruct H as [->|H]; [|now apply IH].
  apply add_labels_seen.
  destruct (existsb (String.eqb k) seen) eqn:E.
  - now apply existsb_eqb_In.
  - apply in_or_app. right. now left.
Qed.

Lemma union_labels_keys (ds : list Series) (d : Series) (k : string) :
  In d ds -> In k (map fst d) -> In k (Pd.union_labels ds).
Proof.
  unfold Pd.union_labels. generalize (@nil string).
  induction ds as [|d0 ds IH]; intros seen Hd Hk; simpl in *; [contradiction|].
  destruct Hd as [->|Hd].
  - assert (H : In k (Pd.add_labels seen d)) by now apply add_labels_keys.
    revert H. generalize (Pd.add_labels seen d). clear.
    induction ds as [|d1 ds IH]; intros seen H; simpl; [exact H|].
    apply IH. now apply add_labels_seen.
  - now apply IH.
Qed.

Lemma iterrows_from_records (ds : list Series) :
  Pd.iterrows (Pd.from_records ds) =
    map (fun d => combine (Pd.union_labels ds) (Pd.reindex (Pd.union_labels ds) d)) ds.
Proof. unfold Pd.iterrows, Pd.from_records. simpl. now rewrite map_map. Qed.

Lemma cell_of_reindex (cols : list string) (d : Series) (k : string) :
  (In k (map fst d) -> In k cols) ->
  cell_of (combine cols (Pd.reindex cols d)) k = cell_of d k.
Proof.
  intros H. unfold Pd.reindex.
  change (fun c => match Py.assoc c d with Some v => v | None => NaN end)
    with (cell_of d).
  unfold cell_of at 1. rewrite assoc_combine_map.
  destruct (existsb (String.eqb k) cols) eqn:E; [reflexivity|].
  unfold cell_of. destruct (Py.assoc k d) eqn:Ea; [|reflexivity].
  exfalso. assert (Hin : In k cols).
  { apply H. destruct (in_dec string_dec k (map fst d)) as [Hi|Hn]; [exact Hi|].
    apply assoc_None_not_key in Hn. congruence. }
  apply existsb_eqb_In in Hin. congruence.
Qed.

(** The rows of a frame built from dicts hold, label by label, what the
    dicts hold. *)
Lemma Forall_iterrows_from_records (ds : list Series) (Q : (string -> cell) -> Prop) :
  Forall (fun d => Q (cell_of d)) ds ->
  (forall f g, (forall k, f k = g k) -> Q f -> Q g) ->
  Forall (fun r => Q (cell_of r)) (Pd.iterrows (Pd.from_records ds)).
Proof.
  intros H Hext. rewrite iterrows_from_records. apply Forall_map.
  apply Forall_forall. intros d Hd.
  rewrite Forall_forall in H. apply (Hext (cell_of d)); [|now apply H].
  intros k. symmetry. apply cell_of_reindex. intros Hk.
  now apply union_labels_keys with (d := d).
Qed.

Lemma In_select {A} (mask : list bool) (l : list A) (x : A) :
  In x (Pd.select mask l) -> In x l.
Proof.
  revert l. induction mask as [|b mask IH]; intros [|y l] H; simpl in *;
    try contradiction.
  destruct b; [destruct H as [->|H]; [now left | right; now apply IH]
              | right; now apply IH].
Qed.

Lemma filter_object_mask_inv (df : DataFrame) (mask : list (option bool)) (df' : DataFrame) :
  Pd.filter_object_mask df mask = Ok df' ->
  exists m, df' = Pd.filter_mask df m.
Proof.
  unfold Pd.filter_object_mask. destruct (Pd.all_bool mask) as [m|]; [|discriminate].
  intros H. injection H as <-. now exists m.
Qed.

End RecordFacts.

(* ------------------------------------------------------------------ *)
(** ** Variable names of rows and of extension rows *)

Tactic Notation "inv_bind" hyp(H) "as" ident(a) ident(Ha) :=
  apply bind_inv in H;
  let s1 := fresh "s" in
  let t1 := fresh "t" in
  let t2 := fresh "t" in
  destruct H as [a [s1 [t1 [t2 [Ha [H _]]]]]].

(** A slice name that ends with a colon loses it. *)
Lemma variable_name_is_path_and_slice_fails : ~ variable_name_is_path_and_slice.
Proof.
  intros H. specialize (H Fixtures.colon_row "Patient.extension" eq_refl).
  vm_compute in H. discriminate H.
Qed.

(** C3, as the code has it: the variable name of a row is the text
    [Path:SliceName] (an absent slice name counting as empty) with every
    trailing colon stripped.  So it is Path, a colon and the slice name when
    the slice name is there, is not empty and does not end with a colon, and
    it is Path when the slice name is absent and Path does not end with a
    colon.  Every row that the extension expansion derives from the row, with
    mappings that do not themselves write the variable name, is named
    after the row's variable name, a dot and the Id of an extension row. *)
Theorem variable_name_derivation {Wd : World} (row : Series) (path sl : cell) :
  Pd.loc row "Path" = Ok path ->
  Pd.loc row "Slice Name" = Ok sl ->
  create_variable_name row =
    Ok (PyStr.rstrip colon
          (render path +++ ":" +++ match sl with Str x => x | NaN => "" end))
  /\ (forall x, sl = Str x -> x <> "" -> last_is colon x = false ->
        create_variable_name row = Ok (render path +++ ":" +++ x))
  /\ (sl = NaN ->
        create_variable_name row = Ok (PyStr.rstrip colon (render path))
        /\ (last_is colon (render path) = false ->
             create_variable_name row = Ok (render path)))
  /\ (forall depth exts hd key ms s df s' t,
        ~ In "variable name" (map fst ms) ->
        process_extension_rows depth row exts hd key ms s = (Ok df, s', t) ->
        exists parent,
          create_variable_name row = Ok parent
          /\ Forall (fun r => exists e,
                        In e (Pd.iterrows exts)
                        /\ cell_of r "variable name"
                           = Str (parent +++ "." +++ render (cell_of e "Id")))
               (Pd.iterrows df)).
Proof.
  intros Hp Hs. pose proof (create_variable_name_eq row Hp Hs) as E.
  split; [exact E|]. split; [|split].
  - intros x -> Hx Hl. rewrite E. f_equal. apply rstrip_fixed.
    rewrite last_is_append by discriminate.
    simpl. destruct x; [contradiction | exact Hl].
  - intros ->. rewrite E. simpl.
    assert (E2 : PyStr.rstrip colon (render path +++ ":") = PyStr.rstrip colon (render path))
      by apply rstrip_snoc.
    rewrite E2. split; [reflexivity|]. intros Hl. now rewrite rstrip_fixed.
  - intros depth exts hd key ms s df s' t Hk H. unfold process_extension_rows in H.
    inv_bind H as shown Hshown. inv_bind H as u Hlog. inv_bind H as slice_name Hslice.
    inv_bind H as parent Hparent.
    apply lift_inv in Hparent. destruct Hparent as [Hparent [-> _]].
    exists parent. split; [exact Hparent|].
    inv_bind H as profiles Hprofiles. inv_bind H as mask Hmask.
    inv_bind H as matching Hf1.
    apply lift_inv in Hf1. destruct Hf1 as [Hf1 [-> _]].
    apply filter_object_mask_inv in Hf1. destruct Hf1 as [m1 ->].
    inv_bind H as ids Hids. inv_bind H as matching Hf2.
    apply lift_inv in Hf2. destruct Hf2 as [Hf2 [-> _]].
    apply filter_object_mask_inv in Hf2. destruct Hf2 as [m2 ->].
    destruct (Pd.empty _).
    + inv_bind H as u' Hprint. apply ret_inv in H. destruct H as [-> _]. constructor.
    + inv_bind H as extension_rows Hloop. apply ret_inv in H. destruct H as [-> _].
      apply (@Forall_iterrows_from_records extension_rows
               (fun f => exists e, In e (Pd.iterrows exts)
                                   /\ f "variable name"
                                      = Str (parent +++ "." +++ render (cell_of e "Id")))).
      * eapply (for_each_inv
                  (fun acc => Forall (fun d => exists e, In e (Pd.iterrows exts)
                                /\ cell_of d "variable name"
                                   = Str (parent +++ "." +++ render (cell_of e "Id"))) acc));
          [| constructor | exact Hloop].
        intros acc x sx rx sx' tx Hin Hacc Hbody.
        apply process_extension_row_inv in Hbody; [|exact Hk].
        destruct Hbody as [new_row [-> Hname]].
        apply Forall_app. split; [exact Hacc|]. constructor; [|constructor].
        exists x. split; [|exact Hname].
        rewrite !iterrows_filter_mask in Hin.
        now apply In_select in Hin; apply In_select in Hin.
      * intros f g Hfg [e [He Hv]]. exists e. split; [exact He|]. now rewrite <- Hfg.
Qed.

Lemma variable_name_derivation_witness :
  create_variable_name Fixtures.race_row = Ok "Patient.extension:race"
  /\ create_variable_name Fixtures.gender_row = Ok "Patient.gender"
  /\ exists parent,
       create_variable_name Fixtures.race_row = Ok parent
       /\ Forall (fun r => exists e,
                     In e (Pd.iterrows Fixtures.extensions)
                     /\ cell_of r "variable name"
                        = Str (parent +++ "." +++ render (cell_of e "Id")))
            (Pd.iterrows
               (mkDataFrame
                  ["variable name"; "short description"; "definition";
                   "guidelines/instructions"; "notes"; "references";
                   "permissible values"; "permissible value descriptions"]
                  [[Str "Patient.extension:race.Extension.extension:text.value[x]";
                    Str "FHIR Path: Patient.extension | FHIR Slice Name: race | FHIR Must Support?: Y | FHIR Short: Race extension";
                    Str ""; Str ""; Str ""; Str ""; Str "UNK|ASKU|OTH";
                    Str "Unknown|Asked but unknown|"]])).
Proof.
  split; [|split].
  - destruct (@variable_name_derivation Fixtures.site Fixtures.race_row
                (Str "Patient.extension") (Str "race") eq_refl eq_refl)
      as [_ [H _]].
    apply (H "race" eq_refl); [discriminate | reflexivity].
  - destruct (@variable_name_derivation Fixtures.site Fixtures.gender_row
                (Str "Patient.gender") NaN eq_refl eq_refl)
      as [_ [_ [H _]]].
    destruct (H eq_refl) as [_ H']. apply H'. reflexivity.
  - destruct (@variable_name_derivation Fixtures.site Fixtures.race_row
                (Str "Patient.extension") (Str "race") eq_refl eq_refl)
      as [_ [_ [_ H]]].
    eapply (H 5 Fixtures.extensions (Some fhir_headers) None mappings tt).
    + simpl. intuition discriminate.
    + vm_compute. reflexivity.
Defined.

(* ------------------------------------------------------------------ *)
(** ** Extension expansion *)

(** What [resolve_binding] reads of a row is its Binding Value Set: with none
    the mapped row stays as it is and nothing is fetched; with one, the first
    request goes to that URI. *)
Lemma resolve_binding_nan {Wd : World} depth (r new_row : Series) hd key s :
  Pd.loc r "Binding Value Set" = Ok NaN ->
  resolve_binding depth r new_row hd key s = (Ok new_row, s, []).
Proof.
  intros H. unfold resolve_binding.
  rewrite bind_lift_ok with (a := NaN) by exact H. reflexivity.
Qed.

(** A fetch that fails on the wire leaves the row without permissible
    values, and the run goes on. *)
Lemma resolve_binding_request_failed {Wd : World} depth (r new_row : Series) hd s
  (uri msg : string) (s' : server) :
  Pd.loc r "Binding Value Set" = Ok (Str uri) ->
  http_get s (JStr uri) hd = (RequestFailed msg, s') ->
  outcome_of (resolve_binding depth r new_row hd None s) = Ok new_row.
Proof.
  intros H Hget. unfold resolve_binding.
  rewrite bind_lift_ok with (a := Str uri) by exact H.
  unfold outcome_of, bind. rewrite fetch_valueset_eq. simpl nlm_key. cbv iota.
  unfold after_event, fetch_fhir_valueset, logging_info, logging_error.
  rewrite bind_emit. unfold after_event, try_except_request, bind, requests_get.
  rewrite Hget. reflexivity.
Qed.

Lemma resolve_binding_first_request {Wd : World} depth (r new_row : Series) hd key s
  (uri : string) :
  Pd.loc r "Binding Value Set" = Ok (Str uri) ->
  exists h rest,
    http_requests (events_of (resolve_binding depth r new_row hd key s))
      = (JStr uri, h) :: rest.
Proof.
  intros H. unfold resolve_binding.
  rewrite bind_lift_ok with (a := Str uri) by exact H.
  pose proof (fetch_valueset_requests uri hd key s) as [h Hreq].
  unfold bind, events_of in *.
  destruct (fetch_valueset (JStr uri) hd key s) as [[[valueset|e] s1] t1]; simpl in *.
  - match goal with
    | |- context [let (_, _) := ?X in _] => destruct X as [[o s2] t2]
    end.
    simpl. rewrite http_requests_app, Hreq. simpl. eauto.
  - rewrite Hreq. eauto.
Qed.



Example no_matching_extension :
  @process_extension_rows Fixtures.site 5
     (Pd.setitem Fixtures.race_row "Slice Name" (Str "birthsex"))
     Fixtures.extensions (Some fhir_headers) None mappings tt
  = (Ok (mkDataFrame [] []), tt,
     [EvLog INFO "Processing extension rows for slice name: {}" [ACell (Str "birthsex")];
      EvPrint "No matching extensions found for slice name: {}" [ACell (Str "birthsex")]]).
Proof. reflexivity. Qed.

(* ------------------------------------------------------------------ *)
(** ** What a run emits *)

Section EmitFacts.
Context {Wd : World}.
Variable P : event -> Prop.

Lemma emits_ret {A} (a : A) : emits P (ret a).
Proof. intros s. constructor. Qed.

Lemma emits_raise {A} (e : exn) : emits P (@raise _ A e).
Proof. intros s. constructor. Qed.

Lemma emits_lift {A} (o : outcome A) : emits P (lift o).
Proof. destruct o; [apply emits_ret | apply emits_raise]. Qed.

Lemma emits_emit (e : event) : P e -> emits P (emit e).
Proof. intros H s. constructor; [exact H | constructor]. Qed.

Lemma emits_bind {A B} (m : M A) (f : A -> M B) :
  emits P m -> (forall a, emits P (f a)) -> emits P (bind m f).
Proof.
  intros Hm Hf s. specialize (Hm s). unfold events_of, bind in *.
  destruct (m s) as [[[a|e] s1] t1]; [|exact Hm].
  specialize (Hf a s1). unfold events_of in Hf.
  destruct (f a s1) as [[o s2] t2]. simpl in *. apply Forall_app. now split.
Qed.

(** the continuation only runs on the value the pure step gave *)
Lemma emits_bind_lift {A B} (o : outcome A) (f : A -> M B) :
  (forall a, o = Ok a -> emits P (f a)) -> emits P (bind (lift o) f).
Proof.
  intros Hf s. destruct o as [a|e].
  - rewrite bind_lift_ok with (a := a) by reflexivity. now apply Hf.
  - constructor.
Qed.

Lemma emits_for_each {A S} (l : list A) (body : S -> A -> M S) :
  (forall acc x, In x l -> emits P (body acc x)) ->
  forall acc, emits P (for_each l acc body).
Proof.
  induction l as [|x l IH]; intros Hb acc; simpl.
  - apply emits_ret.
  - apply emits_bind.
    + apply Hb. now left.
    + intros a. apply IH. intros acc' y Hy. apply Hb. now right.
Qed.

Lemma emits_try_except {A} (m : M A) (h : req_error -> M A) :
  emits P m -> (forall e, emits P (h e)) -> emits P (try_except_request m h).
Proof.
  intros Hm Hh s. specialize (Hm s). unfold events_of, try_except_request in *.
  destruct (m s) as [[[a|e] s1] t1]; [exact Hm|].
  destruct e; try exact Hm.
  specialize (Hh e s1). unfold events_of in Hh.
  destruct (h e s1) as [[o s2] t2]. simpl in *. apply Forall_app. now split.
Qed.

Lemma emits_requests_get (uri : json) (hd : option headers) :
  P (EvHttpGet uri hd) -> emits P (requests_get uri hd).
Proof.
  intros H s. unfold events_of, requests_get.
  destruct (http_get s uri hd) as [[msg|status text] s']; simpl;
    (constructor; [exact H | constructor]).
Qed.

Lemma emits_raise_for_status (status : Z) : emits P (raise_for_status status).
Proof.
  unfold raise_for_status. destruct (_ && _)%bool; [apply emits_raise | apply emits_ret].
Qed.

Lemma emits_loads (text : string) : emits P (loads text).
Proof. unfold loads. destruct (json_loads text); [apply emits_ret | apply emits_raise]. Qed.

End EmitFacts.

Lemma emits_weaken {Wd : World} {A} (P Q : event -> Prop) (m : M A) :
  (forall e, P e -> Q e) -> emits P m -> emits Q m.
Proof.
  intros H Hm s. specialize (Hm s). eapply Forall_impl; [exact H | exact Hm].
Qed.

(** Decompose a computation along its binds, loops and branches; what is
    left are the events themselves and the calls of named functions. *)
Ltac emits_steps :=
  repeat first
    [ apply emits_ret
    | apply emits_raise
    | apply emits_lift
    | apply emits_raise_for_status
    | apply emits_loads
    | apply emits_bind_lift; intros ? ?
    | apply emits_bind; [|intros ?]
    | apply emits_try_except; [|intros ?]
    | apply emits_for_each; intros ? ? ?
    | apply emits_emit
    | apply emits_requests_get
    | match goal with
      | |- emits _ (if ?b then _ else _) => destruct b
      | |- emits _ (match ?x with _ => _ end) => destruct x
      end ].

(* ------------------------------------------------------------------ *)
(** ** Which requests carry headers *)

Section RequestFacts.
Context {Wd : World}.

Lemma fetch_fhir_valueset_emits (P : event -> Prop) (uri : json) (hd : option headers) :
  (forall lvl template args, P (EvLog lvl template args)) ->
  P (EvHttpGet uri hd) ->
  emits P (fetch_fhir_valueset uri hd).
Proof.
  intros Hlog Hget. unfold fetch_fhir_valueset, logging_info, logging_error.
  emits_steps; auto.
Qed.

Lemma fetch_nlm_valueset_emits (P : event -> Prop) (uri : json) (k : string) :
  (forall lvl template args, P (EvLog lvl template args)) ->
  P (EvHttpGet uri (Some (authorization k))) ->
  emits P (fetch_nlm_valueset uri k).
Proof.
  intros Hlog Hget. unfold fetch_nlm_valueset, logging_info, logging_error.
  cbv zeta. fold (authorization k).
  emits_steps; auto.
Qed.

Lemma fetch_valueset_emits (P : event -> Prop) (uri : json) (hd : option headers)
  (key : option string) :
  (forall lvl template args, P (EvLog lvl template args)) ->
  (forall h, P (EvHttpGet uri h)) ->
  emits P (fetch_valueset uri hd key).
Proof.
  intros Hlog Hget. unfold fetch_valueset, logging_info.
  emits_steps; auto;
    first [ apply fetch_nlm_valueset_emits | apply fetch_fhir_valueset_emits ]; auto.
Qed.

(** without headers and without a key, the one request is bare *)
Lemma fetch_valueset_bare (uri : json) : emits bare_request (fetch_valueset uri None None).
Proof.
  unfold fetch_valueset, logging_info.
  emits_steps; simpl; auto; apply fetch_fhir_valueset_emits; simpl; auto.
Qed.

Lemma join_lists_emits (P : event -> Prop) (lists : list json * list json) :
  emits P (join_lists lists).
Proof. unfold join_lists. destruct lists as [[|x pv] [|y pd]]; emits_steps. Qed.

Lemma parse_valueset_to_list_bare (depth : nat) :
  forall nested, emits bare_request (parse_valueset_to_list depth nested None None).
Proof.
  induction depth as [|depth IH]; intros nested; simpl.
  - apply emits_raise.
  - unfold parse_body, collect_lists, logging_info.
    emits_steps; try apply join_lists_emits; simpl; auto.
Qed.

Lemma direct_uris_eq (valueset compose includes : json) (items : list json) :
  has_includes valueset = Ok true ->
  Py.getitem valueset "compose" = Ok compose ->
  Py.getitem compose "include" = Ok includes ->
  Py.iter includes = Ok items ->
  direct_uris valueset = flat_map include_uris items.
Proof.
  intros H1 H2 H3 H4. unfold direct_uris. rewrite H1, H2. simpl. rewrite H3. simpl.
  now rewrite H4.
Qed.

Lemma parse_body_direct (self : json -> M (option string * option string))
  (valueset : json) (hd : option headers) (key : option string) :
  (forall nested, emits bare_request (self nested)) ->
  emits (bare_or_direct valueset) (parse_body self valueset hd key).
Proof.
  intros Hself. unfold parse_body, logging_info.
  apply emits_bind; [apply emits_emit; exact I | intros _].
  apply emits_bind; [|intros lists; apply join_lists_emits].
  unfold collect_lists.
  apply emits_bind_lift. intros [|] Hhas; [|apply emits_ret].
  apply emits_bind_lift. intros compose Hc.
  apply emits_bind_lift. intros includes Hi.
  apply emits_bind_lift. intros items Hit.
  unfold bare_or_direct. rewrite (direct_uris_eq valueset Hhas Hc Hi Hit).
  apply emits_for_each. intros acc include Hin.
  unfold collect_include.
  apply emits_bind_lift. intros [|] Hcon.
  - emits_steps.
  - apply emits_bind_lift. intros [|] Hvs; [|apply emits_ret].
    apply emits_bind_lift. intros uris Huris.
    apply emits_for_each. intros acc' uri Huri.
    assert (Hdirect : In uri (flat_map include_uris items)).
    { apply in_flat_map. exists include. split; [exact Hin|].
      unfold include_uris. rewrite Hcon, Hvs, Huris. exact Huri. }
    unfold collect_nested.
    apply emits_bind.
    + apply fetch_valueset_emits; simpl; auto.
    + intros nested. destruct (Py.truthy nested); [|apply emits_ret].
      apply emits_bind.
      * eapply emits_weaken; [|apply Hself].
        intros [] H; simpl in *; auto.
      * intros r. emits_steps.
Qed.

End RequestFacts.

(** C10: the recursive call of [parse_valueset_to_list] is made without the
    headers and without the API key.  So whatever headers and key the caller
    gave, a request that carries any header (the Accept header or the NLM
    authorization) is for a URI that the value set at hand lists itself, and
    every request made from within a nested value set, at depth two or more,
    goes out with no headers at all, the NLM fetch never being taken there. *)
Theorem nested_fetches_carry_no_headers {Wd : World} (depth : nat) (valueset : json)
  (hd : option headers) (key : option string) (s : server) :
  parse_valueset_to_list (S depth) valueset hd key s =
    parse_body (fun nested => parse_valueset_to_list depth nested None None)
      valueset hd key s
  /\ (forall nested s',
        Forall bare_request
          (events_of (parse_valueset_to_list depth nested None None s')))
  /\ Forall (bare_or_direct valueset)
       (events_of (parse_valueset_to_list (S depth) valueset hd key s)).
Proof.
  split; [reflexivity|]. split.
  - intros nested s'. apply parse_valueset_to_list_bare.
  - simpl. apply parse_body_direct. intros nested. apply parse_valueset_to_list_bare.
Qed.

Example nested_nlm_uri_fetched_bare :
  http_requests (events_of (@parse_valueset_to_list Fixtures.web 5 Fixtures.vs_gender
                              (Some fhir_headers) (Some "secret") tt))
  = [(JStr Fixtures.url_a, Some (authorization "secret"));
     (JStr Fixtures.url_b, None)].
Proof. reflexivity. Qed.

(* ------------------------------------------------------------------ *)
(** ** Merging with the template *)

Section MergeFacts.

Lemma check_columns_ok (cols tcols : list string) :
  (forall c, In c cols -> In c tcols) -> check_columns cols tcols = Ok tt.
Proof.
  induction cols as [|c cols IH]; intros H; simpl; [reflexivity|].
  assert (E : existsb (String.eqb c) tcols = true)
    by (apply existsb_eqb_In; apply H; now left).
  rewrite E. apply IH. intros c' Hc'. apply H. now right.
Qed.


Lemma concat_columns (seen cols : list string) :
  (forall c, In c cols -> In c seen) ->
  fold_left (fun seen k => if existsb (String.eqb k) seen then seen else seen ++ [k])
    cols seen = seen.
Proof.
  induction cols as [|c cols IH]; intros H; simpl; [reflexivity|].
  assert (E : existsb (String.eqb c) seen = true)
    by (apply existsb_eqb_In; apply H; now left).
  rewrite E. apply IH. intros c' Hc'. apply H. now right.
Qed.

Lemma reindex_combine (cols : list string) :
  NoDup cols ->
  forall r, List.length r = List.length cols -> Pd.reindex cols (combine cols r) = r.
Proof.
  unfold Pd.reindex. induction 1 as [|c cols Hc Hnd IH]; intros [|v r] Hlen;
    simpl in *; try reflexivity; try discriminate.
  rewrite String.eqb_refl. f_equal.
  etransitivity; [|apply (IH r); now injection Hlen].
  apply map_ext_in. intros c' Hc'.
  destruct (String.eqb c' c) eqn:E; [|reflexivity].
  apply String.eqb_eq in E. subst. contradiction.
Qed.

Lemma concat_records (a b : DataFrame) :
  (forall c, In c (columns b) -> In c (columns a)) ->
  NoDup (columns a) ->
  Forall (fun r => List.length r = List.length (columns a)) (records a) ->
  Pd.concat a b =
    mkDataFrame (columns a)
      (records a ++ map (Pd.reindex (columns a)) (Pd.iterrows b)).
Proof.
  intros Hsub Hnd Hlen. unfold Pd.concat. rewrite concat_columns by exact Hsub.
  f_equal. rewrite map_app. f_equal.
  unfold Pd.iterrows. rewrite map_map.
  rewrite <- (map_id (records a)) at 2. apply map_ext_in. intros r Hr.
  rewrite Forall_forall in Hlen. apply reindex_combine; [exact Hnd | now apply Hlen].
Qed.

End MergeFacts.

Section WriteFacts.
Context {Wd : World}.

Lemma parse_valueset_to_list_emits (P : event -> Prop) :
  (forall lvl template args, P (EvLog lvl template args)) ->
  (forall url h, P (EvHttpGet url h)) ->
  forall depth valueset hd key, emits P (parse_valueset_to_list depth valueset hd key).
Proof.
  intros Hlog Hget. induction depth as [|depth IH]; intros valueset hd key; simpl.
  - apply emits_raise.
  - unfold parse_body, collect_lists, logging_info.
    emits_steps; try apply join_lists_emits; auto.
Qed.

Lemma resolve_binding_emits (P : event -> Prop) depth r new_row hd key :
  (forall lvl template args, P (EvLog lvl template args)) ->
  (forall url h, P (EvHttpGet url h)) ->
  emits P (resolve_binding depth r new_row hd key).
Proof.
  intros Hlog Hget. unfold resolve_binding.
  emits_steps; auto; apply parse_valueset_to_list_emits; auto.
Qed.

Lemma process_extension_rows_emits (P : event -> Prop) depth row exts hd key ms :
  (forall lvl template args, P (EvLog lvl template args)) ->
  (forall template args, P (EvPrint template args)) ->
  (forall url h, P (EvHttpGet url h)) ->
  emits P (process_extension_rows depth row exts hd key ms).
Proof.
  intros Hlog Hprint Hget. unfold process_extension_rows, logging_info, print.
  emits_steps; auto; apply parse_valueset_to_list_emits; auto.
Qed.

Lemma process_resource_rows_emits (P : event -> Prop) depth res exts tpl ms hd key :
  (forall lvl template args, P (EvLog lvl template args)) ->
  (forall template args, P (EvPrint template args)) ->
  (forall url h, P (EvHttpGet url h)) ->
  emits P (process_resource_rows depth res exts tpl ms hd key).
Proof.
  intros Hlog Hprint Hget. unfold process_resource_rows, logging_info.
  emits_steps; auto; apply parse_valueset_to_list_emits; auto.
Qed.





End WriteFacts.



Example mismatch_stops_main_before_output :
  outcome_of (@main Fixtures.site_short_template 5 "us-core" "patient" "Extension" None tt)
    = Raise (ValueError "Column references in df_mapped is not in de_template.")
  /\ filter is_write
       (events_of (@main Fixtures.site_short_template 5 "us-core" "patient" "Extension"
                     None tt)) = [].
Proof. split; reflexivity. Qed.

(* ------------------------------------------------------------------ *)
(** ** Splitting and joining at the pipe *)

Section PipeFacts.

Lemma split_not_nil (c : ascii) (x : string) : PyStr.split c x <> [].
Proof.
  destruct x as [|a t]; simpl; [discriminate|].
  destruct (Ascii.eqb a c); [discriminate|].
  destruct (PyStr.split c t); discriminate.
Qed.

Lemma split_app (c : ascii) (x y : string) :
  PyStr.split c (x +++ String c y) = PyStr.split c x ++ PyStr.split c y.
Proof.
  induction x as [|a t IH]; simpl.
  - now rewrite Ascii.eqb_refl.
  - destruct (Ascii.eqb a c); [now rewrite IH|].
    rewrite IH. destruct (PyStr.split c t) as [|h r] eqn:E; [|reflexivity].
    now apply split_not_nil in E.
Qed.

Lemma split_no_sep (c : ascii) (x : string) :
  PyStr.has_char c x = false -> PyStr.split c x = [x].
Proof.
  induction x as [|a t IH]; simpl; [reflexivity|].
  intros H. apply orb_false_iff in H. destruct H as [Ha Ht].
  rewrite Ha, (IH Ht). reflexivity.
Qed.

Lemma split_pieces_no_sep (c : ascii) (x : string) :
  Forall (fun y => PyStr.has_char c y = false) (PyStr.split c x).
Proof.
  induction x as [|a t IH]; simpl.
  - repeat constructor.
  - destruct (Ascii.eqb a c) eqn:E.
    + constructor; [reflexivity | exact IH].
    + destruct (PyStr.split c t) as [|h r]; [repeat constructor; simpl; now rewrite E|].
      inversion IH; subst. constructor; [simpl; now rewrite E | assumption].
Qed.

Lemma join_cons2 (sep x y : string) (l : list string) :
  PyStr.join sep (x :: y :: l) = x +++ sep +++ PyStr.join sep (y :: l).
Proof. reflexivity. Qed.

Lemma split_join (l : list string) :
  l <> [] -> PyStr.split pipe (PyStr.join "|" l) = List.concat (map (PyStr.split pipe) l).
Proof.
  induction l as [|x l IH]; intros H; [contradiction|].
  destruct l as [|y l].
  - simpl. now rewrite app_nil_r.
  - rewrite join_cons2.
    change ("|" +++ PyStr.join "|" (y :: l)) with (String pipe (PyStr.join "|" (y :: l))).
    rewrite split_app, IH by discriminate. reflexivity.
Qed.

Lemma concat_split_no_sep (l : list string) :
  Forall (fun y => PyStr.has_char pipe y = false) l ->
  List.concat (map (PyStr.split pipe) l) = l.
Proof.
  induction 1 as [|x l Hx _ IH]; simpl; [reflexivity|].
  now rewrite (split_no_sep _ _ Hx), IH.
Qed.

(** what was joined comes back when no item holds a pipe *)
Lemma split_join_no_pipe (l : list string) :
  l <> [] -> Forall no_pipe l -> PyStr.split pipe (PyStr.join "|" l) = l.
Proof.
  intros Hne H. rewrite split_join by exact Hne. now apply concat_split_no_sep.
Qed.

Lemma join_split (x : string) : PyStr.join "|" (PyStr.split pipe x) = x.
Proof.
  induction x as [|a t IH]; simpl; [reflexivity|].
  destruct (Ascii.eqb a pipe) eqn:E.
  - apply Ascii.eqb_eq in E. subst a.
    destruct (PyStr.split pipe t) as [|h r] eqn:Es; [now apply split_not_nil in Es|].
    rewrite join_cons2. simpl. f_equal. exact IH.
  - destruct (PyStr.split pipe t) as [|h r] eqn:Es; [now apply split_not_nil in Es|].
    destruct r as [|h' r'].
    + simpl in *. now rewrite IH.
    + rewrite join_cons2 in *. simpl. f_equal. exact IH.
Qed.

Lemma join_concat_split (l : list string) :
  l <> [] -> PyStr.join "|" (List.concat (map (PyStr.split pipe) l)) = PyStr.join "|" l.
Proof.
  intros H. rewrite <- split_join by exact H. apply join_split.
Qed.

Lemma split_split (x : string) :
  List.concat (map (PyStr.split pipe) (PyStr.split pipe x)) = PyStr.split pipe x.
Proof. apply concat_split_no_sep. apply split_pieces_no_sep. Qed.

Lemma truthy_join2 (x y : string) (l : list string) :
  PyStr.truthy (PyStr.join "|" (x :: y :: l)) = true.
Proof. rewrite join_cons2. destruct x; reflexivity. Qed.

End PipeFacts.

(* ------------------------------------------------------------------ *)
(** ** Lockstep runs *)

Section SimFacts.
Context {Wd : World}.

Lemma sim_ret {A B} (R : A -> B -> Prop) (a : A) (b : B) : R a b -> sim R (ret a) (ret b).
Proof. intros H s. simpl. auto. Qed.

Lemma sim_lift {A B} (R : A -> B -> Prop) (o1 : outcome A) (o2 : outcome B) :
  osim R o1 o2 -> sim R (lift o1) (lift o2).
Proof.
  intros H s. destruct o1, o2; simpl in *; try contradiction; auto.
Qed.

Lemma sim_bind {A B A' B'} (R : A -> B -> Prop) (R' : A' -> B' -> Prop)
  (m1 : M A) (m2 : M B) (f : A -> M A') (g : B -> M B') :
  sim R m1 m2 -> (forall a b, R a b -> sim R' (f a) (g b)) ->
  sim R' (bind m1 f) (bind m2 g).
Proof.
  intros Hm Hf s. specialize (Hm s). unfold bind.
  destruct (m1 s) as [[[a|e1] s1] t1], (m2 s) as [[[b|e2] s2] t2]; try contradiction.
  - destruct Hm as [Hab [<- <-]]. specialize (Hf a b Hab s1).
    destruct (f a s1) as [[[a'|e1] s1'] t1'], (g b s1) as [[[b'|e2] s2'] t2'];
      try contradiction.
    + destruct Hf as [H [<- <-]]. auto.
    + destruct Hf as [<- [<- <-]]. auto.
  - exact Hm.
Qed.

Lemma sim_bind_same {A A' B'} (R' : A' -> B' -> Prop) (m : M A)
  (f : A -> M A') (g : A -> M B') :
  (forall a, sim R' (f a) (g a)) -> sim R' (bind m f) (bind m g).
Proof.
  intros Hf. apply sim_bind with (R := eq).
  - intros s. destruct (m s) as [[[a|e] s1] t1]; auto.
  - intros a b <-. apply Hf.
Qed.

Lemma sim_for_each {A S1 S2} (R : S1 -> S2 -> Prop) (l : list A)
  (body1 : S1 -> A -> M S1) (body2 : S2 -> A -> M S2) :
  (forall acc1 acc2 x, R acc1 acc2 -> sim R (body1 acc1 x) (body2 acc2 x)) ->
  forall acc1 acc2, R acc1 acc2 -> sim R (for_each l acc1 body1) (for_each l acc2 body2).
Proof.
  intros Hb. induction l as [|x l IH]; intros acc1 acc2 Hacc; simpl.
  - now apply sim_ret.
  - apply sim_bind with (R := R); [now apply Hb | exact IH].
Qed.

End SimFacts.

(* ------------------------------------------------------------------ *)
(** ** The two lists and the pair list *)

Section ListFacts.

Lemma pieces_not_nil (v : json) : pieces v <> [].
Proof.
  destruct v; simpl; try discriminate.
  intros H. apply map_eq_nil in H. now apply split_not_nil in H.
Qed.

Lemma flat_pieces_nil (l : list json) : flat_map pieces l = [] -> l = [].
Proof.
  destruct l as [|v l]; [reflexivity|]. simpl. intros H.
  apply app_eq_nil in H. destruct H as [H _]. now apply pieces_not_nil in H.
Qed.

Lemma flat_pieces_text (l : list string) :
  flat_map pieces (map JStr l) = map JStr (List.concat (map (PyStr.split pipe) l)).
Proof.
  induction l as [|x l IH]; simpl; [reflexivity|].
  now rewrite IH, map_app.
Qed.

Lemma flat_pieces_split_join (l : list string) :
  l <> [] ->
  flat_map pieces (map JStr (PyStr.split pipe (PyStr.join "|" l)))
    = flat_map pieces (map JStr l).
Proof.
  intros H. rewrite !flat_pieces_text, split_split, split_join by exact H.
  reflexivity.
Qed.

Lemma text_pieces (v : json) : Forall is_text (pieces v) <-> is_text v.
Proof.
  destruct v; simpl; split; intros H;
    try (now inversion H); try (constructor; [exact H | constructor]).
  - now exists s.
  - apply Forall_map. apply Forall_forall. intros x _. now exists x.
Qed.

Lemma text_flat_pieces (l : list json) :
  Forall is_text (flat_map pieces l) <-> Forall is_text l.
Proof.
  induction l as [|v l IH]; simpl; [tauto|].
  rewrite Forall_app, IH, text_pieces. split.
  - intros [H1 H2]. now constructor.
  - intros H. inversion H; subst. now split.
Qed.

Lemma strings_cases (l : list json) :
  (exists lv, l = map JStr lv /\ Py.strings l = Ok lv)
  \/ (Py.strings l = Raise TypeError /\ ~ Forall is_text l).
Proof.
  induction l as [|v l IH]; simpl.
  - left. now exists [].
  - assert (Hbad : ~ is_text v -> ~ Forall is_text (v :: l))
      by (intros Hn H; inversion H; subst; contradiction).
    destruct v; try (right; split; [reflexivity|];
                     apply Hbad; intros [x Hx]; discriminate).
    destruct IH as [[lv [-> E]]|[E Hn]].
    + left. exists (s :: lv). simpl. now rewrite E.
    + right. rewrite E. split; [reflexivity|].
      intros H. inversion H; subst. contradiction.
Qed.

Lemma string_pairs_cases (acc : list (json * json)) :
  (exists ps, acc = map jpair ps /\ string_pairs acc = Ok ps)
  \/ (string_pairs acc = Raise TypeError
      /\ (~ Forall is_text (map fst acc) \/ ~ Forall is_text (map snd acc))).
Proof.
  induction acc as [|[c d] acc IH]; simpl.
  - left. now exists [].
  - assert (Hc : ~ is_text c -> ~ Forall is_text (c :: map fst acc))
      by (intros Hn H; inversion H; subst; contradiction).
    assert (Hd : ~ is_text d -> ~ Forall is_text (d :: map snd acc))
      by (intros Hn H; inversion H; subst; contradiction).
    destruct c; try (right; split; [reflexivity|]; left;
                     apply Hc; intros [x Hx]; discriminate).
    destruct d; try (right; split; [reflexivity|]; right;
                     apply Hd; intros [x Hx]; discriminate).
    destruct IH as [[ps [-> E]]|[E Hn]].
    + left. exists ((s, s0) :: ps). simpl. now rewrite E.
    + right. rewrite E. split; [reflexivity|].
      destruct Hn as [Hn|Hn]; [left|right]; intros H; inversion H; subst; contradiction.
Qed.

Lemma text_map_JStr (l : list string) : Forall is_text (map JStr l).
Proof. apply Forall_map. apply Forall_forall. intros x _. now exists x. Qed.

Lemma map_JStr_inj (l1 l2 : list string) : map JStr l1 = map JStr l2 -> l1 = l2.
Proof.
  revert l2. induction l1 as [|x l1 IH]; intros [|y l2] H; simpl in *;
    try discriminate; [reflexivity|].
  injection H as -> H. f_equal. now apply IH.
Qed.

(** two string lists that agree piece by piece join to the same string *)
Lemma join_of_pieces (l1 l2 : list string) :
  l1 <> [] -> l2 <> [] ->
  flat_map pieces (map JStr l1) = flat_map pieces (map JStr l2) ->
  PyStr.join "|" l1 = PyStr.join "|" l2.
Proof.
  intros H1 H2 H. rewrite !flat_pieces_text in H. apply map_JStr_inj in H.
  rewrite <- (join_concat_split H1), <- (join_concat_split H2). now rewrite H.
Qed.

Lemma map_fst_jpair (ps : list (string * string)) :
  map fst (map jpair ps) = map JStr (map fst ps).
Proof. rewrite !map_map. reflexivity. Qed.

Lemma map_snd_jpair (ps : list (string * string)) :
  map snd (map jpair ps) = map JStr (map snd ps).
Proof. rewrite !map_map. reflexivity. Qed.

Lemma stands_for_nil : stands_for ([], []) [].
Proof. split; reflexivity. Qed.

Lemma stands_for_snoc (lists : list json * list json) (acc : list (json * json))
  (code display : json) :
  stands_for lists acc ->
  stands_for (fst lists ++ [code], snd lists ++ [display]) (acc ++ [(code, display)]).
Proof.
  intros [H1 H2]. unfold stands_for. simpl.
  rewrite !map_app, !flat_map_app, H1, H2. simpl. tauto.
Qed.

Lemma collect_concepts_stands (concepts : list json) :
  forall lists acc,
    stands_for lists acc ->
    osim stands_for (collect_concepts concepts lists) (concept_pairs concepts acc).
Proof.
  induction concepts as [|c concepts IH]; intros lists acc H; simpl; [exact H|].
  destruct (Py.get c "code" (JStr "")) as [code|e]; simpl; [|reflexivity].
  destruct (Py.get c "display" (JStr "")) as [display|e]; simpl; [|reflexivity].
  apply IH. now apply stands_for_snoc.
Qed.

Lemma spliced_truthy (ps : list (string * string)) :
  ps <> [] ->
  PyStr.truthy (PyStr.join "|" (map fst ps)) && PyStr.truthy (PyStr.join "|" (map snd ps))
    = spliced ps.
Proof.
  destruct ps as [|[c d] [|q ps]]; intros H; [contradiction | reflexivity|].
  simpl map. now rewrite !truthy_join2.
Qed.

Lemma stands_for_splice (lists : list json * list json) (acc : list (json * json))
  (ps : list (string * string)) :
  ps <> [] ->
  stands_for lists acc ->
  stands_for
    (fst lists ++ map JStr (PyStr.split pipe (PyStr.join "|" (map fst ps))),
     snd lists ++ map JStr (PyStr.split pipe (PyStr.join "|" (map snd ps))))
    (acc ++ map jpair ps).
Proof.
  intros Hne [H1 H2]. unfold stands_for. simpl.
  assert (Hf : map fst ps <> []) by (destruct ps; [contradiction | discriminate]).
  assert (Hs : map snd ps <> []) by (destruct ps; [contradiction | discriminate]).
  rewrite !map_app, !flat_map_app, H1, H2, map_fst_jpair, map_snd_jpair.
  rewrite (flat_pieces_split_join Hf), (flat_pieces_split_join Hs). tauto.
Qed.

End ListFacts.

(* ------------------------------------------------------------------ *)
(** ** The resolver against its reading on pairs *)

Section RefinementFacts.
Context {Wd : World}.

Lemma join_lists_text (x y : json) (pv pd : list json) (s : server) :
  join_lists (x :: pv, y :: pd) s =
    (obind (Py.join "|" (x :: pv)) (fun values =>
     obind (Py.join "|" (y :: pd)) (fun descriptions =>
     Ok (Some values, Some descriptions))), s, []).
Proof.
  unfold join_lists.
  destruct (Py.join "|" (x :: pv)) as [v|e] eqn:E1.
  - rewrite bind_lift_ok with (a := v) by reflexivity.
    destruct (Py.join "|" (y :: pd)) as [d|e] eqn:E2.
    + rewrite bind_lift_ok with (a := d) by reflexivity. reflexivity.
    + rewrite bind_lift_raise with (e := e) by reflexivity. reflexivity.
  - rewrite bind_lift_raise with (e := e) by reflexivity. reflexivity.
Qed.

Lemma join_lists_stands (lists : list json * list json) (acc : list (json * json)) :
  stands_for lists acc ->
  sim (fun r ps => r = pipe_joined ps) (join_lists lists) (lift (string_pairs acc)).
Proof.
  destruct lists as [pv pd]. intros [H1 H2] s. simpl in H1, H2.
  destruct acc as [|p acc].
  - apply flat_pieces_nil in H1. apply flat_pieces_nil in H2. subst. simpl. auto.
  - assert (Hpv : pv <> []).
    { intros ->. symmetry in H1. apply flat_pieces_nil in H1. discriminate. }
    assert (Hpd : pd <> []).
    { intros ->. symmetry in H2. apply flat_pieces_nil in H2. discriminate. }
    destruct pv as [|x pv]; [contradiction|]. destruct pd as [|y pd]; [contradiction|].
    rewrite join_lists_text, lift_run. unfold Py.join.
    destruct (strings_cases (x :: pv)) as [[lv [Elv Sv]]|[Sv Nv]];
      destruct (strings_cases (y :: pd)) as [[ld [Eld Sd]]|[Sd Nd]];
      destruct (string_pairs_cases (p :: acc)) as [[ps [Eps Sp]]|[Sp Np]];
      rewrite Sv, ?Sd, Sp; simpl.
    + (* every item is a string *)
      split; [|auto]. rewrite Elv, Eps, map_fst_jpair in H1.
      rewrite Eld, Eps, map_snd_jpair in H2.
      assert (Hps : ps <> []) by (destruct ps; [discriminate Eps | discriminate]).
      assert (Hlv : lv <> []) by (destruct lv; [discriminate Elv | discriminate]).
      assert (Hld : ld <> []) by (destruct ld; [discriminate Eld | discriminate]).
      rewrite (join_of_pieces Hlv (l2 := map fst ps)), (join_of_pieces Hld (l2 := map snd ps));
        try assumption; try (destruct ps; [contradiction | discriminate]).
      destruct ps; [contradiction | reflexivity].
    + exfalso. destruct Np as [Np|Np]; apply Np.
      * apply text_flat_pieces. rewrite <- H1, Elv. apply text_flat_pieces, text_map_JStr.
      * apply text_flat_pieces. rewrite <- H2, Eld. apply text_flat_pieces, text_map_JStr.
    + exfalso. apply Nd. apply text_flat_pieces. rewrite H2, Eps, map_snd_jpair.
      apply text_flat_pieces, text_map_JStr.
    + auto.
    + exfalso. apply Nv. apply text_flat_pieces. rewrite H1, Eps, map_fst_jpair.
      apply text_flat_pieces, text_map_JStr.
    + auto.
    + exfalso. apply Nv. apply text_flat_pieces. rewrite H1, Eps, map_fst_jpair.
      apply text_flat_pieces, text_map_JStr.
    + auto.
Qed.

Section Step.
Variable self1 : json -> M (option string * option string).
Variable self2 : json -> M (list (string * string)).
Hypothesis self_sim : forall nested, sim (fun r ps => r = pipe_joined ps) (self1 nested) (self2 nested).

Lemma collect_nested_sim (hd : option headers) (key : option string)
  (lists : list json * list json) (acc : list (json * json)) (uri : json) :
  stands_for lists acc ->
  sim stands_for (collect_nested self1 hd key lists uri) (nested_pairs self2 hd key acc uri).
Proof.
  intros H. unfold collect_nested, nested_pairs.
  apply sim_bind_same. intros nested.
  destruct (Py.truthy nested); [|now apply sim_ret].
  eapply sim_bind; [apply self_sim|].
  intros r ps ->. destruct ps as [|p ps].
  - simpl. now apply sim_ret.
  - assert (Hne : p :: ps <> []) by discriminate.
    unfold pipe_joined. rewrite (spliced_truthy Hne).
    destruct (spliced (p :: ps)); apply sim_ret; [|exact H].
    now apply stands_for_splice.
Qed.

Lemma collect_include_sim (hd : option headers) (key : option string)
  (lists : list json * list json) (acc : list (json * json)) (include : json) :
  stands_for lists acc ->
  sim stands_for (collect_include self1 hd key lists include)
    (include_pairs self2 hd key acc include).
Proof.
  intros H. unfold collect_include, include_pairs.
  apply sim_bind_same. intros [|].
  - apply sim_bind_same. intros concepts. apply sim_lift.
    now apply collect_concepts_stands.
  - apply sim_bind_same. intros [|]; [|now apply sim_ret].
    apply sim_bind_same. intros uris.
    apply sim_for_each; [|exact H].
    intros acc1 acc2 uri Hacc. now apply collect_nested_sim.
Qed.

Lemma collect_lists_sim (valueset : json) (hd : option headers) (key : option string) :
  sim stands_for (collect_lists self1 valueset hd key) (all_pairs self2 valueset hd key).
Proof.
  unfold collect_lists, all_pairs.
  apply sim_bind_same. intros [|]; [|apply sim_ret; apply stands_for_nil].
  apply sim_bind_same. intros compose.
  apply sim_bind_same. intros includes.
  apply sim_bind_same. intros items.
  apply sim_for_each; [|apply stands_for_nil].
  intros acc1 acc2 include Hacc. now apply collect_include_sim.
Qed.

Lemma parse_body_sim (valueset : json) (hd : option headers) (key : option string) :
  sim (fun r ps => r = pipe_joined ps)
    (parse_body self1 valueset hd key) (flatten_body self2 valueset hd key).
Proof.
  unfold parse_body, flatten_body.
  apply sim_bind_same. intros _.
  eapply sim_bind; [apply collect_lists_sim|].
  intros lists acc H. now apply join_lists_stands.
Qed.

End Step.

Lemma parse_valueset_to_list_sim (depth : nat) :
  forall valueset hd key,
    sim (fun r ps => r = pipe_joined ps)
      (parse_valueset_to_list depth valueset hd key)
      (flatten_pairs depth valueset hd key).
Proof.
  induction depth as [|depth IH]; intros valueset hd key; simpl.
  - intros s. simpl. auto.
  - apply parse_body_sim. intros nested. apply IH.
Qed.

Lemma parse_valueset_to_list_flatten (depth : nat) (valueset : json)
  (hd : option headers) (key : option string) (s : server) :
  parse_valueset_to_list depth valueset hd key s =
    bind (flatten_pairs depth valueset hd key) (fun ps => ret (pipe_joined ps)) s.
Proof.
  pose proof (parse_valueset_to_list_sim depth valueset hd key s) as H.
  unfold bind, ret.
  destruct (parse_valueset_to_list depth valueset hd key s) as [[[r|e1] s1] t1],
           (flatten_pairs depth valueset hd key s) as [[[ps|e2] s2] t2];
    try contradiction.
  - destruct H as [-> [-> ->]]. now rewrite app_nil_r.
  - destruct H as [-> [-> ->]]. reflexivity.
Qed.

End RefinementFacts.

(** A display that holds a pipe breaks the correspondence after splitting. *)
Lemma parallel_after_split_fails : ~ @parallel_after_split Fixtures.web.
Proof.
  intros H.
  specialize (H 1%nat Fixtures.vs_piped None None tt "A" "Yes | No" eq_refl).
  vm_compute in H. discriminate H.
Qed.

(** C2, as the code has it: [parse_valueset_to_list] is the flattening of the
    value set into (code, display) pairs, in traversal order and across every
    nested value set, followed by the joining of the codes and of the
    displays: it returns [(None, None)] for no pair, and otherwise the two
    strings that join the codes and the displays of the same pair list.  When
    no code and no display holds a pipe, splitting the two strings at the
    pipes gives back the codes and the displays of that list: two lists of
    the same length whose k-th entries belong to the k-th pair. *)
Theorem flattening_keeps_pairs_parallel {Wd : World} (depth : nat) (valueset : json)
  (hd : option headers) (key : option string) (s : server) :
  parse_valueset_to_list depth valueset hd key s =
    bind (flatten_pairs depth valueset hd key) (fun ps => ret (pipe_joined ps)) s
  /\ forall ps,
       outcome_of (flatten_pairs depth valueset hd key s) = Ok ps ->
       (ps = [] ->
        outcome_of (parse_valueset_to_list depth valueset hd key s) = Ok (None, None))
       /\ (ps <> [] ->
           exists values descriptions,
             outcome_of (parse_valueset_to_list depth valueset hd key s)
               = Ok (Some values, Some descriptions)
             /\ values = PyStr.join "|" (map fst ps)
             /\ descriptions = PyStr.join "|" (map snd ps)
             /\ (no_pipes ps ->
                 PyStr.split pipe values = map fst ps
                 /\ PyStr.split pipe descriptions = map snd ps
                 /\ List.length (PyStr.split pipe values)
                    = List.length (PyStr.split pipe descriptions))).
Proof.
  split; [apply parse_valueset_to_list_flatten|].
  intros ps Hps. rewrite parse_valueset_to_list_flatten.
  unfold outcome_of, bind, ret in *.
  destruct (flatten_pairs depth valueset hd key s) as [[[ps'|e] s1] t1];
    simpl in *; [|discriminate].
  injection Hps as ->. split.
  - intros ->. reflexivity.
  - intros Hne. exists (PyStr.join "|" (map fst ps)), (PyStr.join "|" (map snd ps)).
    split; [destruct ps; [contradiction | reflexivity]|].
    split; [reflexivity|]. split; [reflexivity|].
    intros Hnp.
    assert (Hf : map fst ps <> []) by (destruct ps; [contradiction | discriminate]).
    assert (Hs : map snd ps <> []) by (destruct ps; [contradiction | discriminate]).
    assert (Hnf : Forall no_pipe (map fst ps)).
    { apply Forall_map. eapply Forall_impl; [|exact Hnp]. now intros p [H _]. }
    assert (Hns : Forall no_pipe (map snd ps)).
    { apply Forall_map. eapply Forall_impl; [|exact Hnp]. now intros p [_ H]. }
    rewrite (split_join_no_pipe Hf Hnf), (split_join_no_pipe Hs Hns).
    split; [reflexivity|]. split; [reflexivity|]. now rewrite !length_map.
Qed.

Lemma flattening_keeps_pairs_parallel_witness :
  exists values descriptions,
    outcome_of (@parse_valueset_to_list Fixtures.web 5 Fixtures.vs_gender
                  (Some fhir_headers) (Some "secret") tt)
      = Ok (Some values, Some descriptions)
    /\ PyStr.split pipe values = ["male"; "female"; "UNK"; "ASKU"; "OTH"]
    /\ PyStr.split pipe descriptions
         = ["Male"; "Female"; "Unknown"; "Asked but unknown"; ""].
Proof.
  destruct (@flattening_keeps_pairs_parallel Fixtures.web 5 Fixtures.vs_gender
              (Some fhir_headers) (Some "secret") tt) as [_ H].
  destruct (H [("male", "Male"); ("female", "Female"); ("UNK", "Unknown");
               ("ASKU", "Asked but unknown"); ("OTH", "")] eq_refl) as [_ H'].
  destruct (H' ltac:(discriminate)) as [v [d [Hout [_ [_ Hsplit]]]]].
  exists v, d. split; [exact Hout|].
  destruct Hsplit as [Hv [Hd _]].
  - repeat constructor.
  - split; assumption.
Defined.

(* ------------------------------------------------------------------ *)
(** ** No result for no code *)

Section CollectFacts.
Context {Wd : World}.

Lemma collect_concepts_text (concepts : list json) :
  Forall text_concept concepts ->
  forall lists lists',
    both_text lists -> collect_concepts concepts lists = Ok lists' -> both_text lists'.
Proof.
  induction 1 as [|c concepts Hc _ IH]; intros lists lists' Hl H; simpl in H.
  - now injection H as <-.
  - destruct (Py.get c "code" (JStr "")) as [code|e] eqn:E1; [|discriminate].
    destruct (Py.get c "display" (JStr "")) as [display|e] eqn:E2; [|discriminate].
    simpl in H. eapply IH; [|exact H].
    destruct (Hc code display E1 E2) as [Hcode Hdisplay]. destruct Hl as [H1 H2].
    split; simpl; apply Forall_app; split; auto.
Qed.

Lemma collect_nested_text (self : json -> M (option string * option string))
  hd key lists uri s lists' s' t :
  both_text lists ->
  collect_nested self hd key lists uri s = (Ok lists', s', t) ->
  both_text lists'.
Proof.
  intros Hl H. unfold collect_nested in H.
  inv_bind H as nested Hfetch.
  destruct (Py.truthy nested); [|apply ret_inv in H; destruct H as [-> _]; exact Hl].
  inv_bind H as r Hself.
  destruct r as [[v|] [d|]]; try (apply ret_inv in H; destruct H as [-> _]; exact Hl).
  destruct (PyStr.truthy v && PyStr.truthy d);
    apply ret_inv in H; destruct H as [-> _]; [|exact Hl].
  destruct Hl as [H1 H2].
  split; simpl; apply Forall_app; split; auto using text_map_JStr.
Qed.

Lemma collect_include_text (self : json -> M (option string * option string))
  hd key lists include s lists' s' t :
  text_include include ->
  both_text lists ->
  collect_include self hd key lists include s = (Ok lists', s', t) ->
  both_text lists'.
Proof.
  intros Hinc Hl H. unfold collect_include in H.
  inv_bind H as is_concept Hc. apply lift_inv in Hc. destruct Hc as [Hc [-> _]].
  destruct is_concept.
  - inv_bind H as concepts Hcs. apply lift_inv in Hcs. destruct Hcs as [Hcs [-> _]].
    apply lift_inv in H. destruct H as [H _].
    eapply collect_concepts_text; [apply (Hinc concepts Hc Hcs) | exact Hl | exact H].
  - inv_bind H as is_valueset Hv. destruct is_valueset.
    + inv_bind H as uris Huris.
      eapply (for_each_inv both_text); [|exact Hl|exact H].
      intros acc x sx a sx' tx _ Hacc Hbody.
      eapply collect_nested_text; [exact Hacc | exact Hbody].
    + apply ret_inv in H. destruct H as [-> _]. exact Hl.
Qed.

Lemma collect_lists_text (self : json -> M (option string * option string))
  valueset hd key s lists s' t :
  text_valueset valueset ->
  collect_lists self valueset hd key s = (Ok lists, s', t) ->
  both_text lists.
Proof.
  intros Hvs H. unfold collect_lists in H.
  inv_bind H as has Hhas. destruct has.
  - inv_bind H as compose Hc. apply lift_inv in Hc. destruct Hc as [Hc [-> _]].
    inv_bind H as includes Hi. apply lift_inv in Hi. destruct Hi as [Hi [-> _]].
    inv_bind H as items Hit. apply lift_inv in Hit. destruct Hit as [Hit [-> _]].
    pose proof (Hvs compose includes items Hc Hi Hit) as Hitems.
    eapply (for_each_inv both_text); [| |exact H].
    + intros acc x sx a sx' tx Hin Hacc Hbody.
      rewrite Forall_forall in Hitems.
      eapply collect_include_text; [apply Hitems; exact Hin | exact Hacc | exact Hbody].
    + split; constructor.
  - apply ret_inv in H. destruct H as [-> _]. split; constructor.
Qed.

Lemma collect_lists_both_or_neither (depth : nat) valueset hd key s pv pd s' t :
  collect_lists (fun nested => parse_valueset_to_list depth nested None None)
    valueset hd key s = (Ok (pv, pd), s', t) ->
  (pv = [] <-> pd = []).
Proof.
  intros H.
  pose proof (collect_lists_sim
                (fun nested => parse_valueset_to_list depth nested None None)
                (fun nested => flatten_pairs depth nested None None)
                (fun nested => parse_valueset_to_list_sim depth nested None None)
                valueset hd key s) as Hsim.
  rewrite H in Hsim.
  destruct (all_pairs _ valueset hd key s) as [[[acc|e] s2] t2]; [|contradiction].
  destruct Hsim as [[H1 H2] _]. simpl in H1, H2.
  split; intros ->.
  - symmetry in H1. apply flat_pieces_nil in H1. apply map_eq_nil in H1. subst acc.
    now apply flat_pieces_nil in H2.
  - symmetry in H2. apply flat_pieces_nil in H2. apply map_eq_nil in H2. subst acc.
    now apply flat_pieces_nil in H1.
Qed.

Lemma parse_after_collect (depth : nat) valueset hd key s lists s' t :
  collect_lists (fun nested => parse_valueset_to_list depth nested None None)
    valueset hd key s = (Ok lists, s', t) ->
  outcome_of (parse_valueset_to_list (S depth) valueset hd key s)
    = outcome_of (join_lists lists s').
Proof.
  intros H. simpl. unfold parse_body, logging_info. rewrite bind_emit.
  unfold after_event, outcome_of. simpl.
  erewrite bind_ok by exact H. reflexivity.
Qed.

End CollectFacts.

(** C8: once the loops of [parse_valueset_to_list] are over, the list of
    codes is empty exactly when the list of descriptions is, and the function
    returns [(None, None)] exactly when no code was collected; when at least
    one was, and the codes and displays of the value set's own concepts are
    strings, it returns two strings. *)
Theorem no_result_iff_nothing_collected {Wd : World} (depth : nat) (valueset : json)
  (hd : option headers) (key : option string) (s s' : server)
  (permissible_values permissible_values_descriptions : list json) (t : list event) :
  collect_lists (fun nested => parse_valueset_to_list depth nested None None)
    valueset hd key s
    = (Ok (permissible_values, permissible_values_descriptions), s', t) ->
  (permissible_values = [] <-> permissible_values_descriptions = [])
  /\ (outcome_of (parse_valueset_to_list (S depth) valueset hd key s) = Ok (None, None)
      <-> permissible_values = [])
  /\ (permissible_values <> [] ->
      text_valueset valueset ->
      exists values descriptions,
        outcome_of (parse_valueset_to_list (S depth) valueset hd key s)
          = Ok (Some values, Some descriptions)).
Proof.
  intros H. pose proof (collect_lists_both_or_neither _ _ _ _ _ H) as Hboth.
  rewrite (parse_after_collect _ _ _ _ _ H).
  split; [exact Hboth|]. split; [split|].
  - destruct permissible_values as [|x pv]; [reflexivity|].
    destruct permissible_values_descriptions as [|y pd];
      [destruct Hboth as [_ Hb]; discriminate (Hb eq_refl)|].
    rewrite join_lists_text. unfold outcome_of. simpl.
    destruct (Py.join "|" (x :: pv)); simpl; [|discriminate].
    destruct (Py.join "|" (y :: pd)); simpl; discriminate.
  - intros ->. reflexivity.
  - intros Hne Htext.
    destruct permissible_values as [|x pv]; [contradiction|].
    destruct permissible_values_descriptions as [|y pd];
      [destruct Hboth as [_ Hb]; discriminate (Hb eq_refl)|].
    destruct (collect_lists_text _ _ _ _ Htext H) as [Hpv Hpd]. simpl in Hpv, Hpd.
    rewrite join_lists_text. unfold Py.join.
    destruct (strings_cases (x :: pv)) as [[lv [_ Sv]]|[_ Nv]]; [|contradiction].
    destruct (strings_cases (y :: pd)) as [[ld [_ Sd]]|[_ Nd]]; [|contradiction].
    rewrite Sv, Sd. simpl. now eexists; eexists.
Qed.

Lemma no_result_iff_nothing_collected_witness :
  exists values descriptions,
    outcome_of (@parse_valueset_to_list Fixtures.web 2 Fixtures.vs_b None None tt)
      = Ok (Some values, Some descriptions).
Proof.
  edestruct (@no_result_iff_nothing_collected Fixtures.web 1 Fixtures.vs_b None None tt)
    as [_ [_ H]].
  - vm_compute. reflexivity.
  - apply H; [discriminate|].
    intros compose includes items Hc Hi Hit.
    vm_compute in Hc. injection Hc as <-.
    vm_compute in Hi. injection Hi as <-.
    vm_compute in Hit. injection Hit as <-.
    apply Forall_cons; [|apply Forall_nil]. intros concepts _ Hcs.
    vm_compute in Hcs. injection Hcs as <-.
    apply Forall_cons; [|apply Forall_cons; [|apply Forall_nil]];
      intros code display Hcode Hdisplay;
      vm_compute in Hcode; vm_compute in Hdisplay;
      injection Hcode as <-; injection Hdisplay as <-;
      split; eexists; reflexivity.
Defined.

Example nothing_collected_no_result :
  outcome_of (@parse_valueset_to_list Fixtures.web 2
                (JObj [("resourceType", JStr "ValueSet")]) None None tt)
    = Ok (None, None)
  /\ outcome_of (@parse_valueset_to_list Fixtures.web 2
                   (Fixtures.value_set
                      [JObj [("valueSet",
                              JArr [JStr "https://tx.example.org/ValueSet/missing"])]])
                   None None tt)
     = Ok (None, None).
Proof. split; reflexivity. Qed.

(* ------------------------------------------------------------------ *)
(** ** The recursion allowance *)

Section DepthFacts.
Context {Wd : World}.







Lemma collect_concepts_literal (concepts : list json) :
  Forall literal_concept concepts ->
  forall lists, exists lists', collect_concepts concepts lists = Ok lists'.
Proof.
  induction 1 as [|c concepts [m [code [display [_ [Hc Hd]]]]] _ IH]; intros lists; simpl.
  - now exists lists.
  - rewrite Hc, Hd. simpl. apply IH.
Qed.

Lemma collect_literal_includes (self : json -> M (option string * option string))
  hd key (items : list json) :
  Forall literal_include items ->
  forall lists s, exists lists',
    for_each items lists (collect_include self hd key) s = (Ok lists', s, []).
Proof.
  induction 1 as [|inc items [concepts [Hc [Hcs Hlit]]] _ IH]; intros lists s; simpl.
  - now exists lists.
  - destruct (collect_concepts_literal Hlit lists) as [lists1 H1].
    destruct (IH lists1 s) as [lists' H'].
    exists lists'.
    assert (Hstep : collect_include self hd key lists inc s = (Ok lists1, s, [])).
    { unfold collect_include.
      rewrite bind_lift_ok with (a := true) by exact Hc.
      rewrite bind_lift_ok with (a := concepts) by exact Hcs.
      rewrite H1. reflexivity. }
    erewrite bind_ok by exact Hstep. rewrite H'. reflexivity.
Qed.

(** A value set made of literal concepts only is always parsed to a result,
    with no request, as soon as one activation is allowed. *)
Lemma parse_valueset_to_list_returns (depth : nat) valueset compose includes items
  hd key s :
  has_includes valueset = Ok true ->
  Py.getitem valueset "compose" = Ok compose ->
  Py.getitem compose "include" = Ok includes ->
  Py.iter includes = Ok items ->
  Forall literal_include items ->
  exists r,
    parse_valueset_to_list (S depth) valueset hd key s =
      (Ok r, s,
       [EvLog INFO "Parsing value set to extract permissible values and descriptions." []]).
Proof.
  intros Hhas Hc Hi Hit Hlit.
  destruct (collect_literal_includes
              (fun n => parse_valueset_to_list depth n None None) hd key Hlit ([], []) s)
    as [[pv pd] Hloop].
  assert (Hcollect :
    collect_lists (fun n => parse_valueset_to_list depth n None None) valueset hd key s
      = (Ok (pv, pd), s, [])).
  { unfold collect_lists.
    rewrite bind_lift_ok with (a := true) by exact Hhas.
    rewrite bind_lift_ok with (a := compose) by exact Hc.
    rewrite bind_lift_ok with (a := includes) by exact Hi.
    rewrite bind_lift_ok with (a := items) by exact Hit.
    exact Hloop. }
  assert (Htext : text_valueset valueset).
  { intros compose' includes' items' Hc' Hi' Hit'.
    rewrite Hc in Hc'. injection Hc' as <-. rewrite Hi in Hi'. injection Hi' as <-.
    rewrite Hit in Hit'. injection Hit' as <-.
    eapply Forall_impl; [|exact Hlit].
    intros inc [concepts [_ [Hcs Hl]]] concepts' _ Hcs'.
    rewrite Hcs in Hcs'. injection Hcs' as <-.
    eapply Forall_impl; [|exact Hl].
    intros c [m [code [display [_ [Hcode Hdisplay]]]]] code' display' Hcode' Hdisplay'.
    rewrite Hcode in Hcode'. injection Hcode' as <-.
    rewrite Hdisplay in Hdisplay'. injection Hdisplay' as <-.
    split; eexists; reflexivity. }
  destruct (collect_lists_text _ _ _ _ Htext Hcollect) as [Hpv Hpd]. simpl in Hpv, Hpd.
  pose proof (collect_lists_both_or_neither _ _ _ _ _ Hcollect) as Hboth.
  simpl. unfold parse_body, logging_info. rewrite bind_emit.
  unfold after_event. erewrite bind_ok by exact Hcollect.
  destruct pv as [|x pv].
  - exists (None, None). reflexivity.
  - destruct pd as [|y pd]; [destruct Hboth as [_ Hb]; discriminate (Hb eq_refl)|].
    rewrite join_lists_text. unfold Py.join.
    destruct (strings_cases (x :: pv)) as [[lv [_ Sv]]|[_ Nv]]; [|contradiction].
    destruct (strings_cases (y :: pd)) as [[ld [_ Sd]]|[_ Nd]]; [|contradiction].
    rewrite Sv, Sd. simpl. eexists. reflexivity.
Qed.

End DepthFacts.

(** A nested value set whose one concept has no display is resolved to the
    pair of its code and the empty string, and the value set that includes it
    drops that result. *)
Example single_nested_pair_without_display_is_dropped :
  outcome_of (@parse_valueset_to_list Fixtures.web 3 Fixtures.vs_c None None tt)
    = Ok (Some "OTH", Some "")
  /\ outcome_of (@parse_valueset_to_list Fixtures.web 3
                   (Fixtures.value_set [JObj [("valueSet", JArr [JStr Fixtures.url_c])]])
                   None None tt)
     = Ok (None, None)
  /\ spliced [("OTH", "")] = false.
Proof. repeat split; reflexivity. Qed.

(* ================================================================== *)
(** * Further properties of the code *)

(* ------------------------------------------------------------------ *)
(** ** [create_variable_name] *)



(** X1: a variable name never ends with a colon, whichever branch of
    [create_variable_name] made it: the name of a row, and every name that
    the frame branch gives. *)
Theorem variable_name_has_no_trailing_colon (row : Series) (df : DataFrame)
  (name : string) (names : list cell) :
  (create_variable_name row = Ok name -> last_is colon name = false)
  /\ (create_variable_name_frame df = Ok names ->
      Forall (fun c => match c with
                       | Str x => last_is colon x = false
                       | NaN => True
                       end) names).
Proof.
  split.
  - unfold create_variable_name.
    destruct (Pd.loc row "Path") as [path|e]; [|discriminate]. simpl.
    destruct (Pd.loc row "Slice Name") as [sl|e]; [|discriminate]. simpl.
    intros H. injection H as <-. apply rstrip_idempotent.
  - unfold create_variable_name_frame.
    destruct (Pd.column df "Path") as [paths|e]; [|discriminate]. simpl.
    destruct (Pd.column df "Slice Name") as [slices|e]; [|discriminate]. simpl.
    intros H. injection H as <-. apply Forall_map. apply Forall_forall.
    intros [[|p] sl] _; simpl; [exact I | apply rstrip_idempotent].
Qed.

Lemma variable_name_has_no_trailing_colon_witness :
  last_is colon "Patient.extension:race" = false.
Proof.
  destruct (variable_name_has_no_trailing_colon Fixtures.colon_row
              (mkDataFrame [] []) "Patient.extension:race" []) as [H _].
  apply H. reflexivity.
Defined.



(* ------------------------------------------------------------------ *)
(** ** [combine_columns_into_string] *)

Lemma combine_parts_app (row : Series) (prefix : string) (l1 l2 : list string) :
  forall parts,
    combine_parts row prefix (l1 ++ l2) parts =
      obind (combine_parts row prefix l1 parts) (combine_parts row prefix l2).
Proof.
  induction l1 as [|c l1 IH]; intros parts; simpl; [reflexivity|].
  destruct (Pd.loc row c) as [v|e]; simpl; [apply IH | reflexivity].
Qed.

Lemma combine_values_flat (row : Series) (prefix : string) (values : list colspec) :
  forall parts,
    combine_values row prefix values parts =
      combine_parts row prefix (flat_map as_list values) parts.
Proof.
  induction values as [|v values IH]; intros parts; simpl; [reflexivity|].
  rewrite combine_parts_app.
  destruct (combine_parts row prefix (as_list v) parts) as [parts'|e]; simpl;
    [apply IH | reflexivity].
Qed.

(** X3: when a source column is not a label of the row,
    [combine_columns_into_string] raises [KeyError] for the first such column
    in configured order, whatever the columns before it hold and whatever
    comes after. *)
Theorem combine_columns_missing_column (row : Series)
  (columns_dict : list (string * colspec)) (prefix sep : string)
  (before after : list string) (column : string) :
  flat_map as_list (map snd columns_dict) = before ++ column :: after ->
  (forall c, In c before -> exists v, Py.assoc c row = Some v) ->
  Py.assoc column row = None ->
  combine_columns_into_string row columns_dict prefix sep = Raise (KeyError column).
Proof.
  intros Hcols Hbefore Hmissing. unfold combine_columns_into_string.
  rewrite combine_values_flat, Hcols, combine_parts_app.
  rewrite combine_parts_eq by exact Hbefore. simpl.
  unfold Pd.loc. rewrite Hmissing. reflexivity.
Qed.

Lemma combine_columns_missing_column_witness :
  combine_columns_into_string [("Path", Str "Patient.name"); ("Short", NaN)]
    [("short description", Columns ["Path"; "Slice Name"; "Must Support?"; "Short"])]
    default_prefix default_sep
  = Raise (KeyError "Slice Name").
Proof.
  apply (@combine_columns_missing_column _ _ _ _ ["Path"] ["Must Support?"; "Short"]).
  - reflexivity.
  - intros c [<-|[]]. eexists. reflexivity.
  - reflexivity.
Defined.

(* ------------------------------------------------------------------ *)
(** ** Permissible values of a mapped row *)

Section BindingFacts.
Context {Wd : World}.

Lemma cell_of_setitem_same (d : Series) (k : string) (v : cell) :
  cell_of (Pd.setitem d k v) k = v.
Proof.
  unfold cell_of. induction d as [|[k0 v0] d IH]; simpl.
  - now rewrite String.eqb_refl.
  - destruct (String.eqb k k0) eqn:E; simpl; rewrite E; [reflexivity | exact IH].
Qed.

Lemma truthy_not_empty (x : string) : PyStr.truthy x = true -> x <> "".
Proof. intros H ->. discriminate H. Qed.

Lemma resolve_binding_cases depth (r new_row : Series) hd key s new_row' s' t :
  resolve_binding depth r new_row hd key s = (Ok new_row', s', t) ->
  new_row' = new_row
  \/ exists v d,
       v <> "" /\ d <> ""
       /\ new_row' = Pd.setitem (Pd.setitem new_row "permissible values" (Str v))
                       "permissible value descriptions" (Str d).
Proof.
  unfold resolve_binding. intros H.
  inv_bind H as binding Hb. destruct binding as [|uri].
  - apply ret_inv in H. left. tauto.
  - inv_bind H as valueset Hf. destruct (Py.truthy valueset).
    + inv_bind H as parsed Hp. destruct parsed as [[v|] [d|]];
        try (apply ret_inv in H; left; tauto).
      destruct (PyStr.truthy v) eqn:Ev; destruct (PyStr.truthy d) eqn:Ed; simpl in H;
        apply ret_inv in H; destruct H as [-> _]; try (now left).
      right. exists v, d. auto using truthy_not_empty.
    + apply ret_inv in H. left. tauto.
Qed.

End BindingFacts.

(** X4: the block that resolves a row's binding records the permissible
    values and their descriptions together or not at all, and never records an
    empty string: on a mapped row that had neither field, either both are
    still absent afterwards or both hold non-empty text; no other field of the
    row changes. *)
Theorem permissible_values_come_in_pairs {Wd : World} (depth : nat)
  (r new_row new_row' : Series) (hd : option headers) (key : option string)
  (s s' : server) (t : list event) :
  resolve_binding depth r new_row hd key s = (Ok new_row', s', t) ->
  ~ In "permissible values" (map fst new_row) ->
  ~ In "permissible value descriptions" (map fst new_row) ->
  ((cell_of new_row' "permissible values" = NaN
    /\ cell_of new_row' "permissible value descriptions" = NaN)
   \/ (exists v d,
         v <> "" /\ d <> ""
         /\ cell_of new_row' "permissible values" = Str v
         /\ cell_of new_row' "permissible value descriptions" = Str d))
  /\ (forall k, k <> "permissible values" -> k <> "permissible value descriptions" ->
       cell_of new_row' k = cell_of new_row k).
Proof.
  intros H Hv Hd.
  assert (Ev : cell_of new_row "permissible values" = NaN).
  { unfold cell_of. apply assoc_None_not_key in Hv. now rewrite Hv. }
  assert (Ed : cell_of new_row "permissible value descriptions" = NaN).
  { unfold cell_of. apply assoc_None_not_key in Hd. now rewrite Hd. }
  apply resolve_binding_cases in H. destruct H as [->|[v [d [Hnv [Hnd ->]]]]].
  - split; [left; now split | reflexivity].
  - split.
    + right. exists v, d. repeat split; try assumption.
      * rewrite cell_of_setitem_other by discriminate. apply cell_of_setitem_same.
      * apply cell_of_setitem_same.
    + intros k Hk1 Hk2. now rewrite !cell_of_setitem_other by assumption.
Qed.

Lemma permissible_values_come_in_pairs_witness :
  exists new_row',
    outcome_of (@resolve_binding Fixtures.web 5 Fixtures.gender_row
                  [("variable name", Str "Patient.gender")] (Some fhir_headers) None tt)
      = Ok new_row'
    /\ cell_of new_row' "variable name" = Str "Patient.gender"
    /\ cell_of new_row' "permissible values" = Str "male|female|UNK|ASKU|OTH".
Proof.
  assert (Hrun : exists new_row' t,
             @resolve_binding Fixtures.web 5 Fixtures.gender_row
                [("variable name", Str "Patient.gender")] (Some fhir_headers) None tt
             = (Ok new_row', tt, t)
             /\ cell_of new_row' "permissible values" = Str "male|female|UNK|ASKU|OTH").
  { eexists. eexists. split; vm_compute; reflexivity. }
  destruct Hrun as [new_row' [t [Hrun Hcell]]].
  exists new_row'. split; [now rewrite Hrun|]. split; [|exact Hcell].
  destruct (@permissible_values_come_in_pairs Fixtures.web _ _ _ _ _ _ _ _ _ Hrun)
    as [_ Hkeep].
  - simpl. intuition discriminate.
  - simpl. intuition discriminate.
  - rewrite Hkeep by discriminate. reflexivity.
Defined.

(* ------------------------------------------------------------------ *)
(** ** Answers that give no value set *)

Section AnswerFacts.
Context {Wd : World}.

Lemma fetch_fhir_valueset_run (uri : json) (hd : option headers) (s : server) :
  outcome_of (fetch_fhir_valueset uri hd s) = fetch_outcome (fst (http_get s uri hd))
  /\ server_of (fetch_fhir_valueset uri hd s) = snd (http_get s uri hd).
Proof.
  unfold fetch_fhir_valueset, logging_info, logging_error. rewrite bind_emit.
  unfold after_event, outcome_of, server_of, try_except_request, bind, requests_get,
    raise_for_status, loads, emit, ret, raise, fetch_outcome, error_status.
  destruct (http_get s uri hd) as [[msg|status text] s']; cbn; [now split|].
  destruct ((400 <=? status) && (status <? 600))%Z; cbn; [now split|].
  destruct (json_loads text); cbn; now split.
Qed.

Lemma fetch_nlm_valueset_run (uri : json) (k : string) (s : server) :
  outcome_of (fetch_nlm_valueset uri k s)
    = fetch_outcome (fst (http_get s uri (Some (authorization k))))
  /\ server_of (fetch_nlm_valueset uri k s) = snd (http_get s uri (Some (authorization k))).
Proof.
  unfold fetch_nlm_valueset, logging_info, logging_error. rewrite bind_emit.
  cbv zeta. fold (authorization k). generalize (authorization k). intros auth.
  unfold headers in *.
  unfold after_event, outcome_of, server_of, try_except_request, bind, requests_get,
    raise_for_status, loads, emit, ret, raise, fetch_outcome, error_status.
  destruct (http_get s uri (Some auth)) as [[msg|status text] s']; cbn; [now split|].
  destruct ((400 <=? status) && (status <? 600))%Z; cbn; [now split|].
  destruct (json_loads text); cbn; now split.
Qed.

(** [fetch_valueset] on a URI that is a string: one request, with the headers
    of the dispatch, and the answer decides the rest. *)
Lemma fetch_valueset_run (uri : string) (hd : option headers) (key : option string)
  (s : server) :
  outcome_of (fetch_valueset (JStr uri) hd key s)
    = fetch_outcome (fst (http_get s (JStr uri) (dispatch_headers uri hd key)))
  /\ server_of (fetch_valueset (JStr uri) hd key s)
     = snd (http_get s (JStr uri) (dispatch_headers uri hd key))
  /\ http_requests (events_of (fetch_valueset (JStr uri) hd key s))
     = [(JStr uri, dispatch_headers uri hd key)].
Proof.
  rewrite fetch_valueset_eq. unfold dispatch_headers.
  unfold after_event, outcome_of, server_of, events_of. cbn [fst snd http_requests].
  destruct (nlm_key uri key) as [k|].
  - destruct (fetch_nlm_valueset_run (JStr uri) k s) as [H1 H2].
    split; [exact H1|]. split; [exact H2|]. apply fetch_nlm_valueset_requests.
  - destruct (fetch_fhir_valueset_run (JStr uri) hd s) as [H1 H2].
    split; [exact H1|]. split; [exact H2|]. apply fetch_fhir_valueset_requests.
Qed.

Lemma no_value_set_outcome (r : http_result) :
  no_value_set r -> exists v, fetch_outcome r = Ok v /\ Py.truthy v = false.
Proof.
  destruct r as [msg|status text]; simpl.
  - intros _. now exists JNull.
  - intros [H|[v [Hv Ht]]].
    + rewrite H. now exists JNull.
    + destruct (error_status status); [now exists JNull|].
      rewrite Hv. now exists v.
Qed.

Lemma answers_outcome (r : http_result) (v : json) :
  answers r v -> fetch_outcome r = Ok v.
Proof.
  destruct r as [msg|status text]; simpl; [contradiction|].
  intros [H1 H2]. now rewrite H1, H2.
Qed.

(** a run taken apart *)
Lemma run_eta {A} (r : outcome A * server * list event) :
  r = (outcome_of r, server_of r, events_of r).
Proof. destruct r as [[o s] t]. reflexivity. Qed.

End AnswerFacts.

(** X5: a row whose binding URI gives no value set (the request fails on the
    wire, the status is 400 to 599, or the body decodes to an empty object, to
    [null] or to another value that Python takes for false) keeps its mapped
    row as it is, without permissible values; the run goes on after that one
    request, and the value-set parser is not entered. *)
Theorem binding_without_value_set_leaves_row {Wd : World} (depth : nat)
  (r new_row : Series) (hd : option headers) (key : option string) (s : server)
  (uri : string) :
  Pd.loc r "Binding Value Set" = Ok (Str uri) ->
  no_value_set (fst (http_get s (JStr uri) (dispatch_headers uri hd key))) ->
  outcome_of (resolve_binding depth r new_row hd key s) = Ok new_row
  /\ server_of (resolve_binding depth r new_row hd key s)
     = snd (http_get s (JStr uri) (dispatch_headers uri hd key))
  /\ http_requests (events_of (resolve_binding depth r new_row hd key s))
     = [(JStr uri, dispatch_headers uri hd key)].
Proof.
  intros Hloc Hno. unfold resolve_binding.
  rewrite bind_lift_ok with (a := Str uri) by exact Hloc.
  destruct (fetch_valueset_run uri hd key s) as [Ho [Hs Hr]].
  destruct (no_value_set_outcome _ Hno) as [v [Hv Hfalse]].
  rewrite Hv in Ho. unfold bind.
  destruct (fetch_valueset (JStr uri) hd key s) as [[o s1] t1].
  unfold outcome_of, server_of, events_of in *. cbn [fst snd] in *. subst o.
  rewrite Hfalse. cbn. rewrite app_nil_r. auto.
Qed.

Lemma binding_without_value_set_leaves_row_witness :
  outcome_of (@resolve_binding Fixtures.web 5
                [("Binding Value Set", Str "https://tx.example.org/ValueSet/missing")]
                [("variable name", Str "Patient.gender")] (Some fhir_headers) None tt)
  = Ok [("variable name", Str "Patient.gender")].
Proof.
  eapply (@binding_without_value_set_leaves_row Fixtures.web); [reflexivity|].
  left. reflexivity.
Defined.

(* ------------------------------------------------------------------ *)
(** ** Value sets with nothing to collect, and answers that are no value set *)

Section EdgeFacts.
Context {Wd : World}.

Lemma outcome_bind_raise {A B} (m : M A) (f : A -> M B) (s : server) (e : exn) :
  outcome_of (m s) = Raise e -> outcome_of (bind m f s) = Raise e.
Proof.
  unfold outcome_of, bind. destruct (m s) as [[[a|e'] s1] t1]; simpl; [discriminate|].
  intros H. injection H as ->. reflexivity.
Qed.

Lemma outcome_bind_ok {A B} (m : M A) (f : A -> M B) (s : server) (a : A) :
  outcome_of (m s) = Ok a ->
  outcome_of (bind m f s) = outcome_of (f a (server_of (m s))).
Proof.
  unfold outcome_of, server_of, bind. destruct (m s) as [[[a'|e'] s1] t1]; simpl;
    [|discriminate].
  intros H. injection H as ->. destruct (f a s1) as [[o s2] t2]. reflexivity.
Qed.

Lemma outcome_after_event {A} (e : event) (r : outcome A * server * list event) :
  outcome_of (after_event e r) = outcome_of r.
Proof. reflexivity. Qed.

End EdgeFacts.

(** X6: a value set that has no [compose], or whose [compose] has no
    [include], or whose [include] is an empty list, gives no result: with one
    activation allowed, [parse_valueset_to_list] returns [(None, None)], makes
    no request and leaves the servers alone. *)
Theorem nothing_to_include_gives_no_result {Wd : World} (depth : nat) (valueset : json)
  (hd : option headers) (key : option string) (s : server) :
  has_includes valueset = Ok false
  \/ (exists compose includes,
        has_includes valueset = Ok true
        /\ Py.getitem valueset "compose" = Ok compose
        /\ Py.getitem compose "include" = Ok includes
        /\ Py.iter includes = Ok []) ->
  parse_valueset_to_list (S depth) valueset hd key s =
    (Ok (None, None), s,
     [EvLog INFO "Parsing value set to extract permissible values and descriptions." []]).
Proof.
  intros H. simpl. unfold parse_body, logging_info, collect_lists. rewrite bind_emit.
  destruct H as [H|[compose [includes [H1 [H2 [H3 H4]]]]]].
  - rewrite bind_assoc, bind_lift_ok with (a := false) by exact H. reflexivity.
  - rewrite bind_assoc, bind_lift_ok with (a := true) by exact H1.
    rewrite bind_assoc, bind_lift_ok with (a := compose) by exact H2.
    rewrite bind_assoc, bind_lift_ok with (a := includes) by exact H3.
    rewrite bind_assoc, bind_lift_ok with (a := []) by exact H4.
    reflexivity.
Qed.

Lemma nothing_to_include_gives_no_result_witness :
  outcome_of (@parse_valueset_to_list Fixtures.web 1 Cases.vs_expansion_only
                (Some fhir_headers) None tt) = Ok (None, None)
  /\ outcome_of (@parse_valueset_to_list Fixtures.web 1 (Fixtures.value_set [])
                   (Some fhir_headers) None tt) = Ok (None, None).
Proof.
  split.
  - rewrite (@nothing_to_include_gives_no_result Fixtures.web); [reflexivity|].
    left. reflexivity.
  - rewrite (@nothing_to_include_gives_no_result Fixtures.web); [reflexivity|].
    right. eexists. eexists. repeat split; reflexivity.
Defined.

(** X7: a body that decodes to a number other than zero or to [true] is taken
    for a value set by the row block, and [parse_valueset_to_list] raises
    [TypeError] on it at its first test, whatever the recursion allowance: the
    exception leaves the row block, so one such answer ends the run. *)
Theorem scalar_body_raises_type_error {Wd : World} (depth : nat)
  (r new_row : Series) (hd : option headers) (key : option string) (s : server)
  (uri : string) (v : json) :
  Pd.loc r "Binding Value Set" = Ok (Str uri) ->
  answers (fst (http_get s (JStr uri) (dispatch_headers uri hd key))) v ->
  scalar v ->
  Py.truthy v = true ->
  outcome_of (parse_valueset_to_list (S depth) v hd key s) = Raise TypeError
  /\ outcome_of (resolve_binding (S depth) r new_row hd key s) = Raise TypeError.
Proof.
  intros Hloc Hans Hscalar Htrue.
  assert (Hparse : forall s0, outcome_of (parse_valueset_to_list (S depth) v hd key s0)
                              = Raise TypeError).
  { intros s0. simpl. unfold parse_body, logging_info. rewrite bind_emit.
    rewrite outcome_after_event. apply outcome_bind_raise. unfold collect_lists.
    apply outcome_bind_raise. destruct v; try contradiction; reflexivity. }
  split; [apply Hparse|].
  unfold resolve_binding. rewrite bind_lift_ok with (a := Str uri) by exact Hloc.
  destruct (fetch_valueset_run uri hd key s) as [Ho _].
  rewrite (answers_outcome _ _ Hans) in Ho.
  rewrite (outcome_bind_ok _ _ _ Ho). rewrite Htrue.
  apply outcome_bind_raise. apply Hparse.
Qed.

Lemma scalar_body_raises_type_error_witness :
  outcome_of (@resolve_binding Cases.true_web 3
                [("Binding Value Set", Str Cases.url_true)]
                [("variable name", Str "Patient.gender")] (Some fhir_headers) None tt)
  = Raise TypeError.
Proof.
  eapply (@scalar_body_raises_type_error Cases.true_web 2 _ _ _ _ _ Cases.url_true
            (JBool true)).
  - reflexivity.
  - split; reflexivity.
  - exact I.
  - reflexivity.
Defined.

(* ------------------------------------------------------------------ *)
(** ** Literal concepts and nested value sets that cannot be had *)

Section LiteralFacts.
Context {Wd : World}.

Lemma strings_map_JStr (l : list string) : Py.strings (map JStr l) = Ok l.
Proof. induction l as [|x l IH]; simpl; [reflexivity|]. now rewrite IH. Qed.

Lemma collect_concepts_literal_eq (concepts : list json) :
  Forall literal_concept concepts ->
  forall acc,
    collect_concepts concepts acc
    = Ok (fst acc ++ map JStr (map fst (map literal_pair concepts)),
          snd acc ++ map JStr (map snd (map literal_pair concepts))).
Proof.
  induction 1 as [|c concepts [m [code [display [_ [Hc Hd]]]]] _ IH]; intros acc; simpl.
  - now rewrite !app_nil_r, <- surjective_pairing.
  - rewrite Hc, Hd. simpl. rewrite IH. simpl.
    now rewrite <- !app_assoc.
Qed.

Lemma contains_false_getitem (k : string) (v : json) :
  Py.contains k v = Ok false -> exists e, Py.getitem v k = Raise e.
Proof.
  destruct v; simpl; try (intros _; eexists; reflexivity).
  destruct (Py.assoc k m); [discriminate|]. intros _. eexists. reflexivity.
Qed.

Lemma collect_nested_unreachable (self : json -> M (option string * option string))
  hd key (u : json) :
  unreachable hd key u ->
  forall acc s, exists s' t,
    collect_nested self hd key acc u s = (Ok acc, s', t)
    /\ map fst (http_requests t) = [u].
Proof.
  intros [uri [-> Hno]] acc s. unfold collect_nested.
  destruct (fetch_valueset_run uri hd key s) as [Ho [_ Hr]].
  destruct (no_value_set_outcome _ (Hno s)) as [v [Hv Hfalse]].
  rewrite Hv in Ho. unfold bind.
  destruct (fetch_valueset (JStr uri) hd key s) as [[o s1] t1].
  unfold outcome_of, events_of in *. cbn [fst snd] in *. subst o.
  rewrite Hfalse. cbn. rewrite app_nil_r. exists s1, t1. split; [reflexivity|].
  now rewrite Hr.
Qed.

Lemma for_each_unreachable (self : json -> M (option string * option string))
  hd key (uris : list json) :
  Forall (unreachable hd key) uris ->
  forall acc s, exists s' t,
    for_each uris acc (collect_nested self hd key) s = (Ok acc, s', t)
    /\ map fst (http_requests t) = uris.
Proof.
  induction 1 as [|u uris Hu _ IH]; intros acc s; simpl.
  - exists s, []. now split.
  - destruct (collect_nested_unreachable self Hu acc s) as [s1 [t1 [H1 R1]]].
    destruct (IH acc s1) as [s2 [t2 [H2 R2]]].
    exists s2, (t1 ++ t2). erewrite bind_ok by exact H1. rewrite H2.
    split; [reflexivity|].
    rewrite http_requests_app, map_app, R1, R2. reflexivity.
Qed.

Lemma collect_include_literal_or_dead (self : json -> M (option string * option string))
  hd key (include : json) :
  literal_include include \/ dead_include hd key include ->
  forall acc s, exists s' t,
    collect_include self hd key acc include s
    = (Ok (fst acc ++ map JStr (map fst (map literal_pair (concepts_of include))),
           snd acc ++ map JStr (map snd (map literal_pair (concepts_of include)))),
       s', t)
    /\ map fst (http_requests t) = include_uris include.
Proof.
  intros [[concepts [Hc [Hcs Hlit]]]|[uris [Hc [Hv [Hus Hdead]]]]] acc s;
    unfold collect_include, concepts_of, include_uris.
  - rewrite bind_lift_ok with (a := true) by exact Hc.
    rewrite bind_lift_ok with (a := concepts) by exact Hcs.
    rewrite Hc, Hcs, (collect_concepts_literal_eq Hlit).
    exists s, []. now split.
  - rewrite bind_lift_ok with (a := false) by exact Hc.
    rewrite bind_lift_ok with (a := true) by exact Hv.
    rewrite bind_lift_ok with (a := uris) by exact Hus.
    rewrite Hc, Hv, Hus.
    destruct (contains_false_getitem _ _ Hc) as [e He]. rewrite He. simpl.
    rewrite !app_nil_r, <- surjective_pairing.
    apply for_each_unreachable. exact Hdead.
Qed.

Lemma for_each_literal_or_dead (self : json -> M (option string * option string))
  hd key (items : list json) :
  Forall (fun i => literal_include i \/ dead_include hd key i) items ->
  forall acc s, exists s' t,
    for_each items acc (collect_include self hd key) s
    = (Ok (fst acc ++ map JStr (map fst (map literal_pair (flat_map concepts_of items))),
           snd acc ++ map JStr (map snd (map literal_pair (flat_map concepts_of items)))),
       s', t)
    /\ map fst (http_requests t) = flat_map include_uris items.
Proof.
  induction 1 as [|i items Hi _ IH]; intros acc s; simpl.
  - exists s, []. now rewrite !app_nil_r, <- surjective_pairing.
  - destruct (collect_include_literal_or_dead self Hi acc s) as [s1 [t1 [H1 R1]]].
    destruct (IH (fst acc ++ map JStr (map fst (map literal_pair (concepts_of i))),
                  snd acc ++ map JStr (map snd (map literal_pair (concepts_of i)))) s1)
      as [s2 [t2 [H2 R2]]].
    exists s2, (t1 ++ t2). erewrite bind_ok by exact H1. rewrite H2. cbn [fst snd].
    split.
    + rewrite !map_app, <- !app_assoc. reflexivity.
    + rewrite http_requests_app, map_app, R1, R2. reflexivity.
Qed.

Lemma join_lists_pairs (ps : list (string * string)) (s : server) :
  join_lists (map JStr (map fst ps), map JStr (map snd ps)) s
  = (Ok (pipe_joined ps), s, []).
Proof.
  destruct ps as [|p ps]; [reflexivity|].
  change (map JStr (map fst (p :: ps))) with (JStr (fst p) :: map JStr (map fst ps)).
  change (map JStr (map snd (p :: ps))) with (JStr (snd p) :: map JStr (map snd ps)).
  rewrite join_lists_text. unfold Py.join.
  change (JStr (fst p) :: map JStr (map fst ps)) with (map JStr (map fst (p :: ps))).
  change (JStr (snd p) :: map JStr (map snd ps)) with (map JStr (map snd (p :: ps))).
  rewrite !strings_map_JStr. reflexivity.
Qed.

End LiteralFacts.

(** X8: a value set whose [include] entries are lists of literal concepts, or
    lists of nested URIs none of which gives a value set, is parsed to the
    codes and the displays of its own concepts, in the order of the document,
    a missing code or display counting as the empty string; the nested URIs
    are requested once each, in order, and add nothing. *)
Theorem literal_concepts_survive_dead_links {Wd : World} (depth : nat)
  (valueset compose includes : json) (items : list json)
  (hd : option headers) (key : option string) (s : server) :
  has_includes valueset = Ok true ->
  Py.getitem valueset "compose" = Ok compose ->
  Py.getitem compose "include" = Ok includes ->
  Py.iter includes = Ok items ->
  Forall (fun i => literal_include i \/ dead_include hd key i) items ->
  outcome_of (parse_valueset_to_list (S depth) valueset hd key s)
    = Ok (pipe_joined (map literal_pair (flat_map concepts_of items)))
  /\ map fst (http_requests (events_of (parse_valueset_to_list (S depth) valueset hd key s)))
     = flat_map include_uris items.
Proof.
  intros Hhas Hc Hi Hit Hitems.
  destruct (for_each_literal_or_dead
              (fun n => parse_valueset_to_list depth n None None) Hitems ([], []) s)
    as [s' [t [Hloop Hreq]]].
  cbn [fst snd app] in Hloop.
  simpl. unfold parse_body, logging_info, collect_lists. rewrite bind_emit.
  rewrite bind_assoc, bind_lift_ok with (a := true) by exact Hhas.
  rewrite bind_assoc, bind_lift_ok with (a := compose) by exact Hc.
  rewrite bind_assoc, bind_lift_ok with (a := includes) by exact Hi.
  rewrite bind_assoc, bind_lift_ok with (a := items) by exact Hit.
  erewrite bind_ok by exact Hloop. rewrite join_lists_pairs.
  unfold after_event, outcome_of, events_of. cbn [fst snd http_requests].
  rewrite app_nil_r. split; [reflexivity | exact Hreq].
Qed.

Lemma literal_concepts_survive_dead_links_witness :
  outcome_of (@parse_valueset_to_list Fixtures.web 1 Cases.vs_with_dead_link
                (Some fhir_headers) None tt) = Ok (Some "male", Some "Male")
  /\ map fst (http_requests
                (events_of (@parse_valueset_to_list Fixtures.web 1 Cases.vs_with_dead_link
                              (Some fhir_headers) None tt)))
     = [JStr "https://tx.example.org/ValueSet/missing"].
Proof.
  assert (Hitems :
    Forall (fun i => literal_include i
                     \/ @dead_include Fixtures.web (Some fhir_headers) None i)
      [JObj [("concept", JArr [Fixtures.concept "male" "Male"])];
       JObj [("valueSet", JArr [JStr "https://tx.example.org/ValueSet/missing"])]]).
  { apply Forall_cons; [|apply Forall_cons; [|apply Forall_nil]].
    - left. eexists. split; [reflexivity|]. split; [reflexivity|].
      apply Forall_cons; [|apply Forall_nil].
      eexists. eexists. eexists. repeat split; reflexivity.
    - right. eexists. split; [reflexivity|]. split; [reflexivity|]. split; [reflexivity|].
      apply Forall_cons; [|apply Forall_nil].
      eexists. split; [reflexivity|]. intros []. left. reflexivity. }
  exact (@literal_concepts_survive_dead_links Fixtures.web 0 Cases.vs_with_dead_link
           _ _ _ (Some fhir_headers) None tt eq_refl eq_refl eq_refl eq_refl Hitems).
Defined.

(* ------------------------------------------------------------------ *)
(** ** Value sets that include themselves *)

(** X9: nothing in [parse_valueset_to_list] remembers the value sets it is
    in: one that includes itself is fetched and entered again and again, and
    the call ends on the interpreter's recursion limit, however large the
    limit is; no handler of the module catches [RecursionError]. *)
Theorem self_including_value_set_hits_recursion_limit {Wd : World} (valueset : json) :
  includes_itself valueset ->
  Py.truthy valueset = true ->
  forall (depth : nat) (hd : option headers) (key : option string) (s : server),
    outcome_of (parse_valueset_to_list depth valueset hd key s) = Raise RecursionError.
Proof.
  intros [compose [includes [include [items [uri [uris
            [Hhas [Hc [Hi [Hit [Hcon [Hvs [Huris Hans]]]]]]]]]]]]] Htrue.
  induction depth as [|depth IH]; intros hd key s; [reflexivity|].
  simpl. unfold parse_body, logging_info. rewrite bind_emit, outcome_after_event.
  apply outcome_bind_raise. unfold collect_lists.
  rewrite bind_lift_ok with (a := true) by exact Hhas.
  rewrite bind_lift_ok with (a := compose) by exact Hc.
  rewrite bind_lift_ok with (a := includes) by exact Hi.
  rewrite bind_lift_ok with (a := include :: items) by exact Hit.
  simpl for_each. apply outcome_bind_raise. unfold collect_include.
  rewrite bind_lift_ok with (a := false) by exact Hcon.
  rewrite bind_lift_ok with (a := true) by exact Hvs.
  rewrite bind_lift_ok with (a := JStr uri :: uris) by exact Huris.
  simpl for_each. apply outcome_bind_raise. unfold collect_nested.
  destruct (fetch_valueset_run uri hd key s) as [Ho _].
  rewrite (answers_outcome _ _ (Hans s _)) in Ho.
  rewrite (outcome_bind_ok _ _ _ Ho), Htrue.
  apply outcome_bind_raise. apply IH.
Qed.

Lemma self_including_value_set_hits_recursion_limit_witness :
  outcome_of (@parse_valueset_to_list Cases.loop_web 1000 Cases.vs_loop
                (Some fhir_headers) None tt) = Raise RecursionError.
Proof.
  apply (@self_including_value_set_hits_recursion_limit Cases.loop_web Cases.vs_loop).
  - exists (JObj [("include", JArr [JObj [("valueSet", JArr [JStr Cases.url_loop])]])]),
      (JArr [JObj [("valueSet", JArr [JStr Cases.url_loop])]]),
      (JObj [("valueSet", JArr [JStr Cases.url_loop])]), [], Cases.url_loop, [].
    repeat split; reflexivity.
  - reflexivity.
Defined.

(* ------------------------------------------------------------------ *)
(** ** Where the API key goes *)

Section CredentialFacts.
Context {Wd : World}.

Lemma fetch_valueset_expected (uri : json) (hd : option headers) (key : option string) :
  emits (expected_headers hd key) (fetch_valueset uri hd key).
Proof.
  unfold fetch_valueset, logging_info.
  apply emits_bind; [apply emits_emit; exact I | intros _].
  apply emits_bind_lift. intros [|] Hnlm.
  - destruct key as [k|].
    + destruct (PyStr.truthy k) eqn:Hk.
      * apply fetch_nlm_valueset_emits; [intros; exact I|].
        simpl. right. right. exists k. repeat split; auto.
        now apply truthy_not_empty.
      * apply fetch_fhir_valueset_emits; [intros; exact I|]. simpl. auto.
    + apply fetch_fhir_valueset_emits; [intros; exact I|]. simpl. auto.
  - assert (H : emits (expected_headers hd key) (fetch_fhir_valueset uri hd))
      by (apply fetch_fhir_valueset_emits; [intros; exact I|]; simpl; auto).
    destruct key; exact H.
Qed.

Lemma bare_is_expected (hd : option headers) (key : option string) (e : event) :
  bare_request e -> expected_headers hd key e.
Proof. destruct e; simpl; auto. Qed.

Lemma parse_valueset_to_list_expected (depth : nat) (valueset : json)
  (hd : option headers) (key : option string) :
  emits (expected_headers hd key) (parse_valueset_to_list depth valueset hd key).
Proof.
  destruct depth as [|depth]; simpl; [apply emits_raise|].
  unfold parse_body, logging_info.
  apply emits_bind; [apply emits_emit; exact I | intros _].
  apply emits_bind; [|intros lists; apply join_lists_emits].
  unfold collect_lists.
  apply emits_bind_lift. intros [|] _; [|apply emits_ret].
  apply emits_bind_lift. intros compose _.
  apply emits_bind_lift. intros includes _.
  apply emits_bind_lift. intros items _.
  apply emits_for_each. intros acc include _.
  unfold collect_include.
  apply emits_bind_lift. intros [|] _.
  - emits_steps.
  - apply emits_bind_lift. intros [|] _; [|apply emits_ret].
    apply emits_bind_lift. intros uris _.
    apply emits_for_each. intros acc' uri _.
    unfold collect_nested.
    apply emits_bind; [apply fetch_valueset_expected | intros nested].
    destruct (Py.truthy nested); [|apply emits_ret].
    apply emits_bind.
    + eapply emits_weaken; [apply bare_is_expected | apply parse_valueset_to_list_bare].
    + intros r. emits_steps.
Qed.

Lemma resolve_binding_expected (depth : nat) (r new_row : Series)
  (hd : option headers) (key : option string) :
  emits (expected_headers hd key) (resolve_binding depth r new_row hd key).
Proof.
  unfold resolve_binding.
  apply emits_bind_lift. intros [|uri] _; [apply emits_ret|].
  apply emits_bind; [apply fetch_valueset_expected | intros valueset].
  destruct (Py.truthy valueset); [|apply emits_ret].
  apply emits_bind; [apply parse_valueset_to_list_expected | intros parsed].
  emits_steps.
Qed.

Lemma process_extension_rows_expected (depth : nat) (row : Series) (exts : DataFrame)
  (hd : option headers) (key : option string) (ms : list (string * colspec)) :
  emits (expected_headers hd key) (process_extension_rows depth row exts hd key ms).
Proof.
  unfold process_extension_rows, logging_info, print.
  apply emits_bind_lift. intros shown _.
  apply emits_bind; [apply emits_emit; exact I | intros _].
  do 7 (apply emits_bind_lift; intros ? _).
  destruct (Pd.empty _).
  - emits_steps. exact I.
  - apply emits_bind; [|intros rows; apply emits_ret].
    apply emits_for_each. intros acc ext_row _. unfold process_extension_row.
    apply emits_bind_lift. intros extension_id _.
    apply emits_bind_lift. intros new_row _.
    apply emits_bind; [apply resolve_binding_expected | intros new_row'; apply emits_ret].
Qed.

Lemma process_resource_rows_expected (depth : nat) (res exts tpl : DataFrame)
  (ms : list (string * colspec)) (hd : option headers) (key : option string) :
  emits (expected_headers hd key) (process_resource_rows depth res exts tpl ms hd key).
Proof.
  unfold process_resource_rows, logging_info.
  apply emits_bind; [apply emits_emit; exact I | intros _].
  apply emits_bind; [|intros rows; apply emits_ret].
  apply emits_for_each. intros acc row _. unfold process_resource_row.
  apply emits_bind_lift. intros variable_name _.
  apply emits_bind_lift. intros new_row _.
  apply emits_bind; [apply resolve_binding_expected | intros new_row'].
  apply emits_bind_lift. intros slice_name _.
  destruct (notna slice_name); [|apply emits_ret].
  apply emits_bind; [apply process_extension_rows_expected | intros df; apply emits_ret].
Qed.

Lemma emits_no_request_expected {A} (hd : option headers) (key : option string) (m : M A) :
  emits (fun e => http_requests [e] = []) m -> emits (expected_headers hd key) m.
Proof.
  apply emits_weaken. intros [] H; simpl in *; auto; discriminate.
Qed.

Lemma main_expected depth profile resource ext key :
  emits (expected_headers (Some fhir_headers) key) (main depth profile resource ext key).
Proof.
  unfold main. cbv zeta.
  repeat (apply emits_bind;
          [ first [ apply process_resource_rows_expected
                  | apply emits_no_request_expected;
                    unfold load_profile, load_resource, load_extensions, read_csv,
                      merge_with_template, to_csv, logging_info;
                    emits_steps; reflexivity ]
          | intros ? ]).
  apply emits_no_request_expected. unfold logging_info. emits_steps. reflexivity.
Qed.

End CredentialFacts.

(** X10: in a whole run of [main], a request goes out without headers, or
    with the Accept header alone, or with the NLM authorization made of the
    API key; this last one only when the key is a non-empty string and only
    to a URI that holds the NLM domain.  So with no key, or an empty one, no
    request of the run carries an authorization, and the key never reaches a
    URI without the NLM domain in it. *)
Theorem api_key_goes_to_nlm_uris_only {Wd : World} (depth : nat)
  (profile_startswith resource_name extension_Id_startswith : string)
  (UMLS_API_KEY : option string) (s : server) :
  Forall (expected_headers (Some fhir_headers) UMLS_API_KEY)
    (events_of (main depth profile_startswith resource_name extension_Id_startswith
                  UMLS_API_KEY s))
  /\ (Py.truthy_opt UMLS_API_KEY = false ->
      forall url h,
        In (url, h)
           (http_requests
              (events_of (main depth profile_startswith resource_name
                            extension_Id_startswith UMLS_API_KEY s))) ->
        h = None \/ h = Some fhir_headers).
Proof.
  pose proof (main_expected depth profile_startswith resource_name
                extension_Id_startswith UMLS_API_KEY s) as H.
  split; [exact H|].
  intros Hkey url h Hin.
  assert (Hev : In (EvHttpGet url h)
                  (events_of (main depth profile_startswith resource_name
                                extension_Id_startswith UMLS_API_KEY s))).
  { revert Hin. generalize (events_of (main depth profile_startswith resource_name
                                         extension_Id_startswith UMLS_API_KEY s)).
    intros t. induction t as [|e t IH]; simpl; [tauto|].
    destruct e; simpl; auto.
    intros [Hin|Hin]; [left; now injection Hin as -> -> | right; auto]. }
  rewrite Forall_forall in H. specialize (H _ Hev). simpl in H.
  destruct H as [H|[H|[k [Hk [Hne _]]]]]; auto.
  subst. simpl in Hkey. unfold PyStr.truthy in Hkey.
  apply Bool.negb_false_iff, String.eqb_eq in Hkey. contradiction.
Qed.

Lemma api_key_goes_to_nlm_uris_only_witness :
  Py.truthy_opt None = false
  /\ Forall (expected_headers (Some fhir_headers) None)
       (events_of (@main Fixtures.site 5 "us-core" "patient" "Extension" None tt)).
Proof.
  split; [reflexivity|].
  apply (@api_key_goes_to_nlm_uris_only Fixtures.site 5 "us-core" "patient" "Extension"
           None tt).
Defined.

(* ------------------------------------------------------------------ *)
(** ** The column check and the loaders *)

(** X11: the message of the [ValueError] of [merge_with_template] names the
    first column of the mapped frame, in column order, that the template
    lacks; later foreign columns are not reported. *)
Theorem merge_names_first_foreign_column {Wd : World} (df_mapped de_template : DataFrame)
  (before after : list string) (col : string) (s : server) :
  columns df_mapped = before ++ col :: after ->
  (forall c, In c before -> In c (columns de_template)) ->
  ~ In col (columns de_template) ->
  merge_with_template df_mapped de_template s =
    (Raise (ValueError ("Column " +++ col +++ " in df_mapped is not in de_template.")), s,
     [EvLog INFO "Merging processed DataFrame with DE template..." []]).
Proof.
  intros Hcols Hbefore Hcol. unfold merge_with_template, logging_info.
  rewrite bind_emit.
  rewrite bind_lift_raise
    with (e := ValueError ("Column " +++ col +++ " in df_mapped is not in de_template."));
    [reflexivity|].
  rewrite Hcols. clear Hcols. induction before as [|b before IH]; simpl.
  - destruct (existsb (String.eqb col) (columns de_template)) eqn:E; [|reflexivity].
    apply existsb_eqb_In in E. contradiction.
  - assert (E : existsb (String.eqb b) (columns de_template) = true)
      by (apply existsb_eqb_In, Hbefore; now left).
    rewrite E. apply IH. intros c Hc. apply Hbefore. now right.
Qed.

Lemma merge_names_first_foreign_column_witness :
  outcome_of (@merge_with_template Fixtures.web
                (mkDataFrame ["variable name"; "references"; "notes"; "domain"] [])
                Fixtures.short_template tt)
  = Raise (ValueError "Column references in df_mapped is not in de_template.").
Proof.
  rewrite (@merge_names_first_foreign_column Fixtures.web _ Fixtures.short_template
             ["variable name"] ["notes"; "domain"] "references" tt).
  - reflexivity.
  - reflexivity.
  - intros c [<-|[]]. simpl. tauto.
  - simpl. intros H.
    repeat (destruct H as [H|H]; [discriminate H|]). exact H.
Defined.

Section LoadFacts.
Context {Wd : World}.

Lemma read_csv_run (fp : string) (df : DataFrame) (s : server) :
  read_csv_file fp = Some df -> read_csv fp s = (Ok df, s, [EvReadCsv fp]).
Proof. intros H. unfold read_csv. rewrite bind_emit, H. reflexivity. Qed.

Lemma read_csv_missing (fp : string) (s : server) :
  read_csv_file fp = None -> read_csv fp s = (Raise (OSError fp), s, [EvReadCsv fp]).
Proof. intros H. unfold read_csv. rewrite bind_emit, H. reflexivity. Qed.

Lemma filter_mask_column (df : DataFrame) (label : string) (f : cell -> bool) :
  Pd.filter_mask df (map f (map (fun r => cell_of r label) (Pd.iterrows df)))
  = mkDataFrame (columns df)
      (filter (fun rec => f (cell_of (combine (columns df) rec) label)) (records df)).
Proof.
  unfold Pd.filter_mask, Pd.iterrows. f_equal. rewrite !map_map. apply select_filter.
Qed.

Lemma load_profile_run (fp p : string) (df : DataFrame) (s : server) :
  read_csv_file fp = Some df ->
  In "Profile" (columns df) ->
  load_profile fp p s =
    (Ok (mkDataFrame (columns df)
           (filter (fun rec => Pd.startswith_na_false p
                                 (cell_of (combine (columns df) rec) "Profile"))
              (records df))), s,
     [EvLog INFO "Loading profiles from {} that start with {}" [AStr fp; AStr p];
      EvReadCsv fp]).
Proof.
  intros Hf Hc. unfold load_profile, logging_info. rewrite bind_emit.
  erewrite bind_ok by (apply read_csv_run; exact Hf).
  rewrite bind_lift_ok with (a := map (fun r => cell_of r "Profile") (Pd.iterrows df))
    by (now apply column_eq).
  rewrite filter_mask_column. reflexivity.
Qed.


Lemma load_resource_run (df : DataFrame) (r : string) (s : server) :
  In "Profile" (columns df) ->
  load_resource df r s =
    (Ok (mkDataFrame (columns df)
           (filter (fun rec => Pd.endswith_na_false r
                                 (cell_of (combine (columns df) rec) "Profile"))
              (records df))), s,
     [EvLog INFO "Filtering DataFrame based on resource type: {}" [AStr r]]).
Proof.
  intros Hc. unfold load_resource, logging_info. rewrite bind_emit.
  rewrite bind_lift_ok with (a := map (fun r => cell_of r "Profile") (Pd.iterrows df))
    by (now apply column_eq).
  rewrite filter_mask_column. reflexivity.
Qed.

Lemma iterrows_filter (cols : list string) (f : Series -> bool) (recs : list (list cell)) :
  Pd.iterrows (mkDataFrame cols (filter (fun rec => f (combine cols rec)) recs))
  = filter f (Pd.iterrows (mkDataFrame cols recs)).
Proof.
  unfold Pd.iterrows. simpl. induction recs as [|r recs IH]; simpl; [reflexivity|].
  destruct (f (combine cols r)); simpl; now rewrite IH.
Qed.

(** the two filters [main] applies to the profile table, one after the other *)
Lemma load_profile_resource_run (fp p r : string) (df : DataFrame) (s : server) :
  read_csv_file fp = Some df ->
  In "Profile" (columns df) ->
  bind (load_profile fp p) (fun df_profile => load_resource df_profile r) s =
    (Ok (mkDataFrame (columns df)
           (filter (fun rec => selected p r (combine (columns df) rec)) (records df))), s,
     [EvLog INFO "Loading profiles from {} that start with {}" [AStr fp; AStr p];
      EvReadCsv fp;
      EvLog INFO "Filtering DataFrame based on resource type: {}" [AStr r]]).
Proof.
  intros Hf Hc. erewrite bind_ok by (apply load_profile_run; eassumption).
  rewrite load_resource_run by exact Hc. cbn [columns records].
  rewrite filter_filter. reflexivity.
Qed.

End LoadFacts.

(** X12: the rows [main] processes are the rows of the profile file whose
    Profile starts with [profile_startswith] and ends with [resource], in the
    order of the file and with all their columns; a row whose Profile is
    missing is never among them.  Loading makes no request and reads the file
    once. *)
Theorem resource_rows_are_the_selected_rows {Wd : World} (fp profile_startswith
  resource : string) (df : DataFrame) (s : server) :
  read_csv_file fp = Some df ->
  In "Profile" (columns df) ->
  text_column df "Profile" ->
  exists df_resource t,
    bind (load_profile fp profile_startswith)
      (fun df_profile => load_resource df_profile resource) s = (Ok df_resource, s, t)
    /\ columns df_resource = columns df
    /\ Pd.iterrows df_resource
       = filter (selected profile_startswith resource) (Pd.iterrows df)
    /\ Forall (fun row => exists x, cell_of row "Profile" = Str x)
         (Pd.iterrows df_resource)
    /\ http_requests t = []
    /\ filter is_read t = [EvReadCsv fp].
Proof.
  intros Hf Hc _. eexists. eexists.
  split; [apply load_profile_resource_run; eassumption|].
  split; [reflexivity|].
  assert (E : Pd.iterrows
                (mkDataFrame (columns df)
                   (filter (fun rec => selected profile_startswith resource
                                         (combine (columns df) rec)) (records df)))
              = filter (selected profile_startswith resource) (Pd.iterrows df)).
  { rewrite (iterrows_filter (columns df) (selected profile_startswith resource)).
    destruct df. reflexivity. }
  split; [exact E|]. split; [|split; reflexivity].
  rewrite E. apply Forall_forall. intros row Hrow.
  apply filter_In in Hrow. destruct Hrow as [_ Hsel]. unfold selected in Hsel.
  destruct (cell_of row "Profile") as [|x]; [discriminate | now exists x].
Qed.

Lemma resource_rows_are_the_selected_rows_witness :
  exists df_resource t,
    bind (@load_profile Fixtures.site "fhir_to_brics/templates/all-profiles.csv" "us-core")
      (fun df_profile => load_resource df_profile "patient") tt = (Ok df_resource, tt, t)
    /\ columns df_resource = columns Fixtures.all_profiles
    /\ Pd.iterrows df_resource
       = filter (selected "us-core" "patient") (Pd.iterrows Fixtures.all_profiles)
    /\ Forall (fun row => exists x, cell_of row "Profile" = Str x)
         (Pd.iterrows df_resource)
    /\ http_requests t = []
    /\ filter is_read t = [EvReadCsv "fhir_to_brics/templates/all-profiles.csv"].
Proof.
  apply (@resource_rows_are_the_selected_rows Fixtures.site).
  - reflexivity.
  - simpl. tauto.
  - right. eexists. split; [left; reflexivity | reflexivity].
Defined.

(* ------------------------------------------------------------------ *)
(** ** What [main] writes *)

Section OutputFacts.
Context {Wd : World}.




Lemma read_csv_inv (fp : string) (df : DataFrame) s s' t :
  read_csv fp s = (Ok df, s', t) -> read_csv_file fp = Some df.
Proof.
  unfold read_csv. rewrite bind_emit. destruct (read_csv_file fp) as [d|]; [|discriminate].
  unfold after_event, ret. simpl. intros H. now injection H as ->.
Qed.


End OutputFacts.


Example patient_run_writes_one_file :
  map fst (writes (events_of (@main Fixtures.site 5 "us-core" "patient" "Extension"
                                None tt)))
    = ["fhir_to_brics/output/patient_des.csv"]
  /\ writes (events_of (@main Fixtures.site_short_template 5 "us-core" "patient"
                          "Extension" None tt)) = [].
Proof. split; reflexivity. Qed.

Section EmptyFacts.
Context {Wd : World}.



Lemma concat_nothing (de_template df_mapped : DataFrame) :
  (forall c, In c (columns df_mapped) -> In c (columns de_template)) ->
  records df_mapped = [] ->
  NoDup (columns de_template) ->
  full_rows de_template ->
  Pd.concat de_template df_mapped = de_template.
Proof.
  intros Hsub Hrec Hnd Hfull. rewrite concat_records by assumption.
  unfold Pd.iterrows. rewrite Hrec. simpl. rewrite app_nil_r. now destruct de_template.
Qed.

End EmptyFacts.



(* ------------------------------------------------------------------ *)
(** ** The columns of the mapped frame *)

Section ColumnFacts.
Context {Wd : World}.

Lemma setitem_keys (d : Series) (k0 : string) (v : cell) (k : string) :
  In k (map fst (Pd.setitem d k0 v)) -> k = k0 \/ In k (map fst d).
Proof.
  induction d as [|[k' v'] d IH]; simpl.
  - intros [<-|[]]. now left.
  - destruct (String.eqb k0 k') eqn:E; simpl.
    + intros [<-|H]; right; [now left | now right].
    + intros [<-|H]; [right; now left|].
      destruct (IH H) as [->|H']; [now left | right; now right].
Qed.

Lemma setitem_within (allowed : list string) (d : Series) (k0 : string) (v : cell) :
  In k0 allowed -> keys_within allowed d -> keys_within allowed (Pd.setitem d k0 v).
Proof.
  intros H0 Hd k Hk. apply setitem_keys in Hk. destruct Hk as [->|Hk]; auto.
Qed.

Lemma map_fields_within (allowed : list string) (row : Series)
  (ms : list (string * colspec)) :
  (forall b, In b (map fst ms) -> In b allowed) ->
  forall d d', keys_within allowed d -> map_fields row ms d = Ok d' ->
               keys_within allowed d'.
Proof.
  induction ms as [|[b cols] ms IH]; intros Hms d d' Hd H; simpl in H.
  - now injection H as <-.
  - destruct (combine_columns_into_string row [(b, cols)] default_prefix default_sep)
      as [v|e]; [|discriminate].
    simpl in H. eapply IH; [| |exact H].
    + intros b' Hb'. apply Hms. now right.
    + apply setitem_within; [apply Hms; now left | exact Hd].
Qed.

Lemma resolve_binding_within (allowed : list string) depth (r new_row : Series)
  hd key s new_row' s' t :
  In "permissible values" allowed ->
  In "permissible value descriptions" allowed ->
  keys_within allowed new_row ->
  resolve_binding depth r new_row hd key s = (Ok new_row', s', t) ->
  keys_within allowed new_row'.
Proof.
  intros Hv Hd Hrow H. apply resolve_binding_inv in H.
  destruct H as [->|[v [d ->]]]; [exact Hrow|].
  now repeat apply setitem_within.
Qed.

Lemma add_labels_within (allowed : list string) (d : Series) :
  keys_within allowed d ->
  forall seen, (forall k, In k seen -> In k allowed) ->
               forall k, In k (Pd.add_labels seen d) -> In k allowed.
Proof.
  induction d as [|[k' v] d IH]; intros Hd seen Hseen k Hk; simpl in Hk; [auto|].
  eapply IH; [| |exact Hk].
  - intros k0 Hk0. apply Hd. now right.
  - intros k0 Hk0. destruct (existsb (String.eqb k') seen); [auto|].
    apply in_app_or in Hk0. destruct Hk0 as [Hk0|[<-|[]]]; [auto|].
    apply Hd. now left.
Qed.

Lemma union_labels_within (allowed : list string) (ds : list Series) :
  Forall (keys_within allowed) ds ->
  forall k, In k (Pd.union_labels ds) -> In k allowed.
Proof.
  unfold Pd.union_labels. intros H.
  assert (G : forall seen, (forall k, In k seen -> In k allowed) ->
                           forall k, In k (fold_left Pd.add_labels ds seen) -> In k allowed).
  { induction H as [|d ds Hd _ IH]; intros seen Hseen k Hk; simpl in Hk; [auto|].
    eapply IH; [|exact Hk]. now apply add_labels_within. }
  apply G. intros k [].
Qed.

Lemma iterrows_from_records_within (allowed : list string) (ds : list Series) :
  Forall (keys_within allowed) ds ->
  Forall (keys_within allowed) (Pd.iterrows (Pd.from_records ds)).
Proof.
  intros H. rewrite iterrows_from_records. apply Forall_map. apply Forall_forall.
  intros d _ k Hk. apply (union_labels_within H).
  apply in_map_iff in Hk. destruct Hk as [[k' v] [<- Hin]].
  now apply in_combine_l in Hin.
Qed.

Lemma process_extension_row_within (allowed : list string) depth (row : Series)
  (parent : string) hd key (ms : list (string * colspec)) (rows : list Series)
  (ext : Series) s rows' s' t :
  (forall k, In k (mapped_fields ms) -> In k allowed) ->
  Forall (keys_within allowed) rows ->
  process_extension_row depth row parent hd key ms rows ext s = (Ok rows', s', t) ->
  Forall (keys_within allowed) rows'.
Proof.
  intros Hall Hrows H. unfold process_extension_row in H.
  inv_bind H as id Hid. inv_bind H as d1 Hm. apply lift_inv in Hm. destruct Hm as [Hm _].
  inv_bind H as d2 Hr. apply ret_inv in H. destruct H as [-> _].
  apply Forall_app. split; [exact Hrows|]. apply Forall_cons; [|apply Forall_nil].
  eapply resolve_binding_within; [| | |exact Hr].
  - apply Hall. unfold mapped_fields. right. apply in_or_app. right. now left.
  - apply Hall. unfold mapped_fields. right. apply in_or_app. right. right. now left.
  - eapply map_fields_within; [| |exact Hm].
    + intros b Hb. apply Hall. right. apply in_or_app. now left.
    + intros k [<-|[]]. apply Hall. now left.
Qed.

Lemma process_extension_rows_within (allowed : list string) depth (row : Series)
  (exts : DataFrame) hd key (ms : list (string * colspec)) s df s' t :
  (forall k, In k (mapped_fields ms) -> In k allowed) ->
  process_extension_rows depth row exts hd key ms s = (Ok df, s', t) ->
  Forall (keys_within allowed) (Pd.iterrows df).
Proof.
  intros Hall H. unfold process_extension_rows in H.
  inv_bind H as shown H1. inv_bind H as u H2. inv_bind H as slice_name H3.
  inv_bind H as parent H4. inv_bind H as profiles H5. inv_bind H as mask H6.
  inv_bind H as m1 H7. inv_bind H as ids H8. inv_bind H as m2 H9.
  destruct (Pd.empty m2).
  - inv_bind H as u' H10. apply ret_inv in H. destruct H as [-> _]. constructor.
  - inv_bind H as rows Hloop. apply ret_inv in H. destruct H as [-> _].
    apply iterrows_from_records_within.
    eapply (for_each_inv (fun rows => Forall (keys_within allowed) rows));
      [| |exact Hloop]; [|constructor].
    intros acc x sa a sb tb _ Hacc Hbody.
    eapply process_extension_row_within; eassumption.
Qed.

Lemma process_resource_row_within (allowed : list string) depth (exts : DataFrame)
  (ms : list (string * colspec)) hd key (rows : list Series) (row : Series)
  s rows' s' t :
  (forall k, In k (mapped_fields ms) -> In k allowed) ->
  Forall (keys_within allowed) rows ->
  process_resource_row depth exts ms hd key rows row s = (Ok rows', s', t) ->
  Forall (keys_within allowed) rows'.
Proof.
  intros Hall Hrows H. unfold process_resource_row in H.
  inv_bind H as name Hn. inv_bind H as d1 Hm. apply lift_inv in Hm. destruct Hm as [Hm _].
  inv_bind H as d2 Hr. inv_bind H as slice_name Hs.
  assert (Hd2 : keys_within allowed d2).
  { eapply resolve_binding_within; [| | |exact Hr].
    - apply Hall. unfold mapped_fields. right. apply in_or_app. right. now left.
    - apply Hall. unfold mapped_fields. right. apply in_or_app. right. right. now left.
    - eapply map_fields_within; [| |exact Hm].
      + intros b Hb. apply Hall. right. apply in_or_app. now left.
      + intros k [<-|[]]. apply Hall. now left. }
  assert (Hnew : Forall (keys_within allowed) (rows ++ [d2])).
  { apply Forall_app. split; [exact Hrows|]. now apply Forall_cons. }
  destruct (notna slice_name).
  - inv_bind H as df Hext. apply ret_inv in H. destruct H as [-> _].
    apply Forall_app. split; [exact Hnew|].
    eapply process_extension_rows_within; eassumption.
  - apply ret_inv in H. destruct H as [-> _]. exact Hnew.
Qed.

Lemma process_resource_rows_within depth (res exts tpl : DataFrame)
  (ms : list (string * colspec)) hd key s df_mapped s' t :
  process_resource_rows depth res exts tpl ms hd key s = (Ok df_mapped, s', t) ->
  forall c, In c (columns df_mapped) -> In c (mapped_fields ms).
Proof.
  intros H. unfold process_resource_rows in H.
  inv_bind H as u Hlog. inv_bind H as rows Hloop. apply ret_inv in H. destruct H as [-> _].
  apply union_labels_within.
  eapply (for_each_inv (fun rows => Forall (keys_within (mapped_fields ms)) rows));
    [| |exact Hloop]; [|constructor].
  intros acc x sa a sb tb _ Hacc Hbody.
  eapply process_resource_row_within; [|exact Hacc|exact Hbody]. auto.
Qed.

End ColumnFacts.

(** X15: the frame that [process_resource_rows] returns has no column but
    [variable name], the targets of the mappings and the two permissible-value
    columns.  So with a template that has these columns the check of
    [merge_with_template] passes, whatever the rows and the value sets were. *)
Theorem mapped_columns_are_known {Wd : World} (depth : nat)
  (df_resource df_extensions de_template : DataFrame) (ms : list (string * colspec))
  (hd : option headers) (key : option string) (s s' : server) (t : list event)
  (df_mapped : DataFrame) :
  process_resource_rows depth df_resource df_extensions de_template ms hd key s
    = (Ok df_mapped, s', t) ->
  (forall c, In c (columns df_mapped) -> In c (mapped_fields ms))
  /\ forall template s0,
       (forall c, In c (mapped_fields ms) -> In c (columns template)) ->
       outcome_of (merge_with_template df_mapped template s0)
         = Ok (Pd.concat template df_mapped).
Proof.
  intros H. pose proof (process_resource_rows_within _ _ _ _ _ _ _ _ H) as Hcols.
  split; [exact Hcols|].
  intros template s0 Htpl. unfold merge_with_template, logging_info.
  rewrite bind_emit, bind_lift_ok with (a := tt); [reflexivity|].
  apply check_columns_ok. auto.
Qed.

Lemma mapped_columns_are_known_witness :
  exists df_mapped,
    outcome_of (@process_resource_rows Fixtures.site 5
                  (mkDataFrame Fixtures.profile_columns
                     (firstn 2 (records Fixtures.all_profiles)))
                  Fixtures.extensions Fixtures.de_template mappings
                  (Some fhir_headers) None tt) = Ok df_mapped
    /\ forall c, In c (columns df_mapped) -> In c (mapped_fields mappings).
Proof.
  assert (Hrun : exists df_mapped t,
            @process_resource_rows Fixtures.site 5
              (mkDataFrame Fixtures.profile_columns
                 (firstn 2 (records Fixtures.all_profiles)))
              Fixtures.extensions Fixtures.de_template mappings
              (Some fhir_headers) None tt = (Ok df_mapped, tt, t)).
  { eexists. eexists. vm_compute. reflexivity. }
  destruct Hrun as [df_mapped [t Hrun]].
  exists df_mapped. split; [now rewrite Hrun|].
  exact (proj1 (@mapped_columns_are_known Fixtures.site _ _ _ _ _ _ _ _ _ _ _ Hrun)).
Defined.

(* ------------------------------------------------------------------ *)
(** ** The order of reads and requests *)

Section OrderFacts.
Context {Wd : World}.

Lemma reads_then_requests_bind {A B} (m : M A) (f : A -> M B) (s : server) :
  emits (fun e => is_request e = false) m ->
  (forall a s1, reads_then_requests (f a s1)) ->
  reads_then_requests (bind m f s).
Proof.
  intros Hm Hf. specialize (Hm s). unfold reads_then_requests, bind, events_of in *.
  destruct (m s) as [[[a|e] s1] t1]; simpl in *.
  - destruct (Hf a s1) as [u1 [u2 [E [H1 H2]]]].
    destruct (f a s1) as [[o s2] t2]. simpl in *. subst t2.
    exists (t1 ++ u1), u2. rewrite app_assoc. split; [reflexivity|].
    split; [apply Forall_app; now split | exact H2].
  - exists t1, []. rewrite app_nil_r. repeat split; [exact Hm | constructor].
Qed.

Lemma reads_then_requests_tail {A} (m : M A) (s : server) :
  emits (fun e => is_read e = false) m -> reads_then_requests (m s).
Proof.
  intros Hm. exists [], (events_of (m s)). repeat split; [constructor | apply Hm].
Qed.

Lemma http_requests_none (t : list event) :
  Forall (fun e => is_request e = false) t -> http_requests t = [].
Proof.
  induction 1 as [|e t He _ IH]; simpl; [reflexivity|].
  destruct e; try exact IH. discriminate He.
Qed.

Lemma stopped_offline_bind {A B} (m : M A) (f : A -> M B) (s : server) :
  emits (fun e => is_request e = false) m ->
  (forall a s1 t1, m s = (Ok a, s1, t1) -> stopped_offline (f a s1)) ->
  stopped_offline (bind m f s).
Proof.
  intros Hm Hf. specialize (Hm s). unfold stopped_offline, bind, events_of, outcome_of in *.
  destruct (m s) as [[[a|e] s1] t1]; simpl in *.
  - specialize (Hf a s1 t1 eq_refl). destruct (f a s1) as [[o s2] t2]. simpl in *.
    rewrite http_requests_app, (http_requests_none Hm). exact Hf.
  - split; [now apply http_requests_none | now exists e].
Qed.

Lemma load_profile_quiet (fp p : string) :
  emits (fun e => is_request e = false) (load_profile fp p).
Proof. unfold load_profile, read_csv, logging_info. emits_steps; reflexivity. Qed.

Lemma load_profile_file (fp p : string) s df s' t :
  load_profile fp p s = (Ok df, s', t) -> exists d, read_csv_file fp = Some d.
Proof.
  unfold load_profile. intros H. inv_bind H as u Hlog. inv_bind H as d Hread.
  exists d. eapply read_csv_inv. exact Hread.
Qed.

End OrderFacts.

(** X16: [main] has read its input files, the profile table twice and the
    template once, before it makes any request: the events of a run are a
    stretch without requests followed by a stretch without reads.  A missing
    or unreadable input therefore ends the run before the network is used. *)
Theorem inputs_are_read_before_any_request {Wd : World} (depth : nat)
  (profile_startswith resource_name extension_Id_startswith : string)
  (UMLS_API_KEY : option string) (s : server) :
  reads_then_requests
    (main depth profile_startswith resource_name extension_Id_startswith UMLS_API_KEY s)
  /\ forall fp,
       In fp ["fhir_to_brics/templates/all-profiles.csv";
              "fhir_to_brics/templates/ImportUDETemplate.csv"] ->
       read_csv_file fp = None ->
       http_requests
         (events_of (main depth profile_startswith resource_name extension_Id_startswith
                       UMLS_API_KEY s)) = []
       /\ exists e,
            outcome_of (main depth profile_startswith resource_name
                          extension_Id_startswith UMLS_API_KEY s) = Raise e.
Proof.
  split.
  - unfold main. cbv zeta.
    do 6 (apply reads_then_requests_bind;
          [ unfold load_profile, load_resource, load_extensions, read_csv, logging_info;
            emits_steps; reflexivity
          | intros ? ? ]).
    apply reads_then_requests_tail.
    repeat (apply emits_bind;
            [ first [ apply process_resource_rows_emits; reflexivity
                    | unfold merge_with_template, to_csv, logging_info;
                      emits_steps; reflexivity ]
            | intros ? ]).
    unfold logging_info. emits_steps. reflexivity.
  - intros fp Hfp Hnone. unfold main. cbv zeta.
    destruct Hfp as [<-|[<-|[]]].
    + do 2 (apply stopped_offline_bind;
            [unfold logging_info; emits_steps; reflexivity | intros ? ? ? _]).
      apply stopped_offline_bind; [apply load_profile_quiet | intros ? ? ? Hrun].
      apply load_profile_file in Hrun. destruct Hrun as [df Hdf]. congruence.
    + do 2 (apply stopped_offline_bind;
            [unfold logging_info; emits_steps; reflexivity | intros ? ? ? _]).
      apply stopped_offline_bind; [apply load_profile_quiet | intros ? ? ? _].
      apply stopped_offline_bind;
        [unfold load_resource, logging_info; emits_steps; reflexivity | intros ? ? ? _].
      apply stopped_offline_bind;
        [unfold load_extensions, read_csv, logging_info; emits_steps; reflexivity
        | intros ? ? ? _].
      apply stopped_offline_bind;
        [unfold read_csv; emits_steps; reflexivity | intros ? ? ? Hrun].
      apply read_csv_inv in Hrun. congruence.
Qed.

Lemma inputs_are_read_before_any_request_witness :
  @read_csv_file Cases.no_files "fhir_to_brics/templates/all-profiles.csv" = None
  /\ http_requests
       (events_of (@main Cases.no_files 5 "us-core" "patient" "Extension" None tt)) = []
  /\ exists e,
       outcome_of (@main Cases.no_files 5 "us-core" "patient" "Extension" None tt)
         = Raise e.
Proof.
  split; [reflexivity|].
  apply (proj2 (@inputs_are_read_before_any_request Cases.no_files 5 "us-core" "patient"
                  "Extension" None tt)
           "fhir_to_brics/templates/all-profiles.csv").
  - now left.
  - reflexivity.
Defined.

(* ------------------------------------------------------------------ *)
(** ** The recursion limit, the unused constructor and what escapes a fetch *)



(** X18: the frame of [initialize_brics_dataframe] has the columns of the
    template and no row; it passes the column check of [merge_with_template],
    and merging it with a template whose column labels differ from one another
    gives the template back. *)
Theorem initialized_frame_merges_to_template {Wd : World} (de_template : DataFrame)
  (s : server) :
  NoDup (columns de_template) ->
  full_rows de_template ->
  columns (initialize_brics_dataframe de_template) = columns de_template
  /\ Pd.empty (initialize_brics_dataframe de_template) = true
  /\ merge_with_template (initialize_brics_dataframe de_template) de_template s
     = (Ok de_template, s,
        [EvLog INFO "Merging processed DataFrame with DE template..." []]).
Proof.
  intros Hnd Hfull. split; [reflexivity|]. split; [reflexivity|].
  unfold merge_with_template, logging_info. rewrite bind_emit.
  rewrite bind_lift_ok with (a := tt) by (apply check_columns_ok; auto).
  unfold ret, after_event. cbn [fst snd].
  rewrite concat_nothing; auto.
Qed.

Lemma initialized_frame_merges_to_template_witness :
  @merge_with_template Fixtures.web (initialize_brics_dataframe Fixtures.de_template)
    Fixtures.de_template tt
  = (Ok Fixtures.de_template, tt,
     [EvLog INFO "Merging processed DataFrame with DE template..." []]).
Proof.
  apply (@initialized_frame_merges_to_template Fixtures.web Fixtures.de_template tt).
  - repeat (apply NoDup_cons; [simpl; intros H;
                               repeat (destruct H as [H|H]; [discriminate H|]); exact H|]).
    apply NoDup_nil.
  - apply Forall_cons; [reflexivity | apply Forall_nil].
Defined.


(* ------------------------------------------------------------------ *)
(** ** Rows in, rows out *)

Section OrderOfRows.
Context {Wd : World}.

Lemma for_each_rel {A S} (R : list A -> S -> Prop) (l : list A) (body : S -> A -> M S) :
  (forall done acc x s a s' t,
      In x l -> R done acc -> body acc x s = (Ok a, s', t) -> R (done ++ [x]) a) ->
  forall done acc s r s' t,
    R done acc -> for_each l acc body s = (Ok r, s', t) -> R (done ++ l) r.
Proof.
  induction l as [|x l IH]; intros Hb done acc s r s' t Hacc H; simpl in H.
  - apply ret_inv in H. destruct H as [-> _]. now rewrite app_nil_r.
  - apply bind_inv in H. destruct H as [a [s1 [t1 [t2 [H1 [H2 _]]]]]].
    change (x :: l) with ([x] ++ l). rewrite app_assoc.
    apply (IH (fun done acc y s a s' t Hin => Hb done acc y s a s' t (or_intror Hin))
              (done ++ [x]) a s1 r s' t2); [|exact H2].
    exact (Hb done acc x s a s1 t1 (or_introl eq_refl) Hacc H1).
Qed.

Lemma process_resource_row_plain depth (exts : DataFrame) (ms : list (string * colspec))
  hd key (rows : list Series) (row : Series) s rows' s' t :
  ~ In "variable name" (map fst ms) ->
  Pd.loc row "Slice Name" = Ok NaN ->
  process_resource_row depth exts ms hd key rows row s = (Ok rows', s', t) ->
  exists mapped, rows' = rows ++ [mapped] /\ named_after row mapped.
Proof.
  intros Hk Hslice H. unfold process_resource_row in H.
  inv_bind H as name Hn. apply lift_inv in Hn. destruct Hn as [Hn _].
  inv_bind H as d1 Hm. apply lift_inv in Hm. destruct Hm as [Hm _].
  inv_bind H as d2 Hr. rewrite bind_lift_ok with (a := NaN) in H by exact Hslice.
  apply ret_inv in H. destruct H as [-> _].
  exists d2. split; [reflexivity|]. exists name. split; [exact Hn|].
  assert (E1 : cell_of d1 "variable name" = Str name)
    by (eapply eq_trans; [eapply map_fields_keeps; eassumption | reflexivity]).
  apply resolve_binding_inv in Hr. destruct Hr as [->|[v [d ->]]]; [exact E1|].
  now rewrite !cell_of_setitem_other by discriminate.
Qed.

Lemma named_after_from_records (rows : list Series) (ds : list Series) :
  Forall2 named_after rows ds ->
  Forall2 named_after rows (Pd.iterrows (Pd.from_records ds)).
Proof.
  intros H. rewrite iterrows_from_records.
  assert (G : forall cols, (forall d k, In d ds -> In k (map fst d) -> In k cols) ->
                Forall2 named_after rows
                  (map (fun d => combine cols (Pd.reindex cols d)) ds)).
  { intros cols. induction H as [|row d rows ds [name [Hn Hc]] _ IH]; intros Hcols; simpl.
    - constructor.
    - constructor.
      + exists name. split; [exact Hn|]. rewrite cell_of_reindex; [exact Hc|].
        intros Hk. apply (Hcols d); [now left | exact Hk].
      + apply IH. intros d' k Hd'. apply Hcols. now right. }
  apply G. intros d k Hd Hk. now apply union_labels_keys with (d := d).
Qed.

End OrderOfRows.

(** X20: over a resource table in which no row has a slice name,
    [process_resource_rows] returns one mapped row per resource row, in the
    order of the table, each under the variable name of its resource row;
    resolving the bindings neither drops nor adds nor reorders rows. *)
Theorem rows_without_slices_map_one_to_one {Wd : World} (depth : nat)
  (df_resource df_extensions de_template : DataFrame) (ms : list (string * colspec))
  (hd : option headers) (key : option string) (s s' : server) (t : list event)
  (df_mapped : DataFrame) :
  ~ In "variable name" (map fst ms) ->
  Forall (fun row => Pd.loc row "Slice Name" = Ok NaN) (Pd.iterrows df_resource) ->
  process_resource_rows depth df_resource df_extensions de_template ms hd key s
    = (Ok df_mapped, s', t) ->
  Forall2 named_after (Pd.iterrows df_resource) (Pd.iterrows df_mapped).
Proof.
  intros Hk Hplain H. unfold process_resource_rows in H.
  inv_bind H as u Hlog. inv_bind H as rows Hloop. apply ret_inv in H. destruct H as [-> _].
  apply named_after_from_records.
  change (Pd.iterrows df_resource) with ([] ++ Pd.iterrows df_resource).
  eapply (for_each_rel (fun done acc => Forall2 named_after done acc));
    [| |exact Hloop]; [|constructor].
  intros done acc row sa a sb tb Hin Hacc Hbody.
  rewrite Forall_forall in Hplain.
  pose proof (Hplain _ Hin) as Hslice.
  eapply process_resource_row_plain in Hbody; [|exact Hk|exact Hslice].
  destruct Hbody as [mapped [-> Hnamed]].
  apply Forall2_app; [exact Hacc|]. constructor; [exact Hnamed | constructor].
Qed.

Lemma rows_without_slices_map_one_to_one_witness :
  exists df_mapped,
    outcome_of (@process_resource_rows Fixtures.site 5
                  (mkDataFrame Fixtures.profile_columns
                     (firstn 1 (records Fixtures.all_profiles)))
                  Fixtures.extensions Fixtures.de_template mappings
                  (Some fhir_headers) None tt) = Ok df_mapped
    /\ Forall2 named_after
         (Pd.iterrows (mkDataFrame Fixtures.profile_columns
                         (firstn 1 (records Fixtures.all_profiles))))
         (Pd.iterrows df_mapped).
Proof.
  assert (Hrun : exists df_mapped t,
            @process_resource_rows Fixtures.site 5
              (mkDataFrame Fixtures.profile_columns
                 (firstn 1 (records Fixtures.all_profiles)))
              Fixtures.extensions Fixtures.de_template mappings
              (Some fhir_headers) None tt = (Ok df_mapped, tt, t)).
  { eexists. eexists. vm_compute. reflexivity. }
  destruct Hrun as [df_mapped [t Hrun]].
  exists df_mapped. split; [now rewrite Hrun|].
  refine (@rows_without_slices_map_one_to_one Fixtures.site _ _ _ _ _ _ _ _ _ _ _ _ _ Hrun).
  - simpl. intros H. repeat (destruct H as [H|H]; [discriminate H|]). exact H.
  - apply Forall_cons; [reflexivity | apply Forall_nil].
Defined.
